(** * Forcepoint NGFW SMC Ansible modules: a shallow embedding

    The three modules under [library/] are embedded as Rocq functions:
    - [firewall_nat_rule_facts.py]  as [NatRuleFacts.exec_module],
    - [network_element_facts.py]    as [NetworkElementFacts.exec_module],
    - [route_vpn.py]                as [RouteVPN.exec_module].

    Every call the modules make on the SMC client library is recorded in a
    log, so that statements such as "fails before any lookup" or "issues no
    mutating call" are statements about that log. *)

From Stdlib Require Import List String Ascii ZArith Lia Bool.
Import ListNotations.
Local Open Scope string_scope.
Local Open Scope list_scope.

(** ** Python built-ins used by the modules *)

Module Py.

(** [s.split(sep)] for a one-character separator: the separator never
    appears in a token, and a string without separator is its own token. *)
Fixpoint split (sep : ascii) (s : string) : list string :=
  match s with
  | EmptyString => [EmptyString]
  | String c rest =>
      if Ascii.eqb c sep then EmptyString :: split sep rest
      else match split sep rest with
           | tok :: toks => String c tok :: toks
           | [] => [String c EmptyString]
           end
  end.

(** Index adjustment of [l[i:j]] for a list of length [n]: a negative index
    counts from the end, and every index is clipped to [0..n]. *)
Definition adjust_index (n i : Z) : Z :=
  if (i <? 0)%Z then Z.max (i + n) 0 else Z.min i n.

(** [l[i:j]] *)
Definition slice {A : Type} (l : list A) (i j : Z) : list A :=
  let n := Z.of_nat (List.length l) in
  let lo := adjust_index n i in
  let hi := adjust_index n j in
  firstn (Z.to_nat (hi - lo)) (skipn (Z.to_nat lo) l).

(** [enumerate(l, start)] *)
Fixpoint enumerate {A : Type} (start : nat) (l : list A) : list (nat * A) :=
  match l with
  | [] => []
  | x :: rest => (start, x) :: enumerate (S start) rest
  end.

(** Truth value of an optional [str] parameter: [None] and [''] are false. *)
Definition truthy (s : option string) : bool :=
  match s with
  | Some EmptyString | None => false
  | Some _ => true
  end.

(** The value of an optional [str] parameter when it is true. *)
Definition nonempty (s : option string) : option string :=
  match s with
  | Some EmptyString | None => None
  | Some text => Some text
  end.

(** [x in t] for a tuple or list of [str]. *)
Definition contains (t : list string) (x : string) : bool :=
  existsb (String.eqb x) t.

(** A reading of [int(s)] on ASCII text, as CPython 3 does it with the
    default [sys.int_max_str_digits], used to run the modules on concrete
    inputs: surrounding blanks are dropped, one sign is allowed, digits
    may be grouped by single underscores, and a text of more than 4300
    digits is refused.  [None] stands for [ValueError].  The module
    definitions below do not depend on it: they take the conversion as a
    parameter. *)

(** The blanks that [int] skips: tab, line feed, vertical tab, form feed,
    carriage return and space.  The separators [\x1c] to [\x1f], which
    [str.isspace] accepts, are not among them. *)
Definition is_space (c : ascii) : bool :=
  let n := nat_of_ascii c in
  (((9 <=? n) && (n <=? 13)) || (n =? 32))%nat.

Definition digit_of (c : ascii) : option Z :=
  let n := nat_of_ascii c in
  if ((48 <=? n) && (n <=? 57))%nat then Some (Z.of_nat (n - 48)) else None.

Fixpoint lstrip (s : string) : string :=
  match s with
  | String c rest => if is_space c then lstrip rest else s
  | EmptyString => EmptyString
  end.

Fixpoint rstrip (s : string) : string :=
  match s with
  | EmptyString => EmptyString
  | String c rest =>
      match rstrip rest with
      | EmptyString => if is_space c then EmptyString else String c EmptyString
      | kept => String c kept
      end
  end.

(** [digits acc prev s]: [prev] tells whether the previous character was a
    digit, which is where an underscore may stand. *)
Fixpoint digits (acc : Z) (prev : bool) (s : string) : option Z :=
  match s with
  | EmptyString => if prev then Some acc else None
  | String c rest =>
      match digit_of c with
      | Some d => digits (10 * acc + d)%Z true rest
      | None =>
          if Ascii.eqb c "_"%char && prev then
            match rest with
            | EmptyString => None
            | String c' _ =>
                match digit_of c' with
                | Some _ => digits acc false rest
                | None => None
                end
            end
          else None
      end
  end.

(** The default of [sys.int_max_str_digits]. *)
Definition int_max_str_digits : Z := 4300.

(** The number of digits of a text; underscores and the sign do not
    count. *)
Fixpoint digit_count (s : string) : Z :=
  match s with
  | EmptyString => 0
  | String c rest =>
      match digit_of c with
      | Some _ => 1 + digit_count rest
      | None => digit_count rest
      end
  end%Z.

Definition int_ascii (s : string) : option Z :=
  let text := rstrip (lstrip s) in
  if (int_max_str_digits <? digit_count text)%Z then None
  else
    match text with
    | String "+"%char body => digits 0 false body
    | String "-"%char body => option_map Z.opp (digits 0 false body)
    | body => digits 0 false body
    end.

End Py.

(** ** Messages

    A message is kept as the pieces of its format string and the values
    substituted for [%s]: how Python prints a tuple, a list or an exception
    of the client library is not fixed here. *)

Inductive chunk : Type :=
| Lit (text : string)                     (* text of the format string *)
| Arg (value : string)                    (* a [str] printed by [%s] *)
| ArgTuple (values : list string)         (* a tuple of [str] printed by [%s] *)
| ArgList (values : list string)          (* a list of [str] printed by [%s] *)
| ArgMissing (entries : list (string * string))
                                          (* [Cache.missing] printed by [%s] *)
| LibText (operation : string) (subject : string).
                                          (* text of an exception raised by
                                             the client library *)

Definition msg : Type := list chunk.

(** How one invocation ends: [exec_module] returns its results, the module
    exits through [fail] (Ansible's [fail_json]), or a Python exception
    that the module does not catch ends it. *)
Inductive outcome (A : Type) : Type :=
| Returned (results : A)
| Failed (m : msg)
| Crashed (m : msg).
Arguments Returned {A} results.
Arguments Failed {A} m.
Arguments Crashed {A} m.

(** ** [firewall_nat_rule_facts.py] *)

Module NatRuleFacts.

(** A rule as the module reads it: [rule.name] and [rule.typeof]. *)
Record Rule : Type := {
  name : string;
  typeof : string
}.

(** A policy as the module reads it: its name, the ordered collection
    [fw_ipv4_nat_rules] and the library's [search_rule]. *)
Record Policy : Type := {
  policy_name : string;
  fw_ipv4_nat_rules : list Rule;
  search_rule : string -> list Rule
}.

(** Module parameters, after [setattr]. *)
Record params : Type := {
  filter : string;
  expand : list string;
  search : option string;
  rule_range : option string;
  as_yaml : option bool
}.

(** Calls on the SMC client. *)
Inductive call : Type :=
| SearchByType (flt : string)
| SearchRule (policy : string) (text : string)
| NatRules (policy : string).

Definition expands : list string := ["sources"; "destinations"; "services"].

Section Handler.

(** [int] applied to a [str]; [None] is [ValueError]. *)
Variable int : string -> option Z.

(** [to_yaml(rule, expand)]: the expanded view of a rule. *)
Variable Yaml : Type.
Variable to_yaml : Rule -> list string -> Yaml.

(** [self.search_by_type(FirewallPolicy)], of the module base class: the
    policies the server returns for the filter. *)
Variable search_by_type : params -> list Policy.

(** One entry of [rules]: the compact dict, whose ['pos'] key is present
    or not, or the YAML view. *)
Inductive rule_out : Type :=
| Compact (rname rtype : string) (pos : option nat)
| AsYaml (y : Yaml).

Record firewall_rule : Type := {
  policy : string;
  rules : list rule_out
}.

(** [self.results['ansible_facts']['firewall_nat_rule']] *)
Definition results : Type := list firewall_rule.

Definition is_nat_rule (r : Rule) : bool := typeof r =? "fw_ipv4_nat_rule".

(** The first [attr] of [self.expand] that is not in [expands]. *)
Definition invalid_expand (p : params) : option string :=
  find (fun attr => negb (Py.contains expands attr)) (expand p).

(** [start, end = map(int, self.rule_range.split('-'))]: [None] is the
    [ValueError] of a token [int] rejects or of a wrong number of tokens. *)
Definition parse_range (r : string) : option (Z * Z) :=
  match Py.split "-"%char r with
  | [a; b] =>
      match int a, int b with
      | Some s, Some e => Some (s, e)
      | _, _ => None
      end
  | _ => None
  end.

Definition range_error (r : string) : msg :=
  [Lit "Value of rule range was invalid. Rule ranges must be a string with numeric only values, got: ";
   Arg r].

(** The rule selection of lines 292-303: a result and the calls made, or
    the text of the [SMCException] raised. *)
Definition select_rules (p : params) (pol : Policy)
  : (msg + list Rule) * list call :=
  match Py.nonempty (search p) with
  | Some text =>
      (inr (search_rule pol text), [SearchRule (policy_name pol) text])
  | None =>
      match Py.nonempty (rule_range p) with
      | Some r =>
          match parse_range r with
          | Some (s, e) =>
              (inr (Py.slice (fw_ipv4_nat_rules pol) (s - 1) e),
               [NatRules (policy_name pol)])
          | None => (inl (range_error r), [])
          end
      | None => (inr (fw_ipv4_nat_rules pol), [NatRules (policy_name pol)])
      end
  end.

(** The ['pos'] key of a returned record, when it has one. *)
Definition position (o : rule_out) : option nat :=
  match o with
  | Compact _ _ pos => pos
  | AsYaml _ => None
  end.

(** [{'name': rule.name, 'type': rule.typeof}] *)
Definition compact (rule : Rule) : rule_out :=
  Compact (name rule) (typeof rule) None.

(** [{'name': rule.name, 'type': rule.typeof, 'pos': num}] *)
Definition compact_at (nr : nat * Rule) : rule_out :=
  Compact (name (snd nr)) (typeof (snd nr)) (Some (fst nr)).

(** Lines 305-315. *)
Definition render (p : params) (result : list Rule) : list rule_out :=
  match as_yaml p with
  | Some true =>
      map (fun rule => AsYaml (to_yaml rule (expand p)))
          (List.filter is_nat_rule result)
  | _ =>
      if Py.truthy (search p) || Py.truthy (rule_range p) then
        map compact (List.filter is_nat_rule result)
      else
        map compact_at (Py.enumerate 1 result)
  end.

Definition exec_module (p : params) : outcome results * list call :=
  match invalid_expand p with
  | Some attr =>
      (Failed [Lit "Invalid expandable attribute: "; Arg attr;
               Lit " provided. Valid options are: "; ArgTuple expands], [])
  | None =>
      let found := search_by_type p in
      let log := [SearchByType (filter p)] in
      match found with
      | [] =>
          (Failed [Lit "Policy specified could not be found: "; Arg (filter p)],
           log)
      | [pol] =>
          match select_rules p pol with
          | (inl err, calls) => (Failed err, log ++ calls)
          | (inr result, calls) =>
              (Returned [{| policy := policy_name pol;
                            rules := render p result |}],
               log ++ calls)
          end
      | _ :: _ :: _ =>
          (Failed [Lit "Multiple policies found with the given search filter: ";
                   ArgList (map policy_name found);
                   Lit " Use exact_match or case_sensitive to narrow the search"],
           log)
      end
  end.

End Handler.

Arguments Compact {Yaml} rname rtype pos.
Arguments AsYaml {Yaml} y.
Arguments position {Yaml} o.
Arguments compact {Yaml} rule.
Arguments compact_at {Yaml} nr.

End NatRuleFacts.

(** ** [network_element_facts.py] *)

Module NetworkElementFacts.

(** An element as the module reads it: [element.name], [element.typeof]. *)
Record Element : Type := {
  name : string;
  typeof : string
}.

Record params : Type := {
  element : option string;
  filter : option string;
  expand : list string
}.

Inductive call : Type :=
| SearchByType (entry_point : string)
| SearchByContext.

Section Handler.

(** [ELEMENT_TYPES.get(key)['type']]: the table is built in [smc_util],
    [None] when the key is not in it. *)
Variable ELEMENT_TYPES : string -> option string.

(** [self.search_by_type] and [self.search_by_context], of the module base
    class: what the server returns. *)
Variable search_by_type : string -> params -> list Element.
Variable search_by_context : params -> list Element.

(** [element_dict_from_obj(element, ELEMENT_TYPES, expand)], of [smc_util]. *)
Variable Expanded : Type.
Variable element_dict_from_obj : Element -> list string -> Expanded.

Inductive element_out : Type :=
| Terse (ename etype : string)
| Full (e : Expanded).

(** [self.results['ansible_facts']['elements']] *)
Definition results : Type := list element_out.

Definition invalid_expand (p : params) : option string :=
  find (fun attr => negb (Py.contains ["group"] attr)) (expand p).

Definition render (p : params) (result : list Element) : results :=
  if Py.truthy (filter p) then
    map (fun e => Full (element_dict_from_obj e (expand p))) result
  else
    map (fun e => Terse (name e) (typeof e)) result.

Definition exec_module (p : params) : outcome results * list call :=
  match invalid_expand p with
  | Some attr =>
      (Failed [Lit "Invalid expandable attribute: "; Arg attr;
               Lit " provided. Valid options are: group"], [])
  | None =>
      match Py.nonempty (element p) with
      | Some key =>
          match ELEMENT_TYPES key with
          | Some entry =>
              (Returned (render p (search_by_type entry p)),
               [SearchByType entry])
          | None =>
              (Crashed [Lit "TypeError: 'NoneType' object is not subscriptable"],
               [])
          end
      | None =>
          (Returned (render p (search_by_context p)), [SearchByContext])
      end
  end.

End Handler.

End NetworkElementFacts.

(** ** [route_vpn.py] *)

Module RouteVPN.

(** *** Module parameters *)

(** Values of an external endpoint dict. *)
Inductive scalar : Type :=
| SStr (s : string)
| SBool (b : bool).

Definition str (v : scalar) : string :=
  match v with
  | SStr s => s
  | SBool true => "True"
  | SBool false => "False"
  end.

(** [str(x)] for a value that may be [None]. *)
Definition str_opt (x : option string) : string :=
  match x with
  | Some s => s
  | None => "None"
  end.

(** A Python dict with [str] keys, in insertion order. *)
Definition dict (V : Type) : Type := list (string * V).

Definition dict_has {V : Type} (d : dict V) (key : string) : bool :=
  existsb (fun kv => fst kv =? key) d.

Definition dict_get {V : Type} (d : dict V) (key : string) : option V :=
  option_map snd (find (fun kv => fst kv =? key) d).

(** [d.pop(key)], the dict that is left. *)
Definition dict_pop {V : Type} (d : dict V) (key : string) : dict V :=
  List.filter (fun kv => negb (fst kv =? key)) d.

(** [d.update(key=v)] *)
Definition dict_update {V : Type} (d : dict V) (key : string) (v : V) : dict V :=
  if dict_has d key
  then map (fun kv => if fst kv =? key then (key, v) else kv) d
  else d ++ [(key, v)].

(** One entry of [remote_gw['external_endpoint']]. *)
Definition endpoint : Type := dict scalar.

(** [remote_gw['vpn_site']]: the ['name'] key, and every other key, an
    element type with the list of element names. *)
Record vpn_site : Type := {
  site_name : option string;
  site_types : dict (list string)
}.

(** [local_gw] and [remote_gw].  A field is [None] when the dict has no
    such key; the scalar values are the [str] of the documentation (a
    number given in YAML stands as its [str]). *)
Record gateway : Type := {
  gw_name : option string;
  gw_tunnel_interface : option string;
  gw_interface_id : option string;
  gw_address : option string;
  gw_type : option string;
  gw_preshared_key : option string;
  gw_external_endpoint : option (list endpoint);
  gw_vpn_site : option vpn_site
}.

Inductive state_choice : Type := present | absent.

(** [module_args], after [setattr], with [self.check_mode]. *)
Record params : Type := {
  name : string;
  type : string;
  enabled : option bool;
  local_gw : option gateway;
  remote_gw : option gateway;
  vpn_profile_name : option string;
  tags : option (list string);
  state : state_choice;
  preshared_key : option string;
  check_mode : bool
}.

(** *** Objects of the SMC server, as the client library presents them *)

Record InternalEndpoint : Type := {
  ie_engine : string;
  ie_address : string;
  ie_enabled : bool
}.

Record Interface : Type := {
  if_interface_id : string;
  addresses : list string
}.

Record Engine : Type := {
  engine_name : string;
  tunnel_interface : list string;      (* [interface_id] of each one *)
  interface : list Interface;
  internal_endpoint : list InternalEndpoint
}.

Record Element : Type := {
  el_typeof : string;
  el_name : string;
  el_href : string
}.

(** The keyword arguments of [ExternalGateway.update_or_create]. *)
Record external_gateway : Type := {
  eg_name : string;
  eg_vpn_site : option (string * list string);   (* name, site_element *)
  eg_external_endpoint : list endpoint
}.

Inductive gateway_href : Type :=
| InternalGatewayOf (engine : string)
| ExternalGatewayOf (gw : string).

Record TunnelEndpoint : Type := {
  gateway_ref : gateway_href;
  tunnel_interface_ref : option string
}.

(** The keyword arguments of [RouteVPN.create_ipsec_tunnel]. *)
Record vpn_args : Type := {
  vpn_name : string;
  local_endpoint : TunnelEndpoint;
  remote_endpoint : TunnelEndpoint;
  vpn_preshared_key : option string;
  vpn_profile : option string
}.

(** A Route VPN element; [rbvpn.data.data] is this record. *)
Record RouteVPNElement : Type := {
  rv_name : string;
  rv_enabled : bool;
  rv_definition : vpn_args
}.

(** Calls on the SMC client.  The first seven read, the last six write. *)
Inductive call : Type :=
| FetchElement (vpn : string)
| EngineGet (engine : string)
| TunnelInterfaces (engine : string)
| InterfaceGet (engine : string) (interface_id : option string)
| InternalEndpointGetExact (engine : string) (address : string)
| ElementLookup (typeof : string) (ename : string)
| InternalGateway (engine : string)
| Disable (vpn : string)
| Enable (vpn : string)
| Delete (vpn : string)
| EndpointUpdate (engine : string) (address : string)
| ExternalGatewayUpdateOrCreate (definition : external_gateway)
| CreateIpsecTunnel (args : vpn_args).

Definition mutating (c : call) : bool :=
  match c with
  | Disable _ | Enable _ | Delete _ | EndpointUpdate _ _
  | ExternalGatewayUpdateOrCreate _ | CreateIpsecTunnel _ => true
  | _ => false
  end.

Definition operation (c : call) : string * string :=
  match c with
  | FetchElement n => ("fetch_element", n)
  | EngineGet n => ("Engine.get", n)
  | TunnelInterfaces n => ("engine.tunnel_interface", n)
  | InterfaceGet _ id => ("engine.interface.get", str_opt id)
  | InternalEndpointGetExact _ a => ("internal_endpoint.get_exact", a)
  | ElementLookup _ n => ("Cache.add", n)
  | InternalGateway n => ("engine.vpn.internal_gateway", n)
  | Disable n => ("RouteVPN.disable", n)
  | Enable n => ("RouteVPN.enable", n)
  | Delete n => ("RouteVPN.delete", n)
  | EndpointUpdate _ a => ("InternalEndpoint.update", a)
  | ExternalGatewayUpdateOrCreate d => ("ExternalGateway.update_or_create", eg_name d)
  | CreateIpsecTunnel a => ("RouteVPN.create_ipsec_tunnel", vpn_name a)
  end.

(** The configuration held by the server, and [rejects]: the writes the
    server answers with an error, which the library raises as
    [SMCException]. *)
Record smc : Type := {
  route_vpns : list RouteVPNElement;
  engines : list Engine;
  external_gateways : list external_gateway;
  elements : list Element;
  rejects : call -> bool
}.

(** *** The module's effects: a log of calls, the server, and exceptions *)

Inductive exn : Type :=
| ModuleFail (m : msg)        (* [self.fail]: the module exits *)
| SMCException (m : msg)
| PyError (m : msg).          (* [TypeError], [KeyError], [AttributeError] *)

Definition M (A : Type) : Type := smc -> (exn + A) * smc * list call.

Definition ret {A : Type} (a : A) : M A := fun s => (inr a, s, []).

Definition bind {A B : Type} (m : M A) (f : A -> M B) : M B :=
  fun s =>
    match m s with
    | (inl e, s1, l1) => (inl e, s1, l1)
    | (inr a, s1, l1) =>
        match f a s1 with
        | (r, s2, l2) => (r, s2, l1 ++ l2)
        end
    end.

Notation "x <- m ;; k" := (bind m (fun x => k))
  (at level 61, m at next level, right associativity).
Notation "m ;;; k" := (bind m (fun _ => k))
  (at level 61, right associativity).

Definition raise {A : Type} (e : exn) : M A := fun s => (inl e, s, []).

(** Modelled from the spec: [self.fail] is [ForcepointModuleBase.fail],
    which is not among the sources; "all error paths terminate the module
    invocation". *)
Definition fail {A : Type} (m : msg) : M A := raise (ModuleFail m).

(** A read: the call is logged and answered from the server. *)
Definition read {A : Type} (c : call) (answer : smc -> A) : M A :=
  fun s => (inr (answer s), s, [c]).

(** A write: the call is logged; the server rejects it, or applies it
    and answers. *)
Definition write_with {A : Type} (c : call) (answer : smc -> A)
    (effect : smc -> smc) : M A :=
  fun s =>
    if rejects s c
    then (inl (SMCException [LibText (fst (operation c)) (snd (operation c))]),
          s, [c])
    else (inr (answer s), effect s, [c]).

Definition write (c : call) (effect : smc -> smc) : M unit :=
  write_with c (fun _ => tt) effect.

(** [try: body except SMCException as err: handler] *)
Definition try_except {A : Type} (body : M A) (handler : msg -> M A) : M A :=
  fun s =>
    match body s with
    | (inl (SMCException err), s1, l1) =>
        match handler err s1 with
        | (r, s2, l2) => (r, s2, l1 ++ l2)
        end
    | other => other
    end.

(** *** The client library on the server's configuration *)

Definition find_vpn (n : string) (s : smc) : option RouteVPNElement :=
  find (fun v => rv_name v =? n) (route_vpns s).

Definition find_engine (n : string) (s : smc) : option Engine :=
  find (fun e => engine_name e =? n) (engines s).

Definition find_endpoint (engine address : string) (s : smc)
  : option InternalEndpoint :=
  match find_engine engine s with
  | Some e => find (fun ep => ie_address ep =? address) (internal_endpoint e)
  | None => None
  end.

Definition find_element (typeof ename : string) (s : smc) : option Element :=
  find (fun el => (el_typeof el =? typeof) && (el_name el =? ename))
       (elements s).

Definition find_external_gateway (n : string) (s : smc)
  : option external_gateway :=
  find (fun g => eg_name g =? n) (external_gateways s).

Definition with_enabled (b : bool) (v : RouteVPNElement) : RouteVPNElement :=
  {| rv_name := rv_name v; rv_enabled := b; rv_definition := rv_definition v |}.

Definition with_route_vpns (vpns : list RouteVPNElement) (s : smc) : smc :=
  {| route_vpns := vpns; engines := engines s;
     external_gateways := external_gateways s; elements := elements s;
     rejects := rejects s |}.

Definition set_enabled (n : string) (b : bool) (s : smc) : smc :=
  with_route_vpns
    (map (fun v => if rv_name v =? n then with_enabled b v else v)
         (route_vpns s)) s.

Definition delete_vpn (n : string) (s : smc) : smc :=
  with_route_vpns (List.filter (fun v => negb (rv_name v =? n)) (route_vpns s)) s.

(** [create_ipsec_tunnel] leaves [enabled] at the library's default. *)
Definition new_vpn (args : vpn_args) : RouteVPNElement :=
  {| rv_name := vpn_name args; rv_enabled := true; rv_definition := args |}.

Definition add_vpn (args : vpn_args) (s : smc) : smc :=
  with_route_vpns (route_vpns s ++ [new_vpn args]) s.

Definition enable_endpoint (engine address : string) (s : smc) : smc :=
  {| route_vpns := route_vpns s;
     engines :=
       map (fun e =>
              if engine_name e =? engine then
                {| engine_name := engine_name e;
                   tunnel_interface := tunnel_interface e;
                   interface := interface e;
                   internal_endpoint :=
                     map (fun ep =>
                            if ie_address ep =? address
                            then {| ie_engine := ie_engine ep;
                                    ie_address := ie_address ep;
                                    ie_enabled := true |}
                            else ep)
                         (internal_endpoint e) |}
              else e)
           (engines s);
     external_gateways := external_gateways s; elements := elements s;
     rejects := rejects s |}.

Definition scalar_eq_dec (a b : scalar) : {a = b} + {a <> b}.
Proof. decide equality; [apply string_dec | apply bool_dec]. Defined.

Definition external_gateway_eq_dec (a b : external_gateway)
  : {a = b} + {a <> b}.
Proof.
  decide equality.
  - repeat (apply list_eq_dec; intros); decide equality;
      first [apply scalar_eq_dec | apply string_dec].
  - decide equality. decide equality;
      first [apply (list_eq_dec string_dec) | apply string_dec].
  - apply string_dec.
Defined.

(** [(updated, created)] of [ExternalGateway.update_or_create]: the
    gateway is created when no gateway has the name, and updated when the
    stored definition differs. *)
Definition update_or_create_status (d : external_gateway) (s : smc)
  : bool * bool :=
  match find_external_gateway (eg_name d) s with
  | None => (false, true)
  | Some old => (if external_gateway_eq_dec old d then false else true, false)
  end.

Definition put_external_gateway (d : external_gateway) (s : smc) : smc :=
  {| route_vpns := route_vpns s; engines := engines s;
     external_gateways :=
       match find_external_gateway (eg_name d) s with
       | None => external_gateways s ++ [d]
       | Some _ =>
           map (fun g => if eg_name g =? eg_name d then d else g)
               (external_gateways s)
       end;
     elements := elements s; rejects := rejects s |}.

(** Modelled from the spec: [self.fetch_element(RouteVPN)] is a method of
    [ForcepointModuleBase], which is not among the sources; the reconciler
    is "applied to existing-or-absent Route VPN object", found by the
    module's [name].  [rbvpn], when there is one, is thus the element named
    [self.name], and its methods are logged under that name. *)
Definition fetch_element (n : string) : M (option RouteVPNElement) :=
  read (FetchElement n) (find_vpn n).

(** Modelled from the spec: [Cache] is a class of [smc_util], which is not
    among the sources; "a name->object cache that records any unresolvable
    names", with "per-invocation memoization". *)
Record Cache : Type := {
  cache : dict (list Element);
  missing : list (string * scalar)
}.

Definition empty_cache : Cache := {| cache := []; missing := [] |}.

Definition cache_get_type (c : Cache) (typeof : string) : list Element :=
  match dict_get (cache c) typeof with
  | Some els => els
  | None => []
  end.

Definition cache_get (c : Cache) (typeof : string) (n : scalar)
  : option Element :=
  match n with
  | SStr s => find (fun el => el_name el =? s) (cache_get_type c typeof)
  | SBool _ => None
  end.

Definition cache_add_entry (c : Cache) (typeof : string) (n : scalar)
  : M Cache :=
  match cache_get c typeof n with
  | Some _ => ret c
  | None =>
      found <- read (ElementLookup typeof (str n))
                    (fun s => match n with
                              | SStr x => find_element typeof x s
                              | SBool _ => None
                              end) ;;
      match found with
      | Some el =>
          ret {| cache := dict_update (cache c) typeof
                            (cache_get_type c typeof ++ [el]);
                 missing := missing c |}
      | None =>
          ret {| cache := cache c; missing := missing c ++ [(typeof, n)] |}
      end
  end.

Fixpoint cache_add_names (c : Cache) (typeof : string) (names : list scalar)
  : M Cache :=
  match names with
  | [] => ret c
  | n :: rest =>
      c1 <- cache_add_entry c typeof n ;;
      cache_add_names c1 typeof rest
  end.

Fixpoint cache_add (c : Cache) (entries : dict (list scalar)) : M Cache :=
  match entries with
  | [] => ret c
  | (typeof, names) :: rest =>
      c1 <- cache_add_names c typeof names ;;
      cache_add c1 rest
  end.

Definition missing_chunk (c : Cache) : chunk :=
  ArgMissing (map (fun e => (fst e, str (snd e))) (missing c)).

(** *** The module *)

Inductive state_value : Type :=
| StateInit                              (* the [[]] of [__init__] *)
| StateData (data : RouteVPNElement).    (* [rbvpn.data.data] *)

(** [self.results] *)
Record results : Type := {
  changed : bool;
  vpn_state : state_value
}.

Definition initial_results : results :=
  {| changed := false; vpn_state := StateInit |}.

Definition get_managed_gateway (gw : option gateway) : M Engine :=
  match gw with
  | None =>
      raise (PyError [Lit "TypeError: argument of type 'NoneType' is not iterable"])
  | Some gw =>
      match gw_name gw, gw_tunnel_interface gw, gw_interface_id gw with
      | Some n, Some _, Some _ =>
          managed_gw <- read (EngineGet n) (find_engine n) ;;
          match managed_gw with
          | Some engine => ret engine
          | None =>
              fail [Lit "The specified managed gateway specified does not exist: ";
                    Arg n]
          end
      | _, _, _ =>
          fail [Lit "Managed gateway requires name, interface_id and tunnel_interface fields"]
      end
  end.

Definition get_tunnel_interface (engine : Engine) (interface_id : option string)
  : M string :=
  interfaces <- read (TunnelInterfaces (engine_name engine))
                     (fun _ => tunnel_interface engine) ;;
  match find (fun i => i =? str_opt interface_id) interfaces with
  | Some tunnel => ret tunnel
  | None =>
      fail [Lit "Cannot find specified tunnel interface: ";
            Arg (str_opt interface_id);
            Lit " for specified gateway "; Arg (engine_name engine)]
  end.

(** [engine.interface.get(interface_id)], which raises when the engine has
    no such interface. *)
Definition interface_get (engine : Engine) (interface_id : option string)
  : M Interface :=
  found <- read (InterfaceGet (engine_name engine) interface_id)
                (fun _ => match interface_id with
                          | Some id =>
                              find (fun i => if_interface_id i =? id)
                                   (interface engine)
                          | None => None
                          end) ;;
  match found with
  | Some i => ret i
  | None =>
      raise (SMCException [LibText "engine.interface.get" (str_opt interface_id)])
  end.

Definition get_exact (engine : Engine) (address : string)
  : M (option InternalEndpoint) :=
  read (InternalEndpointGetExact (engine_name engine) address)
       (find_endpoint (engine_name engine) address).

(** The loop over [interface.addresses]. *)
Fixpoint endpoints_of_addresses (engine : Engine) (addrs : list string)
    (endpoints : list InternalEndpoint) : M (list InternalEndpoint) :=
  match addrs with
  | [] => ret endpoints
  | addr :: rest =>
      found <- get_exact engine addr ;;
      match found with
      | Some _ =>
          again <- get_exact engine addr ;;
          endpoints_of_addresses engine rest
            (endpoints ++ match again with Some ep => [ep] | None => [] end)
      | None => endpoints_of_addresses engine rest endpoints
      end
  end.

Definition get_ipsec_endpoint (engine : Engine) (interface_id : option string)
    (address : option string) : M (list InternalEndpoint) :=
  iface <- try_except (interface_get engine interface_id)
             (fun e => fail (Lit "Fetch IPSEC interface for endpoint failed: " :: e)) ;;
  endpoints <-
    match Py.nonempty address with
    | Some a =>
        ep <- get_exact engine a ;;
        ret match ep with Some ep => [ep] | None => [] end
    | None => endpoints_of_addresses engine (addresses iface) []
    end ;;
  match endpoints with
  | [] =>
      fail [Lit "No IPSEC endpoint interfaces found. The specified interface ID was: ";
            Arg (str_opt interface_id); Lit " and address: ";
            Arg (str_opt address)]
  | _ :: _ => ret endpoints
  end.

Fixpoint update_ipsec_listener (internal_endpoints : list InternalEndpoint)
  : M bool :=
  match internal_endpoints with
  | [] => ret false
  | ep :: rest =>
      if ie_enabled ep then update_ipsec_listener rest
      else
        write (EndpointUpdate (ie_engine ep) (ie_address ep))
              (enable_endpoint (ie_engine ep) (ie_address ep)) ;;;
        update_ipsec_listener rest ;;;
        ret true
  end.

(** Lines 325-335: the first loop over the external endpoints. *)
Fixpoint connection_types (eps : list endpoint) : M (list scalar) :=
  match eps with
  | [] => ret []
  | ep :: rest =>
      if negb (dict_has ep "name") || negb (dict_has ep "address") then
        fail [Lit "An external endpoint must have at least a name and an address definition."]
      else
        match dict_get ep "connection_type" with
        | None =>
            fail [Lit "You must provide the connection_type parameter when creating an external endpoint"]
        | Some ctype =>
            ctypes <- connection_types rest ;;
            ret (ctype :: ctypes)
        end
  end.

(** Lines 359-363: the second loop over the external endpoints. *)
Fixpoint with_connection_type_ref (c : Cache) (eps : list endpoint)
  : M (list endpoint) :=
  match eps with
  | [] => ret []
  | ep :: rest =>
      match dict_get ep "connection_type" with
      | None => raise (PyError [Lit "KeyError: 'connection_type'"])
      | Some ctype =>
          match cache_get c "connection_type" ctype with
          | None =>
              raise (PyError [Lit "AttributeError: 'NoneType' object has no attribute 'href'"])
          | Some el =>
              done <- with_connection_type_ref c rest ;;
              ret (dict_update (dict_pop ep "connection_type")
                               "connection_type_ref" (SStr (el_href el))
                   :: done)
          end
      end
  end.

Definition missing_field (field : string) : msg :=
  [Lit "Missing required field for the external endpoint configuration: ";
   Arg field].

(** Lines 313-364: the external gateway branch. *)
Definition resolve_external_gateway (rg : gateway) : M external_gateway :=
  match gw_name rg with
  | None => fail (missing_field "name")
  | Some gname =>
  match gw_preshared_key rg with
  | None => fail (missing_field "preshared_key")
  | Some _ =>
  match gw_external_endpoint rg with
  | None => fail (missing_field "external_endpoint")
  | Some eps =>
      ctypes <- connection_types eps ;;
      c <- cache_add empty_cache [("connection_type", ctypes)] ;;
      match missing c with
      | _ :: _ => fail [missing_chunk c]
      | [] =>
          site <-
            match gw_vpn_site rg with
            | None => ret (c, None)
            | Some site =>
                match Py.nonempty (site_name site) with
                | None => fail [Lit "A VPN site requires a name to continue"]
                | Some sname =>
                    c1 <- cache_add c
                            (map (fun e => (fst e, map SStr (snd e)))
                                 (site_types site)) ;;
                    match missing c1 with
                    | _ :: _ =>
                        fail [Lit "Could not find the specified elements for the VPN site configuration: ";
                              missing_chunk c1]
                    | [] =>
                        ret (c1,
                             Some (sname,
                                   flat_map
                                     (fun ty => map el_href (cache_get_type c1 ty))
                                     (map fst (site_types site))))
                    end
                end
            end ;;
          external_endpoint <- with_connection_type_ref (fst site) eps ;;
          ret {| eg_name := gname;
                 eg_vpn_site := snd site;
                 eg_external_endpoint := external_endpoint |}
      end
  end end end.

(** What lines 298-364 leave in the local variables. *)
Inductive remote_side : Type :=
| Managed (remote_engine : Engine) (remote_tunnel_interface : string)
          (remote_internal_endpoint : list InternalEndpoint)
| External (definition : external_gateway).

Record resolution : Type := {
  local_engine : Engine;
  local_tunnel_interface : string;
  local_internal_endpoint : list InternalEndpoint;
  remote : remote_side
}.

(** [self.remote_gw.get('type', None) == 'external_gateway'] *)
Definition is_external (rg : gateway) : bool :=
  match gw_type rg with
  | Some t => t =? "external_gateway"
  | None => false
  end.

Definition no_attribute_get : msg :=
  [Lit "AttributeError: 'NoneType' object has no attribute 'get'"].

(** Lines 298-311 for one managed gateway. *)
Definition resolve_managed (gw : option gateway)
  : M (Engine * string * list InternalEndpoint) :=
  engine <- get_managed_gateway gw ;;
  match gw with
  | None => raise (PyError no_attribute_get)
  | Some g =>
      tunnel <- get_tunnel_interface engine (gw_tunnel_interface g) ;;
      endpoints <- get_ipsec_endpoint engine (gw_interface_id g) (gw_address g) ;;
      ret (engine, tunnel, endpoints)
  end.

(** Lines 298-364. *)
Definition resolve (p : params) : M resolution :=
  loc <- resolve_managed (local_gw p) ;;
  match remote_gw p with
  | None => raise (PyError no_attribute_get)
  | Some rg =>
      rem <-
        (if is_external rg then
           eg <- resolve_external_gateway rg ;;
           ret (External eg)
         else
           r <- resolve_managed (remote_gw p) ;;
           ret (Managed (fst (fst r)) (snd (fst r)) (snd r))) ;;
      ret {| local_engine := fst (fst loc);
             local_tunnel_interface := snd (fst loc);
             local_internal_endpoint := snd loc;
             remote := rem |}
  end.

(** [rbvpn and self.enabled is not None and
     (rbvpn.enabled and not self.enabled)] *)
Definition disable_requested (p : params) (rbvpn : option RouteVPNElement)
  : bool :=
  match rbvpn, enabled p with
  | Some v, Some e => rv_enabled v && negb e
  | _, _ => false
  end.

(** [rbvpn and self.enabled is not None and
     (not rbvpn.enabled and self.enabled)] *)
Definition enable_requested (p : params) (rbvpn : option RouteVPNElement)
  : bool :=
  match rbvpn, enabled p with
  | Some v, Some e => negb (rv_enabled v) && e
  | _, _ => false
  end.

Definition create_ipsec_endpoint (gw : gateway_href)
    (tunnel : option string) : TunnelEndpoint :=
  {| gateway_ref := gw; tunnel_interface_ref := tunnel |}.

Definition update_or_create (d : external_gateway) : M (bool * bool) :=
  write_with (ExternalGatewayUpdateOrCreate d)
             (update_or_create_status d) (put_external_gateway d).

(** Lines 374-395 and 405-406: the two tunnel endpoints, with the IPSEC
    listeners enabled and the external gateway written; [changed] so far,
    and the preshared key for the VPN.  [is_external] is the test that
    chose the branch of [resolve], on the same unchanged key, so that the
    branch taken there is the branch taken here. *)
Definition tunnel_endpoints (p : params) (r : resolution)
  : M (TunnelEndpoint * TunnelEndpoint * bool * option string) :=
  gw_local <- read (InternalGateway (engine_name (local_engine r)))
                   (fun _ => InternalGatewayOf (engine_name (local_engine r))) ;;
  let local_gateway :=
    create_ipsec_endpoint gw_local (Some (local_tunnel_interface r)) in
  changed1 <- update_ipsec_listener (local_internal_endpoint r) ;;
  match remote r with
  | Managed remote_engine remote_tunnel_interface remote_internal_endpoint =>
      gw_remote <- read (InternalGateway (engine_name remote_engine))
                        (fun _ => InternalGatewayOf (engine_name remote_engine)) ;;
      changed2 <- update_ipsec_listener remote_internal_endpoint ;;
      ret (local_gateway,
           create_ipsec_endpoint gw_remote (Some remote_tunnel_interface),
           changed1 || changed2, preshared_key p)
  | External definition =>
      status <- update_or_create definition ;;
      match remote_gw p with
      | Some rg =>
          match gw_preshared_key rg with
          | Some key =>
              ret (local_gateway,
                   create_ipsec_endpoint
                     (ExternalGatewayOf (eg_name definition)) None,
                   changed1 || (fst status || snd status), Some key)
          | None => raise (PyError [Lit "KeyError: 'preshared_key'"])
          end
      | None => raise (PyError no_attribute_get)
      end
  end.

(** Lines 374-409: no Route VPN of that name exists. *)
Definition create_vpn (p : params) (r : resolution)
  : M (RouteVPNElement * bool) :=
  te <- tunnel_endpoints p r ;;
  let vpn :=
    {| vpn_name := name p;
       local_endpoint := fst (fst (fst te));
       remote_endpoint := snd (fst (fst te));
       vpn_preshared_key := snd te;
       vpn_profile := Py.nonempty (vpn_profile_name p) |} in
  rbvpn <- write_with (CreateIpsecTunnel vpn) (fun _ => new_vpn vpn)
                      (add_vpn vpn) ;;
  ret (rbvpn, true).

(** Lines 411-424: the Route VPN exists. *)
Definition update_vpn (p : params) (v : RouteVPNElement) (r : resolution)
  : M (RouteVPNElement * bool) :=
  en <-
    (if enable_requested p (Some v) then
       write (Enable (name p)) (set_enabled (name p) true) ;;;
       ret (with_enabled true v, true)
     else ret (v, false)) ;;
  match remote r with
  | External definition =>
      status <- update_or_create definition ;;
      ret (fst en, snd en || (fst status || snd status))
  | Managed _ _ _ => ret en
  end.

(** [self.fail(msg=str(err), exception=traceback.format_exc())] *)
Definition on_smc_exception {A : Type} (err : msg) : M A := fail err.

(** Lines 367-438 for [state == 'present']. *)
Definition apply_present (p : params) (rbvpn : option RouteVPNElement)
    (r : resolution) : M results :=
  try_except
    (if check_mode p then ret initial_results
     else
       done <- match rbvpn with
               | None => create_vpn p r
               | Some v => update_vpn p v r
               end ;;
       ret {| changed := snd done; vpn_state := StateData (fst done) |})
    on_smc_exception.

(** Lines 367-438 for [state == 'absent']. *)
Definition apply_absent (p : params) (rbvpn : option RouteVPNElement)
  : M results :=
  try_except
    (match rbvpn with
     | Some _ =>
         write (Delete (name p)) (delete_vpn (name p)) ;;;
         ret {| changed := true; vpn_state := StateInit |}
     | None => ret initial_results
     end)
    on_smc_exception.

Definition exec_module (p : params) : M results :=
  rbvpn <- fetch_element (name p) ;;
  match state p with
  | present =>
      if disable_requested p rbvpn then
        write (Disable (name p)) (set_enabled (name p) false) ;;;
        ret {| changed := true; vpn_state := StateInit |}
      else
        r <- resolve p ;;
        apply_present p rbvpn r
  | absent => apply_absent p rbvpn
  end.

(** One invocation on a server: how it ends, the server it leaves, and the
    calls it made. *)
Definition run (p : params) (s : smc) : outcome results * smc * list call :=
  match exec_module p s with
  | (inr r, s', calls) => (Returned r, s', calls)
  | (inl (ModuleFail m), s', calls) => (Failed m, s', calls)
  | (inl (SMCException m), s', calls) => (Crashed m, s', calls)
  | (inl (PyError m), s', calls) => (Crashed m, s', calls)
  end.

(** *** Judgements on a computation

    [respects I P m]: from every server [s], [m] leaves a server [s'] with
    [I s s'] and makes only calls that satisfy [P]. *)
Definition respects {A : Type} (I : smc -> smc -> Prop) (P : call -> Prop)
    (m : M A) : Prop :=
  forall s, match m s with (_, s', calls) => I s s' /\ Forall P calls end.

(** [m] returns or exits through [fail]: no exception escapes it. *)
Definition fails_softly {A : Type} (m : M A) : Prop :=
  forall s, match m s with
            | (inr _, _, _) | (inl (ModuleFail _), _, _) => True
            | _ => False
            end.

Definition reads_only (c : call) : Prop := mutating c = false.

(** Whatever [m] returns satisfies [Q]. *)
Definition returns {A : Type} (Q : A -> Prop) (m : M A) : Prop :=
  forall s a s' calls, m s = (inr a, s', calls) -> Q a.

(** The Route VPN elements of two servers are the same. *)
Definition same_vpns (s s' : smc) : Prop := route_vpns s' = route_vpns s.

(** The branch of [resolve] that a resolution comes from. *)
Definition branch_taken (rg : gateway) (r : resolution) : Prop :=
  match remote r with
  | Managed _ _ _ => is_external rg = false
  | External _ => is_external rg = true
  end.

End RouteVPN.

(** ** The specification's words *)

Module Spec.

(** "1-based inclusive range slice over the policy's ordered NAT rule
    list": the rules whose position [i], counted from 1, has
    [s <= i <= e]. *)
Definition positions {A : Type} (s e : Z) (l : list A) : list A :=
  map snd
      (List.filter
         (fun ir => ((s <=? Z.of_nat (fst ir)) && (Z.of_nat (fst ir) <=? e))%Z)
         (Py.enumerate 1 l)).

(** "require {name, preshared_key, external_endpoint}; each external
    endpoint entry requires {name, address, connection_type}": a remote
    gateway definition that misses one of them. *)
Definition incomplete_external_gateway (rg : RouteVPN.gateway) : Prop :=
  RouteVPN.gw_name rg = None
  \/ RouteVPN.gw_preshared_key rg = None
  \/ RouteVPN.gw_external_endpoint rg = None
  \/ exists eps ep,
       RouteVPN.gw_external_endpoint rg = Some eps
       /\ In ep eps
       /\ (RouteVPN.dict_has ep "name" = false
           \/ RouteVPN.dict_has ep "address" = false
           \/ RouteVPN.dict_has ep "connection_type" = false).

(** The messages of the validation of an external gateway definition. *)
Definition external_gateway_message (m : msg) : Prop :=
  (exists field,
      In field ["name"; "preshared_key"; "external_endpoint"]
      /\ m = RouteVPN.missing_field field)
  \/ m = [Lit "An external endpoint must have at least a name and an address definition."]
  \/ m = [Lit "You must provide the connection_type parameter when creating an external endpoint"].

(** "the preshared key bound into the created VPN object": the remote
    gateway's key for an external gateway, the module's otherwise. *)
Definition bound_preshared_key (p : RouteVPN.params) (rg : RouteVPN.gateway)
  : option string :=
  if RouteVPN.is_external rg then RouteVPN.gw_preshared_key rg
  else RouteVPN.preshared_key p.

(** A call that creates a Route VPN creates the one of the module's name,
    with that key. *)
Definition creates_with_key (p : RouteVPN.params) (rg : RouteVPN.gateway)
    (c : RouteVPN.call) : Prop :=
  match c with
  | RouteVPN.CreateIpsecTunnel args =>
      RouteVPN.vpn_name args = RouteVPN.name p
      /\ RouteVPN.vpn_preshared_key args = bound_preshared_key p rg
  | _ => True
  end.

End Spec.

(** ** Concrete policies, servers and invocations *)

Module Scenario.

Import NatRuleFacts.

Definition R (n : string) : Rule :=
  {| name := n; typeof := "fw_ipv4_nat_rule" |}.

Definition TestPolicy : Policy :=
  {| policy_name := "TestPolicy";
     fw_ipv4_nat_rules := [R "R1"; R "R2"; R "R3"];
     search_rule := fun _ => [] |}.

Definition one_policy (_ : params) : list Policy := [TestPolicy].

Definition to_yaml_name (r : Rule) (_ : list string) : string := name r.

Definition query (range : option string) (expanded : list string) : params :=
  {| filter := "TestPolicy"; expand := expanded; search := None;
     rule_range := range; as_yaml := None |}.

Definition nat_rule_facts (p : params)
  : outcome (results string) * list call :=
  exec_module Py.int_ascii string to_yaml_name one_policy p.

Definition element_types (key : string) : option string :=
  if key =? "host" then Some "host" else None.

Definition network_element_facts (p : NetworkElementFacts.params)
  : outcome (NetworkElementFacts.results string)
    * list NetworkElementFacts.call :=
  NetworkElementFacts.exec_module element_types (fun _ _ => [])
    (fun _ => []) string (fun e _ => NetworkElementFacts.name e) p.

Definition hosts (expanded : list string) : NetworkElementFacts.params :=
  {| NetworkElementFacts.element := Some "host";
     NetworkElementFacts.filter := None;
     NetworkElementFacts.expand := expanded |}.

(** The engines, gateways and Route VPN of the module's examples. *)

Definition engine (ename tunnel iface address : string) : RouteVPN.Engine :=
  {| RouteVPN.engine_name := ename;
     RouteVPN.tunnel_interface := [tunnel];
     RouteVPN.interface :=
       [{| RouteVPN.if_interface_id := iface;
           RouteVPN.addresses := [address] |}];
     RouteVPN.internal_endpoint :=
       [{| RouteVPN.ie_engine := ename; RouteVPN.ie_address := address;
           RouteVPN.ie_enabled := false |}] |}.

Definition managed (ename tunnel iface : string) : RouteVPN.gateway :=
  {| RouteVPN.gw_name := Some ename;
     RouteVPN.gw_tunnel_interface := Some tunnel;
     RouteVPN.gw_interface_id := Some iface;
     RouteVPN.gw_address := None;
     RouteVPN.gw_type := None;
     RouteVPN.gw_preshared_key := None;
     RouteVPN.gw_external_endpoint := None;
     RouteVPN.gw_vpn_site := None |}.

Definition extgw3 (key : option string) : RouteVPN.gateway :=
  {| RouteVPN.gw_name := Some "extgw3";
     RouteVPN.gw_tunnel_interface := None;
     RouteVPN.gw_interface_id := None;
     RouteVPN.gw_address := None;
     RouteVPN.gw_type := Some "external_gateway";
     RouteVPN.gw_preshared_key := key;
     RouteVPN.gw_external_endpoint :=
       Some [[("name", RouteVPN.SStr "extgw3 (33.33.33.41)");
              ("address", RouteVPN.SStr "33.33.33.41");
              ("enabled", RouteVPN.SBool true);
              ("connection_type", RouteVPN.SStr "Active 1")]];
     RouteVPN.gw_vpn_site := None |}.

Definition myrbvpn (is_enabled : bool) : RouteVPN.RouteVPNElement :=
  {| RouteVPN.rv_name := "myrbvpn";
     RouteVPN.rv_enabled := is_enabled;
     RouteVPN.rv_definition :=
       {| RouteVPN.vpn_name := "myrbvpn";
          RouteVPN.local_endpoint :=
            RouteVPN.create_ipsec_endpoint
              (RouteVPN.InternalGatewayOf "newcluster") (Some "1001");
          RouteVPN.remote_endpoint :=
            RouteVPN.create_ipsec_endpoint
              (RouteVPN.InternalGatewayOf "myfw") (Some "1000");
          RouteVPN.vpn_preshared_key := None;
          RouteVPN.vpn_profile := None |} |}.

(** A server that accepts every write. *)
Definition server (vpns : list RouteVPN.RouteVPNElement) : RouteVPN.smc :=
  {| RouteVPN.route_vpns := vpns;
     RouteVPN.engines :=
       [engine "newcluster" "1001" "1" "50.50.50.1";
        engine "myfw" "1000" "0" "60.60.60.1"];
     RouteVPN.external_gateways := [];
     RouteVPN.elements :=
       [{| RouteVPN.el_typeof := "connection_type";
           RouteVPN.el_name := "Active 1";
           RouteVPN.el_href := "http://smc/elements/connection_type/1" |}];
     RouteVPN.rejects := fun _ => false |}.

Definition invocation (st : RouteVPN.state_choice) (is_enabled : option bool)
    (remote : RouteVPN.gateway) (key : option string) (check : bool)
  : RouteVPN.params :=
  {| RouteVPN.name := "myrbvpn";
     RouteVPN.type := "ipsec";
     RouteVPN.enabled := is_enabled;
     RouteVPN.local_gw := Some (managed "newcluster" "1001" "1");
     RouteVPN.remote_gw := Some remote;
     RouteVPN.vpn_profile_name := None;
     RouteVPN.tags := None;
     RouteVPN.state := st;
     RouteVPN.preshared_key := key;
     RouteVPN.check_mode := check |}.

End Scenario.

(** ** More of the modules *)

Module Chars.

(** The number of occurrences of a character in a string. *)
Fixpoint count (c : ascii) (s : string) : nat :=
  match s with
  | EmptyString => 0
  | String x rest => (if Ascii.eqb x c then 1 else 0) + count c rest
  end.

(** [needle in hay] for two [str]. *)
Fixpoint occurs_in (needle hay : string) : bool :=
  String.prefix needle hay
  || match hay with
     | EmptyString => false
     | String _ rest => occurs_in needle rest
     end.

End Chars.

(** [to_yaml], lines 182-200: the view of one of the fields [sources],
    [destinations] and [services] of a rule. *)
Module RuleFields.

(** An element of a field: [entry.typeof] and [entry.name]. *)
Record Entry : Type := {
  typeof : string;
  name : string
}.

(** [getattr(rule, field)], as the loop reads it. *)
Record Field : Type := {
  is_any : bool;
  is_none : bool;
  all : list Entry;
  all_as_href : list string
}.

Inductive view : Type :=
| Any                                          (* [{'any': True}] *)
| NoneSet                                      (* [{'none': True}] *)
| Expanded (tmp : RouteVPN.dict (list string)) (* element type -> names *)
| Hrefs (hrefs : list string).

Definition engine_type : list string :=
  ["single_fw"; "single_layer2"; "single_ips"; "virtual_fw"; "fw_cluster";
   "master_engine"].

Definition element_type (e : Entry) : string :=
  if Py.contains engine_type (typeof e) then "engine"
  else if Chars.occurs_in "alias" (typeof e) then "alias"
  else typeof e.

(** [tmp.setdefault(key, []).append(value)] *)
Definition setdefault_append (tmp : RouteVPN.dict (list string))
    (key value : string) : RouteVPN.dict (list string) :=
  RouteVPN.dict_update tmp key
    (match RouteVPN.dict_get tmp key with
     | Some values => values
     | None => []
     end ++ [value]).

(** The loop of lines 190-197, from a [tmp] on. *)
Definition group_entries (entries : list Entry)
    (tmp : RouteVPN.dict (list string)) : RouteVPN.dict (list string) :=
  fold_left (fun acc e => setdefault_append acc (element_type e) (name e))
            entries tmp.

(** [expand and field in expand] *)
Definition expanded (expand : list string) (field : string) : bool :=
  match expand with
  | [] => false
  | _ :: _ => Py.contains expand field
  end.

Definition field_view (expand : list string) (field : string) (f : Field)
  : view :=
  if is_any f then Any
  else if is_none f then NoneSet
  else if expanded expand field then Expanded (group_entries (all f) [])
  else Hrefs (all_as_href f).

(** The names of the entries of an element type, in the order of the
    field. *)
Definition names_of (key : string) (entries : list Entry) : list string :=
  map name (List.filter (fun e => element_type e =? key) entries).

End RuleFields.

(** Projections and servers used to state more properties. *)
Module More.

(** The ['type'] key of a compact record. *)
Definition record_type {Yaml : Type} (o : NatRuleFacts.rule_out Yaml)
  : option string :=
  match o with
  | NatRuleFacts.Compact _ rtype _ => Some rtype
  | NatRuleFacts.AsYaml _ => None
  end.

(** The internal endpoints whose IPSEC listener is not yet enabled. *)
Definition pending (eps : list RouteVPN.InternalEndpoint)
  : list RouteVPN.InternalEndpoint :=
  List.filter (fun ep => negb (RouteVPN.ie_enabled ep)) eps.

Definition listener_calls (eps : list RouteVPN.InternalEndpoint)
  : list RouteVPN.call :=
  map (fun ep => RouteVPN.EndpointUpdate (RouteVPN.ie_engine ep)
                                         (RouteVPN.ie_address ep))
      (pending eps).

(** The server after the listener of each pending endpoint is enabled. *)
Definition enable_all (eps : list RouteVPN.InternalEndpoint)
    (s : RouteVPN.smc) : RouteVPN.smc :=
  fold_left (fun acc ep => RouteVPN.enable_endpoint (RouteVPN.ie_engine ep)
                                                    (RouteVPN.ie_address ep) acc)
            (pending eps) s.

(** The server of [Scenario.server], with the writes it rejects. *)
Definition strict_server (refused : RouteVPN.call -> bool)
    (vpns : list RouteVPN.RouteVPNElement) : RouteVPN.smc :=
  {| RouteVPN.route_vpns := vpns;
     RouteVPN.engines := RouteVPN.engines (Scenario.server vpns);
     RouteVPN.external_gateways := [];
     RouteVPN.elements := RouteVPN.elements (Scenario.server vpns);
     RouteVPN.rejects := refused |}.

Definition is_delete (c : RouteVPN.call) : bool :=
  match c with
  | RouteVPN.Delete _ => true
  | _ => false
  end.

(** The calls of an absent run: the fetch and the delete of a name. *)
Definition fetch_or_delete (n : string) (c : RouteVPN.call) : Prop :=
  c = RouteVPN.FetchElement n \/ c = RouteVPN.Delete n.

(** The server has no element of the type with the name. *)
Definition unknown (s : RouteVPN.smc) (typeof : string) (n : RouteVPN.scalar)
  : Prop :=
  match n with
  | RouteVPN.SStr x => RouteVPN.find_element typeof x s = None
  | RouteVPN.SBool _ => True
  end.

(** What is in the cache is on the server. *)
Definition sound (s : RouteVPN.smc) (c : RouteVPN.Cache) : Prop :=
  forall typeof x,
    RouteVPN.cache_get c typeof (RouteVPN.SStr x) <> None ->
    RouteVPN.find_element typeof x s <> None.

(** An external gateway whose endpoint has a connection type that the
    server does not know. *)
Definition extgw_with_connection_type (ctype : string) : RouteVPN.gateway :=
  {| RouteVPN.gw_name := Some "extgw3";
     RouteVPN.gw_tunnel_interface := None;
     RouteVPN.gw_interface_id := None;
     RouteVPN.gw_address := None;
     RouteVPN.gw_type := Some "external_gateway";
     RouteVPN.gw_preshared_key := Some "key";
     RouteVPN.gw_external_endpoint :=
       Some [[("name", RouteVPN.SStr "ep1");
              ("address", RouteVPN.SStr "33.33.33.41");
              ("connection_type", RouteVPN.SStr ctype)]];
     RouteVPN.gw_vpn_site := None |}.

Definition is_create (c : RouteVPN.call) : bool :=
  match c with
  | RouteVPN.CreateIpsecTunnel _ => true
  | _ => false
  end.

(** A policy with a rule that is not a NAT rule among its NAT rules. *)
Definition MixedPolicy : NatRuleFacts.Policy :=
  {| NatRuleFacts.policy_name := "Mixed";
     NatRuleFacts.fw_ipv4_nat_rules :=
       [Scenario.R "R1";
        {| NatRuleFacts.name := "Section"; NatRuleFacts.typeof := "rule_section" |};
        Scenario.R "R3"];
     NatRuleFacts.search_rule :=
       fun _ => [{| NatRuleFacts.name := "Access";
                    NatRuleFacts.typeof := "fw_ipv4_access_rule" |};
                 Scenario.R "R3"] |}.

Definition mixed_rule_facts (p : NatRuleFacts.params)
  : outcome (NatRuleFacts.results string) * list NatRuleFacts.call :=
  NatRuleFacts.exec_module Py.int_ascii string Scenario.to_yaml_name
    (fun _ => [MixedPolicy]) p.

Definition found_policies (n : nat) (_ : NatRuleFacts.params)
  : list NatRuleFacts.Policy :=
  repeat Scenario.TestPolicy n.

(** The same invocation, in or out of check mode. *)
Definition in_check_mode (b : bool) (p : RouteVPN.params) : RouteVPN.params :=
  {| RouteVPN.name := RouteVPN.name p;
     RouteVPN.type := RouteVPN.type p;
     RouteVPN.enabled := RouteVPN.enabled p;
     RouteVPN.local_gw := RouteVPN.local_gw p;
     RouteVPN.remote_gw := RouteVPN.remote_gw p;
     RouteVPN.vpn_profile_name := RouteVPN.vpn_profile_name p;
     RouteVPN.tags := RouteVPN.tags p;
     RouteVPN.state := RouteVPN.state p;
     RouteVPN.preshared_key := RouteVPN.preshared_key p;
     RouteVPN.check_mode := b |}.

(** A present invocation for Route VPN [myrbvpn] from a local gateway, to
    the managed gateway [myfw]. *)
Definition from_gateway (lg : RouteVPN.gateway) : RouteVPN.params :=
  {| RouteVPN.name := "myrbvpn";
     RouteVPN.type := "ipsec";
     RouteVPN.enabled := None;
     RouteVPN.local_gw := Some lg;
     RouteVPN.remote_gw := Some (Scenario.managed "myfw" "1000" "0");
     RouteVPN.vpn_profile_name := None;
     RouteVPN.tags := None;
     RouteVPN.state := RouteVPN.present;
     RouteVPN.preshared_key := None;
     RouteVPN.check_mode := false |}.

(** The endpoint of an address, when the engine has one. *)
Definition endpoint_at (engine : string) (s : RouteVPN.smc) (address : string)
  : list RouteVPN.InternalEndpoint :=
  match RouteVPN.find_endpoint engine address s with
  | Some ep => [ep]
  | None => []
  end.

(** No [TypeError], [KeyError] or [AttributeError] escapes [m]. *)
Definition no_python_error {A : Type} (m : RouteVPN.M A) : Prop :=
  forall s, match m s with
            | (inl (RouteVPN.PyError _), _, _) => False
            | _ => True
            end.

(** Every name of the list is in the cache under the type. *)
Definition resolved (c : RouteVPN.Cache) (typeof : string)
    (names : list RouteVPN.scalar) : Prop :=
  Forall (fun n => RouteVPN.cache_get c typeof n <> None) names.

(** A [sources] field with two engines, a host and an alias. *)
Definition sources_field : RuleFields.Field :=
  {| RuleFields.is_any := false;
     RuleFields.is_none := false;
     RuleFields.all :=
       [{| RuleFields.typeof := "single_fw"; RuleFields.name := "fw1" |};
        {| RuleFields.typeof := "host"; RuleFields.name := "h1" |};
        {| RuleFields.typeof := "fw_cluster"; RuleFields.name := "c1" |};
        {| RuleFields.typeof := "interface_nic_x_ip_alias";
           RuleFields.name := "$$ Interface ID 0.ip" |}];
     RuleFields.all_as_href := ["http://smc/1"; "http://smc/2"; "http://smc/3";
                                "http://smc/4"] |}.

Definition searching (text : option string) : NatRuleFacts.params :=
  {| NatRuleFacts.filter := "Mixed"; NatRuleFacts.expand := [];
     NatRuleFacts.search := text; NatRuleFacts.rule_range := None;
     NatRuleFacts.as_yaml := None |}.

End More.

(** * Properties *)

(** ** Python slices and 1-based positions *)

Lemma truthy_nonempty (o : option string) :
  Py.truthy o = match Py.nonempty o with Some _ => true | None => false end.
Proof. destruct o as [[|c rest]|]; reflexivity. Qed.

Lemma enumerate_window {A : Type} (l : list A) :
  forall (k : nat) (s e : Z),
    map snd
        (List.filter
           (fun ir => ((s <=? Z.of_nat (fst ir)) && (Z.of_nat (fst ir) <=? e))%Z)
           (Py.enumerate k l))
    = firstn (Z.to_nat (e + 1 - Z.max s (Z.of_nat k)))
             (skipn (Z.to_nat (s - Z.of_nat k)) l).
Proof.
  induction l as [|x rest IH]; intros k s e.
  - simpl. now rewrite skipn_nil, firstn_nil.
  - cbn [Py.enumerate List.filter fst].
    destruct (Z.leb_spec s (Z.of_nat k)) as [Hs|Hs];
      [destruct (Z.leb_spec (Z.of_nat k) e) as [He|He]|];
      cbn [andb map snd]; rewrite IH.
    + replace (Z.to_nat (s - Z.of_nat k)) with 0%nat by lia.
      replace (Z.to_nat (s - Z.of_nat (S k))) with 0%nat by lia.
      replace (Z.to_nat (e + 1 - Z.max s (Z.of_nat k)))
        with (S (Z.to_nat (e + 1 - Z.max s (Z.of_nat (S k))))) by lia.
      reflexivity.
    + replace (Z.to_nat (e + 1 - Z.max s (Z.of_nat (S k)))) with 0%nat by lia.
      replace (Z.to_nat (e + 1 - Z.max s (Z.of_nat k))) with 0%nat by lia.
      reflexivity.
    + replace (Z.to_nat (s - Z.of_nat k))
        with (S (Z.to_nat (s - Z.of_nat (S k)))) by lia.
      replace (Z.max s (Z.of_nat (S k))) with (Z.max s (Z.of_nat k)) by lia.
      reflexivity.
Qed.

(** For a start of at least 1 and an end that is not negative, the slice
    [l[s-1:e]] is the list of the elements in positions [s] to [e]. *)
Lemma slice_positions {A : Type} (l : list A) (s e : Z) :
  (1 <= s)%Z -> (0 <= e)%Z -> Py.slice l (s - 1) e = Spec.positions s e l.
Proof.
  intros Hs He. unfold Spec.positions. rewrite enumerate_window.
  unfold Py.slice, Py.adjust_index.
  destruct (Z.ltb_spec (s - 1) 0) as [?|_]; [lia|].
  destruct (Z.ltb_spec e 0) as [?|_]; [lia|].
  set (n := Z.of_nat (List.length l)).
  replace (Z.max s (Z.of_nat 1)) with s by lia.
  replace (s - Z.of_nat 1)%Z with (s - 1)%Z by lia.
  destruct (Z.le_gt_cases n (s - 1)) as [Hbig|Hin].
  - rewrite !(skipn_all2 l) by (subst n; lia).
    now rewrite !firstn_nil.
  - replace (Z.min (s - 1) n) with (s - 1)%Z by lia.
    destruct (Z.le_gt_cases e n) as [Hle|Hgt].
    + replace (Z.min e n) with e by lia.
      f_equal. lia.
    + replace (Z.min e n) with n by lia.
      rewrite !firstn_all2; [reflexivity| |];
        rewrite length_skipn; subst n; lia.
Qed.

(** A start beyond the end, or beyond the list, selects nothing. *)
Lemma slice_empty {A : Type} (l : list A) (s e : Z) :
  (0 <= e < s)%Z \/ (Z.of_nat (List.length l) < s)%Z ->
  Py.slice l (s - 1) e = [].
Proof.
  intros H. unfold Py.slice, Py.adjust_index.
  set (n := Z.of_nat (List.length l)).
  assert (Hn : (0 <= n)%Z) by (subst n; lia).
  destruct (Z.ltb_spec (s - 1) 0) as [Hneg|Hpos].
  - destruct H as [H|H]; lia.
  - destruct (Z.ltb_spec e 0) as [He|He].
    + destruct H as [H|H]; [lia|].
      rewrite skipn_all2 by (fold n; lia). apply firstn_nil.
    + destruct H as [H|H].
      * replace (Z.to_nat (Z.min e n - Z.min (s - 1) n)) with 0%nat by lia.
        reflexivity.
      * rewrite skipn_all2 by (fold n; lia). apply firstn_nil.
Qed.

(** An end at or beyond the length of the list selects up to the last
    element. *)
Lemma slice_to_the_end {A : Type} (l : list A) (s e : Z) :
  (1 <= s)%Z -> (Z.of_nat (List.length l) <= e)%Z ->
  Py.slice l (s - 1) e = skipn (Z.to_nat (s - 1)) l.
Proof.
  intros Hs He. unfold Py.slice, Py.adjust_index.
  set (n := Z.of_nat (List.length l)).
  assert (Hn : (0 <= n)%Z) by (subst n; lia).
  destruct (Z.ltb_spec (s - 1) 0) as [?|_]; [lia|].
  destruct (Z.ltb_spec e 0) as [?|_]; [lia|].
  destruct (Z.le_gt_cases n (s - 1)) as [Hbig|Hin].
  - rewrite !(skipn_all2 l) by (fold n; lia). apply firstn_nil.
  - replace (Z.min (s - 1) n) with (s - 1)%Z by lia.
    apply firstn_all2. rewrite length_skipn. fold n. lia.
Qed.

(** With a start of at least 1 and an end that is not negative, the slice
    [l[s-1:e]] skips [s - 1] elements and takes up to [e - (s - 1)]. *)
Lemma slice_firstn_skipn {A : Type} (l : list A) (s e : Z) :
  (1 <= s)%Z -> (0 <= e)%Z ->
  Py.slice l (s - 1) e
  = firstn (Z.to_nat (e - (s - 1))) (skipn (Z.to_nat (s - 1)) l).
Proof.
  intros Hs He. unfold Py.slice, Py.adjust_index.
  set (n := Z.of_nat (List.length l)).
  assert (Hn : (0 <= n)%Z) by (subst n; lia).
  destruct (Z.ltb_spec (s - 1) 0) as [?|_]; [lia|].
  destruct (Z.ltb_spec e 0) as [?|_]; [lia|].
  destruct (Z.le_gt_cases n (s - 1)) as [Hbig|Hin].
  - rewrite !(skipn_all2 l) by (fold n; lia). now rewrite !firstn_nil.
  - replace (Z.min (s - 1) n) with (s - 1)%Z by lia.
    destruct (Z.le_gt_cases e n) as [Hle|Hgt].
    + now replace (Z.min e n) with e by lia.
    + replace (Z.min e n) with n by lia.
      rewrite !firstn_all2; [reflexivity| |];
        rewrite length_skipn; fold n; lia.
Qed.

(** A slice holds elements of the list only. *)
Lemma Forall_slice {A : Type} (P : A -> Prop) (l : list A) (i j : Z) :
  Forall P l -> Forall P (Py.slice l i j).
Proof.
  intros H. unfold Py.slice.
  set (lo := Z.to_nat (Py.adjust_index (Z.of_nat (List.length l)) i)).
  set (len := Z.to_nat _).
  rewrite <- (firstn_skipn lo l) in H. apply Forall_app in H.
  destruct H as [_ H].
  rewrite <- (firstn_skipn len (skipn lo l)) in H. apply Forall_app in H.
  now destruct H.
Qed.

Lemma enumerate_combine {A : Type} (l : list A) :
  forall k, Py.enumerate k l = combine (seq k (List.length l)) l.
Proof.
  induction l as [|x rest IH]; intros k; simpl; [reflexivity|].
  now rewrite IH.
Qed.

(** [enumerate(l, start)] pairs the element of index [k] with
    [start + k]. *)
Lemma nth_error_enumerate {A : Type} (l : list A) :
  forall (start k : nat) (x : A),
    nth_error l k = Some x ->
    nth_error (Py.enumerate start l) k = Some ((start + k)%nat, x).
Proof.
  induction l as [|y rest IH]; intros start k x Hk.
  - destruct k; discriminate Hk.
  - destruct k as [|k]; cbn [Py.enumerate nth_error] in *.
    + inversion Hk. now rewrite Nat.add_0_r.
    + rewrite (IH (S start) k x Hk). f_equal. f_equal. lia.
Qed.

Lemma length_enumerate {A : Type} (l : list A) :
  forall start, List.length (Py.enumerate start l) = List.length l.
Proof.
  induction l as [|y rest IH]; intros start; simpl; [reflexivity|].
  now rewrite IH.
Qed.

(** ** The NAT rule query and the network element query *)

Section NatRuleFactsProperties.

Import NatRuleFacts.

Variable int : string -> option Z.
Variable Yaml : Type.
Variable to_yaml : Rule -> list string -> Yaml.
Variable search_by_type : params -> list Policy.

Local Abbreviation exec_module :=
  (NatRuleFacts.exec_module int Yaml to_yaml search_by_type).

Lemma filter_nat_rules (l : list Rule) :
  Forall (fun r => typeof r = "fw_ipv4_nat_rule") l ->
  List.filter is_nat_rule l = l.
Proof.
  induction 1 as [|r rest Hr _ IH]; simpl; [reflexivity|].
  unfold is_nat_rule at 1. rewrite Hr. simpl. now rewrite IH.
Qed.

Lemma Forall_positions {A : Type} (P : A -> Prop) (s e : Z) (l : list A) :
  Forall P l -> Forall P (Spec.positions s e l).
Proof.
  intros H. unfold Spec.positions. generalize 1%nat.
  induction H as [|x rest Hx _ IH]; intros k; simpl; [constructor|].
  destruct ((s <=? Z.of_nat k) && (Z.of_nat k <=? e))%Z; simpl; auto.
Qed.

(** The run of a query whose expand list is valid, whose filter finds one
    policy, whose search is empty and whose range parses. *)
Lemma exec_module_range (p : params) (pol : Policy) (r a b : string) (s e : Z) :
  invalid_expand p = None ->
  search_by_type p = [pol] ->
  Py.nonempty (search p) = None ->
  Py.nonempty (rule_range p) = Some r ->
  Py.split "-"%char r = [a; b] -> int a = Some s -> int b = Some e ->
  exec_module p
  = (Returned [{| policy := policy_name pol;
                  rules := render Yaml to_yaml p
                             (Py.slice (fw_ipv4_nat_rules pol) (s - 1) e) |}],
     [SearchByType (filter p); NatRules (policy_name pol)]).
Proof.
  intros Hexp Hpol Hsearch Hrange Hsplit Ha Hb.
  unfold NatRuleFacts.exec_module, select_rules, parse_range.
  now rewrite Hexp, Hpol, Hsearch, Hrange, Hsplit, Ha, Hb.
Qed.

(** The records of the range and search paths over the rules selected:
    the compact dict [{'name': ..., 'type': ...}], which has no position,
    or the YAML view when [as_yaml] is set. *)
Local Abbreviation unpositioned p selected :=
  (match as_yaml p with
   | Some true => map (fun rule => AsYaml (to_yaml rule (expand p))) selected
   | _ => map (fun rule => Compact (name rule) (typeof rule) None) selected
   end).

Local Abbreviation nat_rules_of selected :=
  (List.filter (fun rule => typeof rule =? "fw_ipv4_nat_rule") selected).

(** C4, as the code has it: over a policy whose NAT rule list is
    [R1..Rn], a range "s-e" with [1 <= s] returns exactly the rules in the
    1-based inclusive positions [s] to [e], each as the record of its name
    and type without position (as its YAML view when [as_yaml] is set);
    the search path returns the NAT rules that the library finds, as
    records without position too; and the query without search, range and
    YAML detail returns one record per rule, the record of index [k]
    (from 0) having the name and type of the rule of index [k] and the
    position [k + 1].  An end [e] is never negative when [int] is Python's:
    a token has no hyphen. *)
Theorem range_returns_positions (p : params) (pol : Policy) :
  invalid_expand p = None ->
  search_by_type p = [pol] ->
  Forall (fun r => typeof r = "fw_ipv4_nat_rule") (fw_ipv4_nat_rules pol) ->
  (forall r a b s e,
      Py.nonempty (search p) = None ->
      Py.nonempty (rule_range p) = Some r ->
      Py.split "-"%char r = [a; b] -> int a = Some s -> int b = Some e ->
      (1 <= s)%Z -> (0 <= e)%Z ->
      fst (exec_module p)
      = Returned
          [{| policy := policy_name pol;
              rules := unpositioned p
                         (Spec.positions s e (fw_ipv4_nat_rules pol)) |}])
  /\ (forall text,
         Py.nonempty (search p) = Some text ->
         fst (exec_module p)
         = Returned
             [{| policy := policy_name pol;
                 rules := unpositioned p
                            (nat_rules_of (search_rule pol text)) |}])
  /\ (Py.nonempty (search p) = None ->
      Py.nonempty (rule_range p) = None ->
      as_yaml p <> Some true ->
      exists records,
        fst (exec_module p)
        = Returned [{| policy := policy_name pol; rules := records |}]
        /\ List.length records = List.length (fw_ipv4_nat_rules pol)
        /\ forall k rule,
             nth_error (fw_ipv4_nat_rules pol) k = Some rule ->
             nth_error records k
             = Some (Compact (name rule) (typeof rule) (Some (S k)))).
Proof.
  intros Hexp Hpol Hnat. split; [|split].
  - intros r a b s e Hsearch Hrange Hsplit Ha Hb Hs He.
    rewrite (exec_module_range p pol r a b s e) by assumption.
    cbn [fst]. unfold render. rewrite !truthy_nonempty, Hsearch, Hrange.
    rewrite slice_positions by assumption.
    rewrite filter_nat_rules by (apply Forall_positions; assumption).
    destruct (as_yaml p) as [[|]|]; reflexivity.
  - intros text Hsearch.
    unfold NatRuleFacts.exec_module, select_rules.
    rewrite Hexp, Hpol, Hsearch. cbn [fst]. unfold render.
    rewrite truthy_nonempty, Hsearch.
    destruct (as_yaml p) as [[|]|]; reflexivity.
  - intros Hsearch Hrange Hyaml.
    exists (map compact_at (Py.enumerate 1 (fw_ipv4_nat_rules pol))).
    split; [|split].
    + unfold NatRuleFacts.exec_module, select_rules.
      rewrite Hexp, Hpol, Hsearch, Hrange. cbn [fst]. unfold render.
      rewrite !truthy_nonempty, Hsearch, Hrange.
      destruct (as_yaml p) as [[|]|]; [now elim Hyaml| |]; reflexivity.
    + now rewrite length_map, length_enumerate.
    + intros k rule Hk. rewrite nth_error_map.
      now rewrite (nth_error_enumerate _ 1 k rule Hk).
Qed.

(** C7: a range that is given and has a token that [int] rejects never
    makes the query return: the query fails, and once the expand list is
    valid and the policy found, it fails with the value-format message
    that names the range. *)
Theorem non_numeric_range_fails (p : params) (r : string) :
  Py.nonempty (search p) = None ->
  Py.nonempty (rule_range p) = Some r ->
  (exists tok, In tok (Py.split "-"%char r) /\ int tok = None) ->
  (exists m, fst (exec_module p) = Failed m)
  /\ (forall pol,
         invalid_expand p = None ->
         search_by_type p = [pol] ->
         exec_module p
         = (Failed
              [Lit "Value of rule range was invalid. Rule ranges must be a string with numeric only values, got: ";
               Arg r],
            [SearchByType (filter p)])).
Proof.
  intros Hsearch Hrange [tok [Hin Htok]].
  assert (Hparse : parse_range int r = None).
  { unfold parse_range.
    destruct (Py.split "-"%char r) as [|a [|b [|c rest]]]; try reflexivity.
    destruct Hin as [<-|[<-|[]]].
    - now rewrite Htok.
    - rewrite Htok. now destruct (int a). }
  unfold NatRuleFacts.exec_module, select_rules. split.
  - destruct (invalid_expand p); [eexists; reflexivity|].
    destruct (search_by_type p) as [|pol [|pol' rest]];
      try (eexists; reflexivity).
    rewrite Hsearch, Hrange, Hparse. eexists; reflexivity.
  - intros pol Hexp Hpol. now rewrite Hexp, Hpol, Hsearch, Hrange, Hparse.
Qed.

(** C10: a range "s-e" that parses makes the query succeed, whatever the
    bounds, after the policy lookup and the one reading of the rule list:
    it returns the records, without position, of the NAT rules of the
    Python slice [[s-1:e]] of the ordered rule list, which is that slice
    itself when the list holds NAT rules only.  The result is empty when
    the start exceeds the end or the rule count; with a start of at least
    1 it runs from position [s] to the last rule when the end is at or
    beyond the rule count, and in general holds the up to [e - (s - 1)]
    rules that follow the first [s - 1]. *)
Theorem numeric_range_is_python_slice (p : params) (pol : Policy)
    (r a b : string) (s e : Z) :
  invalid_expand p = None ->
  search_by_type p = [pol] ->
  Py.nonempty (search p) = None ->
  Py.nonempty (rule_range p) = Some r ->
  Py.split "-"%char r = [a; b] -> int a = Some s -> int b = Some e ->
  exec_module p
  = (Returned
       [{| policy := policy_name pol;
           rules := unpositioned p
                      (nat_rules_of
                         (Py.slice (fw_ipv4_nat_rules pol) (s - 1) e)) |}],
     [SearchByType (filter p); NatRules (policy_name pol)])
  /\ (Forall (fun x => typeof x = "fw_ipv4_nat_rule") (fw_ipv4_nat_rules pol) ->
      fst (exec_module p)
      = Returned
          [{| policy := policy_name pol;
              rules := unpositioned p
                         (Py.slice (fw_ipv4_nat_rules pol) (s - 1) e) |}])
  /\ ((0 <= e < s)%Z \/ (Z.of_nat (List.length (fw_ipv4_nat_rules pol)) < s)%Z ->
      fst (exec_module p)
      = Returned [{| policy := policy_name pol; rules := [] |}])
  /\ ((1 <= s)%Z ->
      (Z.of_nat (List.length (fw_ipv4_nat_rules pol)) <= e)%Z ->
      fst (exec_module p)
      = Returned
          [{| policy := policy_name pol;
              rules := unpositioned p
                         (nat_rules_of
                            (skipn (Z.to_nat (s - 1))
                                   (fw_ipv4_nat_rules pol))) |}])
  /\ ((1 <= s)%Z -> (0 <= e)%Z ->
      fst (exec_module p)
      = Returned
          [{| policy := policy_name pol;
              rules := unpositioned p
                         (nat_rules_of
                            (firstn (Z.to_nat (e - (s - 1)))
                                    (skipn (Z.to_nat (s - 1))
                                           (fw_ipv4_nat_rules pol)))) |}]).
Proof.
  intros Hexp Hpol Hsearch Hrange Hsplit Ha Hb.
  pose proof (exec_module_range p pol r a b s e
                Hexp Hpol Hsearch Hrange Hsplit Ha Hb) as Hrun.
  assert (Hrender : forall selected,
             render Yaml to_yaml p selected
             = unpositioned p (nat_rules_of selected)).
  { intros selected. unfold render.
    rewrite !truthy_nonempty, Hsearch, Hrange.
    destruct (as_yaml p) as [[|]|]; reflexivity. }
  rewrite Hrun, Hrender. cbn [fst]. split; [reflexivity|].
  split; [|split; [|split]].
  - intros Hnat.
    assert (Hsel : Forall (fun x => typeof x = "fw_ipv4_nat_rule")
                          (Py.slice (fw_ipv4_nat_rules pol) (s - 1) e)).
    { now apply Forall_slice. }
    apply filter_nat_rules in Hsel. unfold is_nat_rule in Hsel.
    now rewrite Hsel.
  - intros Hempty. rewrite slice_empty by assumption.
    now destruct (as_yaml p) as [[|]|].
  - intros Hs He. now rewrite slice_to_the_end by assumption.
  - intros Hs He. now rewrite slice_firstn_skipn by assumption.
Qed.

End NatRuleFactsProperties.

Lemma contains_In (t : list string) (x : string) :
  Py.contains t x = true <-> In x t.
Proof.
  unfold Py.contains. rewrite existsb_exists. split.
  - intros [y [Hy Heq]]. apply String.eqb_eq in Heq. now subst.
  - intros H. exists x. split; [assumption | apply String.eqb_refl].
Qed.

Lemma find_invalid (valid expand : list string) (attr : string) :
  In attr expand -> ~ In attr valid ->
  exists bad,
    find (fun a => negb (Py.contains valid a)) expand = Some bad
    /\ In bad expand /\ ~ In bad valid.
Proof.
  intros Hin Hbad.
  destruct (find (fun a => negb (Py.contains valid a)) expand) as [bad|] eqn:Hfind.
  - apply find_some in Hfind. destruct Hfind as [Hmem Hneg].
    exists bad. repeat split; try assumption.
    intros Hvalid. apply contains_In in Hvalid. rewrite Hvalid in Hneg.
    discriminate.
  - apply find_none with (x := attr) in Hfind; [|assumption].
    apply negb_false_iff, contains_In in Hfind. contradiction.
Qed.

(** C8: a query whose expand list has an entry outside the valid set of
    its module fails without having made any call on the server, and the
    message lists the valid options: the tuple [expands] for the NAT rule
    query, [group] for the network element query. *)
Theorem invalid_expand_fails_before_lookup :
  (forall int Yaml to_yaml search_by_type (p : NatRuleFacts.params) attr,
      In attr (NatRuleFacts.expand p) ->
      ~ In attr ["sources"; "destinations"; "services"] ->
      exists bad,
        In bad (NatRuleFacts.expand p)
        /\ ~ In bad ["sources"; "destinations"; "services"]
        /\ NatRuleFacts.exec_module int Yaml to_yaml search_by_type p
           = (Failed [Lit "Invalid expandable attribute: "; Arg bad;
                      Lit " provided. Valid options are: ";
                      ArgTuple ["sources"; "destinations"; "services"]],
              []))
  /\ (forall ELEMENT_TYPES search_by_type search_by_context
             Expanded element_dict_from_obj
             (p : NetworkElementFacts.params) attr,
         In attr (NetworkElementFacts.expand p) ->
         attr <> "group" ->
         exists bad,
           In bad (NetworkElementFacts.expand p)
           /\ bad <> "group"
           /\ NetworkElementFacts.exec_module ELEMENT_TYPES search_by_type
                search_by_context Expanded element_dict_from_obj p
              = (Failed [Lit "Invalid expandable attribute: "; Arg bad;
                         Lit " provided. Valid options are: group"],
                 [])).
Proof.
  split.
  - intros int Yaml to_yaml search_by_type p attr Hin Hbad.
    destruct (find_invalid NatRuleFacts.expands _ attr Hin Hbad)
      as [bad [Hfind [Hmem Hout]]].
    exists bad. repeat split; try assumption.
    unfold NatRuleFacts.exec_module, NatRuleFacts.invalid_expand.
    now rewrite Hfind.
  - intros ET sbt sbc Expanded edfo p attr Hin Hbad.
    destruct (find_invalid ["group"] _ attr Hin) as [bad [Hfind [Hmem Hout]]].
    { intros [H|[]]. now subst. }
    exists bad. repeat split; try assumption.
    + intros ->. apply Hout. now left.
    + unfold NetworkElementFacts.exec_module, NetworkElementFacts.invalid_expand.
      now rewrite Hfind.
Qed.

Lemma range_returns_positions_witness :
  fst (Scenario.nat_rule_facts (Scenario.query (Some "1-2") []))
  = Returned [{| NatRuleFacts.policy := "TestPolicy";
                 NatRuleFacts.rules :=
                   [NatRuleFacts.Compact "R1" "fw_ipv4_nat_rule" None;
                    NatRuleFacts.Compact "R2" "fw_ipv4_nat_rule" None] |}]
  /\ (exists records,
         fst (Scenario.nat_rule_facts (Scenario.query None []))
         = Returned [{| NatRuleFacts.policy := "TestPolicy";
                        NatRuleFacts.rules := records |}]
         /\ List.length records = 3%nat
         /\ nth_error records 0
            = Some (NatRuleFacts.Compact "R1" "fw_ipv4_nat_rule" (Some 1%nat))
         /\ nth_error records 2
            = Some (NatRuleFacts.Compact "R3" "fw_ipv4_nat_rule" (Some 3%nat))).
Proof.
  split.
  - destruct (range_returns_positions Py.int_ascii string Scenario.to_yaml_name
                Scenario.one_policy (Scenario.query (Some "1-2") [])
                Scenario.TestPolicy) as [Hrange _].
    + reflexivity.
    + reflexivity.
    + repeat constructor.
    + exact (Hrange "1-2" "1" "2" 1%Z 2%Z eq_refl eq_refl eq_refl eq_refl
               eq_refl ltac:(lia) ltac:(lia)).
  - destruct (range_returns_positions Py.int_ascii string Scenario.to_yaml_name
                Scenario.one_policy (Scenario.query None [])
                Scenario.TestPolicy) as [_ [_ Hall]].
    + reflexivity.
    + reflexivity.
    + repeat constructor.
    + destruct Hall as [records [Hrun [Hlen Hnth]]];
        [reflexivity | reflexivity | discriminate |].
      exists records. split; [exact Hrun|]. split; [exact Hlen|]. split.
      * exact (Hnth 0%nat (Scenario.R "R1") eq_refl).
      * exact (Hnth 2%nat (Scenario.R "R3") eq_refl).
Defined.

(** C4, as the specification states it, fails in two places.  A range
    that starts at 0 is not the positions 0 to [e]: ["0-3"] over
    [R1; R2; R3] returns [R3] alone.  And with YAML detail the query
    without search and range returns the YAML views, which have no
    position. *)
Lemma positions_fail_from_zero_and_in_yaml :
  ~ (forall (int : string -> option Z) (Yaml : Type)
            (to_yaml : NatRuleFacts.Rule -> list string -> Yaml)
            (search_by_type : NatRuleFacts.params -> list NatRuleFacts.Policy)
            (p : NatRuleFacts.params) (pol : NatRuleFacts.Policy)
            (r a b : string) (s e : Z),
        NatRuleFacts.invalid_expand p = None ->
        search_by_type p = [pol] ->
        Forall (fun x => NatRuleFacts.typeof x = "fw_ipv4_nat_rule")
               (NatRuleFacts.fw_ipv4_nat_rules pol) ->
        Py.nonempty (NatRuleFacts.search p) = None ->
        Py.nonempty (NatRuleFacts.rule_range p) = Some r ->
        NatRuleFacts.as_yaml p = None ->
        Py.split "-"%char r = [a; b] -> int a = Some s -> int b = Some e ->
        (0 <= e)%Z ->
        fst (NatRuleFacts.exec_module int Yaml to_yaml search_by_type p)
        = Returned
            [{| NatRuleFacts.policy := NatRuleFacts.policy_name pol;
                NatRuleFacts.rules :=
                  map (fun rule =>
                         NatRuleFacts.Compact (NatRuleFacts.name rule)
                           (NatRuleFacts.typeof rule) None)
                      (Spec.positions s e
                         (NatRuleFacts.fw_ipv4_nat_rules pol)) |}])
  /\ ~ (forall (int : string -> option Z) (Yaml : Type)
              (to_yaml : NatRuleFacts.Rule -> list string -> Yaml)
              (search_by_type : NatRuleFacts.params -> list NatRuleFacts.Policy)
              (p : NatRuleFacts.params) (pol : NatRuleFacts.Policy),
          NatRuleFacts.invalid_expand p = None ->
          search_by_type p = [pol] ->
          Forall (fun x => NatRuleFacts.typeof x = "fw_ipv4_nat_rule")
                 (NatRuleFacts.fw_ipv4_nat_rules pol) ->
          Py.nonempty (NatRuleFacts.search p) = None ->
          Py.nonempty (NatRuleFacts.rule_range p) = None ->
          exists records,
            fst (NatRuleFacts.exec_module int Yaml to_yaml search_by_type p)
            = Returned
                [{| NatRuleFacts.policy := NatRuleFacts.policy_name pol;
                    NatRuleFacts.rules := records |}]
            /\ forall k rule,
                 nth_error (NatRuleFacts.fw_ipv4_nat_rules pol) k = Some rule ->
                 exists rname rtype,
                   nth_error records k
                   = Some (NatRuleFacts.Compact rname rtype (Some (S k)))).
Proof.
  split.
  - intros H.
    specialize (H Py.int_ascii string Scenario.to_yaml_name Scenario.one_policy
                  (Scenario.query (Some "0-3") []) Scenario.TestPolicy
                  "0-3" "0" "3" 0%Z 3%Z eq_refl eq_refl).
    assert (Hrun : fst (Scenario.nat_rule_facts (Scenario.query (Some "0-3") []))
                   = Returned
                       [{| NatRuleFacts.policy := "TestPolicy";
                           NatRuleFacts.rules :=
                             [NatRuleFacts.Compact "R3" "fw_ipv4_nat_rule"
                                None] |}]) by reflexivity.
    unfold Scenario.nat_rule_facts in Hrun. rewrite H in Hrun.
    + vm_compute in Hrun. discriminate Hrun.
    + repeat constructor.
    + reflexivity.
    + reflexivity.
    + reflexivity.
    + reflexivity.
    + reflexivity.
    + reflexivity.
    + lia.
  - intros H.
    destruct (H Py.int_ascii string Scenario.to_yaml_name Scenario.one_policy
                {| NatRuleFacts.filter := "TestPolicy";
                   NatRuleFacts.expand := [];
                   NatRuleFacts.search := None;
                   NatRuleFacts.rule_range := None;
                   NatRuleFacts.as_yaml := Some true |}
                Scenario.TestPolicy eq_refl eq_refl)
      as [records [Hrun Hnth]]; try reflexivity.
    + repeat constructor.
    + destruct (Hnth 0%nat (Scenario.R "R1") eq_refl) as [rname [rtype Hk]].
      vm_compute in Hrun. inversion Hrun; subst records.
      discriminate Hk.
Qed.

Lemma non_numeric_range_fails_witness :
  Scenario.nat_rule_facts (Scenario.query (Some "a-b") [])
  = (Failed
       [Lit "Value of rule range was invalid. Rule ranges must be a string with numeric only values, got: ";
        Arg "a-b"],
     [NatRuleFacts.SearchByType "TestPolicy"]).
Proof.
  destruct (non_numeric_range_fails Py.int_ascii string Scenario.to_yaml_name
              Scenario.one_policy (Scenario.query (Some "a-b") []) "a-b")
    as [_ Hmsg].
  - reflexivity.
  - reflexivity.
  - exists "a". split; [left; reflexivity | reflexivity].
  - exact (Hmsg Scenario.TestPolicy eq_refl eq_refl).
Defined.

Lemma numeric_range_is_python_slice_witness :
  fst (Scenario.nat_rule_facts (Scenario.query (Some "3-1") []))
  = Returned [{| NatRuleFacts.policy := "TestPolicy";
                 NatRuleFacts.rules := [] |}]
  /\ fst (Scenario.nat_rule_facts (Scenario.query (Some "5-9") []))
     = Returned [{| NatRuleFacts.policy := "TestPolicy";
                    NatRuleFacts.rules := [] |}]
  /\ fst (Scenario.nat_rule_facts (Scenario.query (Some "2-99") []))
     = Returned [{| NatRuleFacts.policy := "TestPolicy";
                    NatRuleFacts.rules :=
                      [NatRuleFacts.Compact "R2" "fw_ipv4_nat_rule" None;
                       NatRuleFacts.Compact "R3" "fw_ipv4_nat_rule" None] |}].
Proof.
  split; [|split].
  - destruct (numeric_range_is_python_slice Py.int_ascii string
                Scenario.to_yaml_name Scenario.one_policy
                (Scenario.query (Some "3-1") []) Scenario.TestPolicy
                "3-1" "3" "1" 3%Z 1%Z eq_refl eq_refl eq_refl eq_refl eq_refl
                eq_refl eq_refl) as [_ [_ [Hempty _]]].
    apply Hempty. left. lia.
  - destruct (numeric_range_is_python_slice Py.int_ascii string
                Scenario.to_yaml_name Scenario.one_policy
                (Scenario.query (Some "5-9") []) Scenario.TestPolicy
                "5-9" "5" "9" 5%Z 9%Z eq_refl eq_refl eq_refl eq_refl eq_refl
                eq_refl eq_refl) as [_ [_ [Hempty _]]].
    apply Hempty. right. simpl. lia.
  - destruct (numeric_range_is_python_slice Py.int_ascii string
                Scenario.to_yaml_name Scenario.one_policy
                (Scenario.query (Some "2-99") []) Scenario.TestPolicy
                "2-99" "2" "99" 2%Z 99%Z eq_refl eq_refl eq_refl eq_refl eq_refl
                eq_refl eq_refl) as [_ [_ [_ [Hend _]]]].
    apply Hend; simpl; lia.
Defined.

Lemma invalid_expand_fails_before_lookup_witness :
  (exists bad,
      In bad ["sources"; "bogus"]
      /\ ~ In bad ["sources"; "destinations"; "services"]
      /\ Scenario.nat_rule_facts (Scenario.query None ["sources"; "bogus"])
         = (Failed [Lit "Invalid expandable attribute: "; Arg bad;
                    Lit " provided. Valid options are: ";
                    ArgTuple ["sources"; "destinations"; "services"]],
            []))
  /\ (exists bad,
         In bad ["group"; "members"]
         /\ bad <> "group"
         /\ Scenario.network_element_facts (Scenario.hosts ["group"; "members"])
            = (Failed [Lit "Invalid expandable attribute: "; Arg bad;
                       Lit " provided. Valid options are: group"],
               [])).
Proof.
  destruct invalid_expand_fails_before_lookup as [Hnat Helement]. split.
  - apply (Hnat Py.int_ascii string Scenario.to_yaml_name Scenario.one_policy
             (Scenario.query None ["sources"; "bogus"]) "bogus").
    + right. left. reflexivity.
    + intros [H|[H|[H|[]]]]; discriminate.
  - apply (Helement Scenario.element_types (fun _ _ => []) (fun _ => []) string
             (fun e _ => NetworkElementFacts.name e)
             (Scenario.hosts ["group"; "members"]) "members").
    + right. left. reflexivity.
    + discriminate.
Defined.

(** ** The Route VPN reconciler *)

(** *** Rules for [respects] *)

Section Judgements.

Import RouteVPN.

Variable I : smc -> smc -> Prop.
Variable P : call -> Prop.
Hypothesis I_refl : forall s, I s s.
Hypothesis I_trans : forall a b c, I a b -> I b c -> I a c.
Hypothesis P_reads : forall c, reads_only c -> P c.

Lemma respects_ret {A : Type} (a : A) : respects I P (ret a).
Proof. intros s. simpl. auto. Qed.

Lemma respects_raise {A : Type} (e : exn) : respects I P (@raise A e).
Proof. intros s. simpl. auto. Qed.

Lemma respects_fail {A : Type} (m : msg) : respects I P (@fail A m).
Proof. apply respects_raise. Qed.

Lemma respects_read {A : Type} (c : call) (answer : smc -> A) :
  reads_only c -> respects I P (read c answer).
Proof. intros Hc s. simpl. auto. Qed.

Lemma respects_bind {A B : Type} (m : M A) (f : A -> M B) :
  respects I P m -> (forall a, respects I P (f a)) ->
  respects I P (bind m f).
Proof.
  intros Hm Hf s. unfold bind. specialize (Hm s).
  destruct (m s) as [[[e|a] s1] l1]; [assumption|].
  destruct Hm as [Hs1 Hl1]. specialize (Hf a s1).
  destruct (f a s1) as [[r s2] l2]. destruct Hf as [Hs2 Hl2].
  split; [eauto | apply Forall_app; auto].
Qed.

Lemma respects_try_except {A : Type} (body : M A) (handler : msg -> M A) :
  respects I P body -> (forall err, respects I P (handler err)) ->
  respects I P (try_except body handler).
Proof.
  intros Hb Hh s. unfold try_except. specialize (Hb s).
  destruct (body s) as [[[[m|err|m]|a] s1] l1]; try assumption.
  destruct Hb as [Hs1 Hl1]. specialize (Hh err s1).
  destruct (handler err s1) as [[r s2] l2]. destruct Hh as [Hs2 Hl2].
  split; [eauto | apply Forall_app; auto].
Qed.

Lemma respects_write_with {A : Type} (c : call) (answer : smc -> A)
    (effect : smc -> smc) :
  P c -> (forall s, I s (effect s)) ->
  respects I P (write_with c answer effect).
Proof.
  intros Hc He s. unfold write_with. destruct (rejects s c); auto.
Qed.

Lemma respects_write (c : call) (effect : smc -> smc) :
  P c -> (forall s, I s (effect s)) -> respects I P (write c effect).
Proof. apply respects_write_with. Qed.

Ltac respects_step :=
  first
    [ apply respects_ret
    | apply respects_fail
    | apply respects_raise
    | apply respects_read; reflexivity
    | apply respects_bind; [|intros]
    | apply respects_try_except; [|intros]
    | assumption
    | match goal with
      | |- respects _ _ (match ?x with _ => _ end) => destruct x
      | |- respects _ _ (if ?x then _ else _) => destruct x
      end ].

Ltac respects_auto := repeat respects_step.

Lemma respects_get_managed_gateway (gw : option gateway) :
  respects I P (get_managed_gateway gw).
Proof. unfold get_managed_gateway. respects_auto. Qed.

Lemma respects_get_tunnel_interface (e : Engine) (id : option string) :
  respects I P (get_tunnel_interface e id).
Proof. unfold get_tunnel_interface. respects_auto. Qed.

Lemma respects_interface_get (e : Engine) (id : option string) :
  respects I P (interface_get e id).
Proof. unfold interface_get. respects_auto. Qed.

Lemma respects_get_exact (e : Engine) (a : string) :
  respects I P (get_exact e a).
Proof. unfold get_exact. respects_auto. Qed.

Lemma respects_endpoints_of_addresses (e : Engine) (addrs : list string) :
  forall acc, respects I P (endpoints_of_addresses e addrs acc).
Proof.
  induction addrs as [|a rest IH]; intros acc; simpl.
  - respects_auto.
  - apply respects_bind; [apply respects_get_exact|]. intros [ep|]; [|apply IH].
    apply respects_bind; [apply respects_get_exact|]. intros again. apply IH.
Qed.

Lemma respects_get_ipsec_endpoint (e : Engine) (id address : option string) :
  respects I P (get_ipsec_endpoint e id address).
Proof.
  unfold get_ipsec_endpoint.
  apply respects_bind;
    [apply respects_try_except;
       [apply respects_interface_get | intros; apply respects_fail]|].
  intros iface. apply respects_bind.
  - destruct (Py.nonempty address).
    + apply respects_bind; [apply respects_get_exact | intros; apply respects_ret].
    + apply respects_endpoints_of_addresses.
  - intros eps. respects_auto.
Qed.

Lemma respects_cache_add_entry (c : Cache) (typeof : string) (n : scalar) :
  respects I P (cache_add_entry c typeof n).
Proof. unfold cache_add_entry. respects_auto. Qed.

Lemma respects_cache_add_names (typeof : string) (names : list scalar) :
  forall c, respects I P (cache_add_names c typeof names).
Proof.
  induction names as [|n rest IH]; intros c; simpl.
  - apply respects_ret.
  - apply respects_bind; [apply respects_cache_add_entry | intros; apply IH].
Qed.

Lemma respects_cache_add (entries : dict (list scalar)) :
  forall c, respects I P (cache_add c entries).
Proof.
  induction entries as [|[typeof names] rest IH]; intros c; simpl.
  - apply respects_ret.
  - apply respects_bind; [apply respects_cache_add_names | intros; apply IH].
Qed.

Lemma respects_connection_types (eps : list endpoint) :
  respects I P (connection_types eps).
Proof.
  induction eps as [|ep rest IH]; simpl; respects_auto.
Qed.

Lemma respects_with_connection_type_ref (c : Cache) (eps : list endpoint) :
  respects I P (with_connection_type_ref c eps).
Proof.
  induction eps as [|ep rest IH]; simpl; respects_auto.
Qed.

Lemma respects_resolve_external_gateway (rg : gateway) :
  respects I P (resolve_external_gateway rg).
Proof.
  unfold resolve_external_gateway.
  destruct (gw_name rg); [|apply respects_fail].
  destruct (gw_preshared_key rg); [|apply respects_fail].
  destruct (gw_external_endpoint rg) as [eps|]; [|apply respects_fail].
  apply respects_bind; [apply respects_connection_types|]. intros ctypes.
  apply respects_bind; [apply respects_cache_add|]. intros c.
  destruct (missing c); [|apply respects_fail].
  apply respects_bind.
  - destruct (gw_vpn_site rg) as [site|]; [|apply respects_ret].
    destruct (Py.nonempty (site_name site)); [|apply respects_fail].
    apply respects_bind; [apply respects_cache_add|]. intros c1.
    destruct (missing c1); [apply respects_ret | apply respects_fail].
  - intros site. apply respects_bind;
      [apply respects_with_connection_type_ref | intros; apply respects_ret].
Qed.

Lemma respects_resolve_managed (gw : option gateway) :
  respects I P (resolve_managed gw).
Proof.
  unfold resolve_managed.
  apply respects_bind; [apply respects_get_managed_gateway|]. intros e.
  destruct gw as [g|]; [|apply respects_raise].
  apply respects_bind; [apply respects_get_tunnel_interface|]. intros t.
  apply respects_bind; [apply respects_get_ipsec_endpoint|]. intros eps.
  apply respects_ret.
Qed.

Lemma respects_resolve (p : params) : respects I P (resolve p).
Proof.
  unfold resolve.
  apply respects_bind; [apply respects_resolve_managed|]. intros loc.
  destruct (remote_gw p) as [rg|]; [|apply respects_raise].
  apply respects_bind; [|intros; apply respects_ret].
  destruct (is_external rg).
  - apply respects_bind;
      [apply respects_resolve_external_gateway | intros; apply respects_ret].
  - apply respects_bind;
      [apply respects_resolve_managed | intros; apply respects_ret].
Qed.

Lemma respects_update_ipsec_listener (eps : list InternalEndpoint) :
  (forall e a, P (EndpointUpdate e a)) ->
  (forall e a s, I s (enable_endpoint e a s)) ->
  respects I P (update_ipsec_listener eps).
Proof.
  intros HP HI. induction eps as [|ep rest IH]; simpl.
  - apply respects_ret.
  - destruct (ie_enabled ep); [assumption|].
    apply respects_bind; [apply respects_write; auto|]. intros _.
    apply respects_bind; [assumption | intros; apply respects_ret].
Qed.

Lemma respects_update_or_create (d : external_gateway) :
  P (ExternalGatewayUpdateOrCreate d) ->
  (forall s, I s (put_external_gateway d s)) ->
  respects I P (update_or_create d).
Proof. intros HP HI. now apply respects_write_with. Qed.

End Judgements.

(** *** Runs of the reconciler *)

Section Reconciler.

Import RouteVPN.

Lemma bind_inv {A B : Type} (m : M A) (f : A -> M B) (s s' : smc)
    (r : exn + B) (calls : list call) :
  bind m f s = (r, s', calls) ->
  (exists e, m s = (inl e, s', calls) /\ r = inl e)
  \/ (exists a s1 l1 l2,
         m s = (inr a, s1, l1) /\ f a s1 = (r, s', l2) /\ calls = l1 ++ l2).
Proof.
  unfold bind. destruct (m s) as [[[e|a] s1] l1]; intros H.
  - inversion H; subst. left. eauto.
  - destruct (f a s1) as [[r2 s2] l2] eqn:Hf. inversion H; subst.
    right. exists a, s1, l1, l2. auto.
Qed.

Lemma bind_returns {A B : Type} (m : M A) (f : A -> M B) (s s' : smc)
    (b : B) (calls : list call) :
  bind m f s = (inr b, s', calls) ->
  exists a s1 l1 l2,
    m s = (inr a, s1, l1) /\ f a s1 = (inr b, s', l2) /\ calls = l1 ++ l2.
Proof.
  intros H. apply bind_inv in H. destruct H as [[e [_ He]]|H];
    [discriminate | exact H].
Qed.

(** [on_smc_exception] never returns, so that what a [try] block returns
    is what its body returned. *)
Lemma try_except_returns {A : Type} (body : M A) (s s' : smc) (a : A)
    (calls : list call) :
  try_except body on_smc_exception s = (inr a, s', calls) ->
  body s = (inr a, s', calls).
Proof.
  unfold try_except. destruct (body s) as [[[[m|err|m]|x] s1] l1];
    try (intros H; exact H).
  unfold on_smc_exception, fail, raise. intros H. inversion H.
Qed.

Lemma respects_run {A : Type} (I : smc -> smc -> Prop) (P : call -> Prop)
    (m : M A) (s s' : smc) (r : exn + A) (calls : list call) :
  respects I P m -> m s = (r, s', calls) -> I s s' /\ Forall P calls.
Proof. intros H Hrun. specialize (H s). now rewrite Hrun in H. Qed.

(** Resolution only reads: it leaves the server as it is and makes no
    mutating call. *)
Lemma resolve_reads_only (p : params) (s s' : smc) (r : exn + resolution)
    (calls : list call) :
  resolve p s = (r, s', calls) -> s' = s /\ Forall reads_only calls.
Proof.
  intros H.
  destruct (respects_run (fun a b => b = a) reads_only (resolve p) s s' r calls)
    as [Hs Hc]; auto.
  apply respects_resolve; auto. intros a b c -> ->. reflexivity.
Qed.


(** The present branch, past the disable short circuit: the element is
    fetched, the gateways are resolved, and only then is anything applied. *)
Lemma exec_module_present (p : params) (s : smc) :
  state p = present ->
  disable_requested p (find_vpn (name p) s) = false ->
  exec_module p s
  = match resolve p s with
    | (inl e, s1, l1) => (inl e, s1, FetchElement (name p) :: l1)
    | (inr r, s1, l1) =>
        match apply_present p (find_vpn (name p) s) r s1 with
        | (out, s2, l2) => (out, s2, FetchElement (name p) :: l1 ++ l2)
        end
    end.
Proof.
  intros Hstate Hdis. unfold exec_module, bind at 1, fetch_element, read.
  rewrite Hstate, Hdis. unfold bind.
  destruct (resolve p s) as [[[e|r] s1] l1]; [reflexivity|].
  destruct (apply_present p (find_vpn (name p) s) r s1) as [[out s2] l2].
  reflexivity.
Qed.

Lemma exec_module_disable (p : params) (s : smc) :
  state p = present ->
  disable_requested p (find_vpn (name p) s) = true ->
  rejects s (Disable (name p)) = false ->
  exec_module p s
  = (inr {| changed := true; vpn_state := StateInit |},
     set_enabled (name p) false s,
     [FetchElement (name p); Disable (name p)]).
Proof.
  intros Hstate Hdis Hrej.
  unfold exec_module, bind, fetch_element, read, write, write_with.
  rewrite Hstate, Hdis, Hrej. reflexivity.
Qed.

Lemma find_vpn_name (n : string) (s : smc) (v : RouteVPNElement) :
  find_vpn n s = Some v -> rv_name v = n.
Proof.
  unfold find_vpn. intros H. apply find_some in H. destruct H as [_ H].
  now apply String.eqb_eq.
Qed.

End Reconciler.

Section ReconcilerRuns.

Import RouteVPN.

Lemma run_inv (p : params) (s s' : smc) (out : outcome results)
    (calls : list call) :
  run p s = (out, s', calls) ->
  exists r,
    exec_module p s = (r, s', calls)
    /\ (forall res, out = Returned res <-> r = inr res)
    /\ (forall m, out = Failed m <-> r = inl (ModuleFail m)).
Proof.
  unfold run. destruct (exec_module p s) as [[[[m|m|m]|res] s1] l1];
    intros H; inversion H; subst; eexists; (split; [reflexivity|]);
    split; intros x; split; intros Hx; inversion Hx; reflexivity.
Qed.

(** In check mode, past the disable short circuit, a present run only
    reads, and what it returns is the initial result. *)
Lemma check_mode_reads_only (p : params) (s s' : smc) (out : outcome results)
    (calls : list call) :
  state p = present -> check_mode p = true ->
  disable_requested p (find_vpn (name p) s) = false ->
  run p s = (out, s', calls) ->
  s' = s /\ Forall reads_only calls
  /\ (forall res, out = Returned res -> res = initial_results).
Proof.
  intros Hstate Hcheck Hdis Hrun. apply run_inv in Hrun.
  destruct Hrun as [r [Hexec [Hret _]]].
  rewrite exec_module_present in Hexec by assumption.
  destruct (resolve p s) as [[[e|res] s1] l1] eqn:Hres;
    apply resolve_reads_only in Hres; destruct Hres as [-> Hl1].
  - inversion Hexec; subst. repeat split.
    + constructor; [reflexivity | assumption].
    + intros x Hx. apply Hret in Hx. discriminate.
  - unfold apply_present, try_except in Hexec. rewrite Hcheck in Hexec.
    simpl in Hexec. inversion Hexec; subst. repeat split.
    + constructor; [reflexivity|]. now rewrite app_nil_r.
    + intros x Hx. apply Hret in Hx. now inversion Hx.
Qed.

(** C1, at the input where it fails: in check mode, with an enabled Route
    VPN on the server and [enabled: false] requested, the run calls
    [disable] on the server and reports [changed = True]. *)
Theorem check_mode_disable_is_applied :
  run (Scenario.invocation present (Some false)
         (Scenario.managed "myfw" "1000" "0") None true)
      (Scenario.server [Scenario.myrbvpn true])
  = (Returned {| changed := true; vpn_state := StateInit |},
     Scenario.server [Scenario.myrbvpn false],
     [FetchElement "myrbvpn"; Disable "myrbvpn"])
  /\ mutating (Disable "myrbvpn") = true.
Proof. split; reflexivity. Qed.



(** C5: an absent run deletes the Route VPN of that name when there is one
    and returns [changed = True]; when there is none it makes no write and
    returns [changed = False]; and an absent run after a deletion is such
    a run. *)
Theorem absent_deletes_or_does_nothing (p : params) (s : smc) :
  state p = absent ->
  (forall v,
      find_vpn (name p) s = Some v ->
      rejects s (Delete (name p)) = false ->
      run p s
      = (Returned {| changed := true; vpn_state := StateInit |},
         delete_vpn (name p) s,
         [FetchElement (name p); Delete (name p)])
      /\ find_vpn (name p) (delete_vpn (name p) s) = None)
  /\ (find_vpn (name p) s = None ->
      run p s
      = (Returned {| changed := false; vpn_state := StateInit |},
         s, [FetchElement (name p)]))
  /\ run p (delete_vpn (name p) s)
     = (Returned {| changed := false; vpn_state := StateInit |},
        delete_vpn (name p) s, [FetchElement (name p)]).
Proof.
  intros Hstate.
  assert (Hgone : find_vpn (name p) (delete_vpn (name p) s) = None).
  { unfold find_vpn, delete_vpn, with_route_vpns. simpl.
    destruct (find _ _) as [x|] eqn:Hx; [|reflexivity].
    apply find_some in Hx. destruct Hx as [Hin Hname].
    apply filter_In in Hin. destruct Hin as [_ Hneq].
    rewrite Hname in Hneq. discriminate. }
  assert (Hnone : forall s0, find_vpn (name p) s0 = None ->
            run p s0 = (Returned {| changed := false; vpn_state := StateInit |},
                        s0, [FetchElement (name p)])).
  { intros s0 H0. unfold run, exec_module, bind, fetch_element, read.
    rewrite Hstate, H0. reflexivity. }
  split; [|split; auto].
  intros v Hfind Hrej. split; [|exact Hgone].
  unfold run, exec_module, bind, fetch_element, read.
  rewrite Hstate, Hfind.
  unfold apply_absent, try_except, bind, write, write_with.
  rewrite Hrej. reflexivity.
Qed.

Lemma absent_deletes_or_does_nothing_witness :
  run (Scenario.invocation absent None (Scenario.managed "myfw" "1000" "0") None false)
      (Scenario.server [Scenario.myrbvpn true])
  = (Returned {| changed := true; vpn_state := StateInit |},
     delete_vpn "myrbvpn" (Scenario.server [Scenario.myrbvpn true]),
     [FetchElement "myrbvpn"; Delete "myrbvpn"])
  /\ run (Scenario.invocation absent None (Scenario.managed "myfw" "1000" "0") None
            false)
         (Scenario.server [])
     = (Returned {| changed := false; vpn_state := StateInit |},
        Scenario.server [], [FetchElement "myrbvpn"]).
Proof.
  split.
  - eapply (absent_deletes_or_does_nothing
              (Scenario.invocation absent None (Scenario.managed "myfw" "1000" "0")
                 None false)
              (Scenario.server [Scenario.myrbvpn true])); reflexivity.
  - eapply (absent_deletes_or_does_nothing
              (Scenario.invocation absent None (Scenario.managed "myfw" "1000" "0")
                 None false)
              (Scenario.server [])); reflexivity.
Defined.

End ReconcilerRuns.

(** *** What the writing steps keep and emit *)

Section Writes.

Import RouteVPN.

Variable I : smc -> smc -> Prop.
Variable P : call -> Prop.
Hypothesis I_refl : forall s, I s s.
Hypothesis I_trans : forall a b c, I a b -> I b c -> I a c.
Hypothesis P_reads : forall c, reads_only c -> P c.
Hypothesis P_endpoint : forall e a, P (EndpointUpdate e a).
Hypothesis I_endpoint : forall e a s, I s (enable_endpoint e a s).
Hypothesis P_gateway : forall d, P (ExternalGatewayUpdateOrCreate d).
Hypothesis I_gateway : forall d s, I s (put_external_gateway d s).

Lemma respects_bind_returns {A B : Type} (Q : A -> Prop) (m : M A)
    (f : A -> M B) :
  respects I P m -> returns Q m -> (forall a, Q a -> respects I P (f a)) ->
  respects I P (bind m f).
Proof.
  intros Hm HQ Hf s. unfold bind. specialize (Hm s). specialize (HQ s).
  destruct (m s) as [[[e|a] s1] l1]; [assumption|].
  destruct Hm as [Hs1 Hl1]. specialize (Hf a (HQ a s1 l1 eq_refl) s1).
  destruct (f a s1) as [[r s2] l2]. destruct Hf as [Hs2 Hl2].
  split; [eauto | apply Forall_app; auto].
Qed.

Lemma respects_tunnel_endpoints (p : params) (r : resolution) :
  respects I P (tunnel_endpoints p r).
Proof.
  unfold tunnel_endpoints.
  apply respects_bind; auto. { apply respects_read; auto. reflexivity. }
  intros gw_local. cbv zeta.
  apply respects_bind; auto. { apply respects_update_ipsec_listener; auto. }
  intros changed1. destruct (remote r) as [re rt reps|d].
  - apply respects_bind; auto. { apply respects_read; auto. reflexivity. }
    intros gw_remote.
    apply respects_bind; auto. { apply respects_update_ipsec_listener; auto. }
    intros changed2. apply respects_ret; auto.
  - apply respects_bind; auto. { apply respects_update_or_create; auto. }
    intros status. destruct (remote_gw p) as [rg|];
      [destruct (gw_preshared_key rg)|];
      first [apply respects_ret; auto | apply respects_raise; auto].
Qed.

Lemma respects_update_vpn (p : params) (v : RouteVPNElement) (r : resolution) :
  P (Enable (name p)) ->
  (forall s, I s (set_enabled (name p) true s)) ->
  respects I P (update_vpn p v r).
Proof.
  intros HP HI. unfold update_vpn.
  apply respects_bind; auto.
  - destruct (enable_requested p (Some v)); [|apply respects_ret; auto].
    apply respects_bind; auto; [apply respects_write; auto|].
    intros _. apply respects_ret; auto.
  - intros en. destruct (remote r) as [re rt reps|d];
      [apply respects_ret; auto|].
    apply respects_bind; auto; [apply respects_update_or_create; auto|].
    intros status. apply respects_ret; auto.
Qed.

End Writes.

(** *** The Route VPN element through a run *)

Section RouteVPNElements.

Import RouteVPN.

Lemma same_vpns_refl (s : smc) : same_vpns s s.
Proof. reflexivity. Qed.

Lemma same_vpns_trans (a b c : smc) :
  same_vpns a b -> same_vpns b c -> same_vpns a c.
Proof. unfold same_vpns. congruence. Qed.

Lemma find_vpn_same (n : string) (s s' : smc) :
  same_vpns s s' -> find_vpn n s' = find_vpn n s.
Proof. unfold same_vpns, find_vpn. now intros ->. Qed.

Lemma find_app_none {A : Type} (f : A -> bool) (l1 l2 : list A) :
  find f l1 = None -> find f (l1 ++ l2) = find f l2.
Proof.
  induction l1 as [|x rest IH]; simpl; [reflexivity|].
  destruct (f x); [discriminate | exact IH].
Qed.

Lemma find_vpn_add (args : vpn_args) (s : smc) :
  find_vpn (vpn_name args) s = None ->
  find_vpn (vpn_name args) (add_vpn args s) = Some (new_vpn args).
Proof.
  unfold find_vpn, add_vpn, with_route_vpns. cbn [route_vpns]. intros H.
  rewrite find_app_none by assumption. simpl. now rewrite String.eqb_refl.
Qed.

Lemma find_vpn_set_enabled (n : string) (b : bool) (s : smc)
    (v : RouteVPNElement) :
  find_vpn n s = Some v ->
  find_vpn n (set_enabled n b s) = Some (with_enabled b v).
Proof.
  unfold find_vpn, set_enabled, with_route_vpns. cbn [route_vpns].
  induction (route_vpns s) as [|x rest IH]; simpl; [discriminate|].
  destruct (rv_name x =? n) eqn:Hx; simpl.
  - rewrite Hx. now intros [= ->].
  - rewrite Hx. exact IH.
Qed.

Lemma write_with_returns {A : Type} (c : call) (answer : smc -> A)
    (effect : smc -> smc) (s s' : smc) (a : A) (calls : list call) :
  write_with c answer effect s = (inr a, s', calls) ->
  a = answer s /\ s' = effect s /\ calls = [c].
Proof.
  unfold write_with. destruct (rejects s c); intros H; inversion H. auto.
Qed.

Lemma tunnel_endpoints_same_vpns (p : params) (r : resolution) :
  respects same_vpns (fun _ => True) (tunnel_endpoints p r).
Proof.
  apply respects_tunnel_endpoints; auto using same_vpns_refl.
  - apply same_vpns_trans.
  - reflexivity.
  - reflexivity.
Qed.

Lemma create_vpn_returns (p : params) (r : resolution) (s s' : smc)
    (v : RouteVPNElement) (ch : bool) (calls : list call) :
  create_vpn p r s = (inr (v, ch), s', calls) ->
  find_vpn (name p) s = None ->
  ch = true
  /\ rv_name v = name p
  /\ find_vpn (name p) s' = Some v
  /\ In (CreateIpsecTunnel (rv_definition v)) calls.
Proof.
  unfold create_vpn. intros H Hnone.
  apply bind_returns in H. destruct H as [te [s1 [l1 [l2 [Hte [H ->]]]]]].
  cbv zeta in H. apply bind_returns in H.
  destruct H as [rbvpn [s2 [l3 [l4 [Hw [H ->]]]]]].
  apply write_with_returns in Hw. destruct Hw as [-> [-> ->]].
  unfold ret in H. inversion H; subst. clear H.
  apply (respects_run _ _ _ _ _ _ _ (tunnel_endpoints_same_vpns p r)) in Hte.
  destruct Hte as [Hsame _].
  repeat split.
  - rewrite <- (find_vpn_same _ _ _ Hsame) in Hnone.
    now apply (find_vpn_add
                 {| vpn_name := name p;
                    local_endpoint := fst (fst (fst te));
                    remote_endpoint := snd (fst (fst te));
                    vpn_preshared_key := snd te;
                    vpn_profile := Py.nonempty (vpn_profile_name p) |}).
  - apply in_or_app. right. simpl. auto.
Qed.

Lemma update_vpn_returns (p : params) (v v' : RouteVPNElement)
    (r : resolution) (s s' : smc) (ch : bool) (calls : list call) :
  update_vpn p v r s = (inr (v', ch), s', calls) ->
  find_vpn (name p) s = Some v ->
  find_vpn (name p) s' = Some v' /\ rv_name v' = rv_name v.
Proof.
  unfold update_vpn. intros H Hfind.
  apply bind_returns in H. destruct H as [en [s1 [l1 [l2 [Hen [H ->]]]]]].
  assert (Hmid : find_vpn (name p) s1 = Some (fst en)
                 /\ rv_name (fst en) = rv_name v).
  { destruct (enable_requested p (Some v)).
    - apply bind_returns in Hen.
      destruct Hen as [u [s2 [l3 [l4 [Hw [Hr _]]]]]].
      apply write_with_returns in Hw. destruct Hw as [_ [-> _]].
      unfold ret in Hr. inversion Hr; subst. simpl.
      split; [now apply find_vpn_set_enabled | reflexivity].
    - unfold ret in Hen. inversion Hen; subst. auto. }
  destruct Hmid as [Hmid Hname]. destruct (remote r) as [re rt reps|d].
  - unfold ret in H. inversion H; subst. auto.
  - apply bind_returns in H. destruct H as [st [s2 [l3 [l4 [Hw [Hr _]]]]]].
    apply write_with_returns in Hw. destruct Hw as [_ [-> _]].
    unfold ret in Hr. inversion Hr; subst. auto.
Qed.

(** What a present run that is applied returns is the Route VPN element of
    the module's name on the server it leaves. *)
Lemma apply_present_returns (p : params) (rbvpn : option RouteVPNElement)
    (r : resolution) (s s' : smc) (res : results) (calls : list call) :
  apply_present p rbvpn r s = (inr res, s', calls) ->
  check_mode p = false ->
  find_vpn (name p) s = rbvpn ->
  exists v,
    vpn_state res = StateData v /\ rv_name v = name p
    /\ find_vpn (name p) s' = Some v
    /\ (rbvpn = None -> In (CreateIpsecTunnel (rv_definition v)) calls).
Proof.
  unfold apply_present. intros H Hcheck Hfind.
  apply try_except_returns in H. rewrite Hcheck in H.
  apply bind_returns in H. destruct H as [[v ch] [s1 [l1 [l2 [Hdone [H ->]]]]]].
  unfold ret in H. inversion H; subst. clear H. exists v. cbn [vpn_state fst].
  destruct (find_vpn (name p) s) as [old|] eqn:Hold.
  - apply update_vpn_returns in Hdone; [|assumption].
    destruct Hdone as [Hnew Hname]. repeat split; try assumption.
    + rewrite Hname. now apply find_vpn_name in Hold.
    + discriminate.
  - apply create_vpn_returns in Hdone; [|assumption].
    destruct Hdone as [_ [Hname [Hnew Hin]]]. repeat split; try assumption.
    intros _. apply in_or_app. now left.
Qed.

End RouteVPNElements.

Section ResultState.

Import RouteVPN.

(** C3, as the code has it: a run that returns has a [changed] flag and a
    [state]; after an absent run [state] is the empty list the module
    starts with; after a present run that is applied (not in check mode,
    not the disable short circuit) [state] is the Route VPN element of the
    module's name as the server then holds it. *)
Theorem state_is_snapshot_when_applied (p : params) (s s' : smc)
    (res : results) (calls : list call) :
  run p s = (Returned res, s', calls) ->
  (state p = absent -> vpn_state res = StateInit)
  /\ (state p = present -> check_mode p = false ->
      disable_requested p (find_vpn (name p) s) = false ->
      exists v,
        vpn_state res = StateData v /\ rv_name v = name p
        /\ find_vpn (name p) s' = Some v).
Proof.
  intros Hrun. apply run_inv in Hrun. destruct Hrun as [r [Hexec [Hret _]]].
  assert (Hr : r = inr res) by (now apply Hret). subst r. clear Hret. split.
  - intros Hstate. unfold exec_module in Hexec. apply bind_returns in Hexec.
    destruct Hexec as [rbvpn [s1 [l1 [l2 [_ [H _]]]]]].
    rewrite Hstate in H. unfold apply_absent in H.
    apply try_except_returns in H. destruct rbvpn.
    + apply bind_returns in H. destruct H as [u [s2 [l3 [l4 [_ [H _]]]]]].
      unfold ret in H. now inversion H.
    + unfold ret in H. now inversion H.
  - intros Hstate Hcheck Hdis.
    rewrite exec_module_present in Hexec by assumption.
    destruct (resolve p s) as [[[e|r] s1] l1] eqn:Hres; [discriminate|].
    apply resolve_reads_only in Hres. destruct Hres as [-> _].
    destruct (apply_present p (find_vpn (name p) s) r s)
      as [[out s2] l2] eqn:Happly.
    inversion Hexec; subst. clear Hexec.
    apply apply_present_returns in Happly; auto.
    destruct Happly as [v [Hv [Hname [Hfind _]]]]. eauto.
Qed.

Lemma state_is_snapshot_when_applied_witness :
  exists v,
    v = new_vpn
          {| vpn_name := "myrbvpn";
             local_endpoint :=
               create_ipsec_endpoint (InternalGatewayOf "newcluster")
                                     (Some "1001");
             remote_endpoint :=
               create_ipsec_endpoint (InternalGatewayOf "myfw") (Some "1000");
             vpn_preshared_key := Some "modkey";
             vpn_profile := None |}
    /\ find_vpn "myrbvpn"
         (snd (fst (run (Scenario.invocation present None
                           (Scenario.managed "myfw" "1000" "0")
                           (Some "modkey") false)
                        (Scenario.server []))))
       = Some v.
Proof.
  destruct (state_is_snapshot_when_applied
              (Scenario.invocation present None (Scenario.managed "myfw" "1000" "0")
                 (Some "modkey") false)
              (Scenario.server []) _ _ _ eq_refl) as [_ H].
  destruct (H eq_refl eq_refl eq_refl) as [v [Hv [_ Hfind]]].
  exists v. split; [now inversion Hv | exact Hfind].
Defined.

(** C3, as the specification states it, fails on the absent path: the run returns,
    and its [state] is the empty list, not an element. *)
Lemma absent_run_returns_no_snapshot :
  ~ (forall p s res s' calls,
        run p s = (Returned res, s', calls) ->
        exists v, vpn_state res = StateData v).
Proof.
  intros H.
  destruct (H (Scenario.invocation absent None (Scenario.managed "myfw" "1000" "0")
                 None false)
              (Scenario.server [Scenario.myrbvpn true]) _ _ _ eq_refl)
    as [v Hv].
  discriminate Hv.
Qed.

End ResultState.

Section PresharedKey.

Import RouteVPN.

Variable p : params.
Variable rg : gateway.
Hypothesis remote_is_rg : remote_gw p = Some rg.

Lemma creates_with_key_reads (c : call) :
  reads_only c -> Spec.creates_with_key p rg c.
Proof. destruct c; simpl; auto. discriminate. Qed.

Lemma returns_resolve_branch : returns (branch_taken rg) (resolve p).
Proof.
  intros s r s' calls H. unfold resolve in H.
  apply bind_returns in H. destruct H as [loc [s1 [l1 [l2 [_ [H _]]]]]].
  rewrite remote_is_rg in H.
  apply bind_returns in H. destruct H as [rem [s2 [l3 [l4 [Hrem [H _]]]]]].
  unfold ret in H. inversion H; subst. clear H.
  unfold branch_taken. cbn [remote].
  destruct (is_external rg);
    apply bind_returns in Hrem;
    destruct Hrem as [x [s3 [l5 [l6 [_ [H _]]]]]];
    unfold ret in H; inversion H; reflexivity.
Qed.

Lemma returns_tunnel_endpoints_key (r : resolution) :
  branch_taken rg r ->
  returns (fun te => snd te = Spec.bound_preshared_key p rg)
          (tunnel_endpoints p r).
Proof.
  intros Hbranch s te s' calls H. unfold tunnel_endpoints in H.
  apply bind_returns in H. destruct H as [gl [s1 [l1 [l2 [_ [H _]]]]]].
  cbv zeta in H.
  apply bind_returns in H. destruct H as [c1 [s2 [l3 [l4 [_ [H _]]]]]].
  unfold branch_taken in Hbranch. unfold Spec.bound_preshared_key.
  destruct (remote r) as [re rt reps|d]; rewrite Hbranch.
  - apply bind_returns in H. destruct H as [gr [s3 [l5 [l6 [_ [H _]]]]]].
    apply bind_returns in H. destruct H as [c2 [s4 [l7 [l8 [_ [H _]]]]]].
    unfold ret in H. inversion H. reflexivity.
  - apply bind_returns in H. destruct H as [st [s3 [l5 [l6 [_ [H _]]]]]].
    rewrite remote_is_rg in H.
    destruct (gw_preshared_key rg); [|discriminate].
    unfold ret in H. inversion H. reflexivity.
Qed.

Lemma create_vpn_with_key (r : resolution) :
  branch_taken rg r ->
  respects (fun _ _ => True) (Spec.creates_with_key p rg) (create_vpn p r).
Proof.
  intros Hbranch. unfold create_vpn.
  apply respects_bind_returns
    with (Q := fun te => snd te = Spec.bound_preshared_key p rg); auto.
  - apply respects_tunnel_endpoints;
      auto using creates_with_key_reads; intros; exact Logic.I.
  - now apply returns_tunnel_endpoints_key.
  - intros te Hte. cbv zeta. apply respects_bind; auto.
    + apply respects_write_with; auto. simpl. auto.
    + intros v. apply respects_ret; auto.
Qed.

Lemma apply_present_with_key (rbvpn : option RouteVPNElement)
    (r : resolution) :
  branch_taken rg r ->
  respects (fun _ _ => True) (Spec.creates_with_key p rg)
           (apply_present p rbvpn r).
Proof.
  intros Hbranch. unfold apply_present.
  apply respects_try_except; auto.
  - destruct (check_mode p); [apply respects_ret; auto|].
    apply respects_bind; auto; [|intros; apply respects_ret; auto].
    destruct rbvpn as [v|]; [|now apply create_vpn_with_key].
    apply respects_update_vpn;
      auto using creates_with_key_reads; intros; exact Logic.I.
  - intros err. apply respects_fail; auto.
Qed.

Lemma exec_module_with_key :
  respects (fun _ _ => True) (Spec.creates_with_key p rg) (exec_module p).
Proof.
  unfold exec_module. apply respects_bind; auto.
  { apply respects_read; auto using creates_with_key_reads. reflexivity. }
  intros rbvpn. destruct (state p).
  - destruct (disable_requested p rbvpn).
    + apply respects_bind; auto; [|intros; apply respects_ret; auto].
      apply respects_write; auto. exact Logic.I.
    + apply respects_bind_returns with (Q := branch_taken rg); auto.
      * apply respects_resolve; auto using creates_with_key_reads.
      * apply returns_resolve_branch.
      * intros r Hr. now apply apply_present_with_key.
  - unfold apply_absent. apply respects_try_except; auto.
    + destruct rbvpn; [|apply respects_ret; auto].
      apply respects_bind; auto; [|intros; apply respects_ret; auto].
      apply respects_write; auto. exact Logic.I.
    + intros err. apply respects_fail; auto.
Qed.

End PresharedKey.

Section PresharedKeyBound.

Import RouteVPN.

(** C9: every [create_ipsec_tunnel] call of a run creates the Route VPN of
    the module's name with, as preshared key, the [preshared_key] of the
    remote gateway when it is an external gateway, and the module's
    [preshared_key] (which may be absent) when it is a managed engine; and
    a present run that is applied with no Route VPN of that name on the
    server and returns has made such a call, for the element it returns
    and leaves on the server. *)
Theorem created_vpn_binds_gateway_key (p : params) (rg : gateway)
    (s s' : smc) (out : outcome results) (calls : list call) :
  remote_gw p = Some rg ->
  run p s = (out, s', calls) ->
  (forall args,
      In (CreateIpsecTunnel args) calls ->
      vpn_name args = name p
      /\ vpn_preshared_key args = Spec.bound_preshared_key p rg)
  /\ (forall res,
         out = Returned res ->
         state p = present -> check_mode p = false ->
         find_vpn (name p) s = None ->
         exists v,
           vpn_state res = StateData v
           /\ find_vpn (name p) s' = Some v
           /\ In (CreateIpsecTunnel (rv_definition v)) calls
           /\ vpn_preshared_key (rv_definition v)
              = Spec.bound_preshared_key p rg).
Proof.
  intros Hrg Hrun. apply run_inv in Hrun. destruct Hrun as [r [Hexec [Hret _]]].
  assert (Hcalls : forall args,
             In (CreateIpsecTunnel args) calls ->
             vpn_name args = name p
             /\ vpn_preshared_key args = Spec.bound_preshared_key p rg).
  { intros args Hin.
    destruct (respects_run _ _ _ _ _ _ _ (exec_module_with_key p rg Hrg) Hexec)
      as [_ Hall].
    rewrite Forall_forall in Hall. exact (Hall _ Hin). }
  split; [exact Hcalls|].
  intros res Hout Hstate Hcheck Hnone. apply Hret in Hout. subst r.
  rewrite exec_module_present in Hexec;
    [|assumption | now rewrite Hnone].
  destruct (resolve p s) as [[[e|r] s1] l1] eqn:Hres; [discriminate|].
  apply resolve_reads_only in Hres. destruct Hres as [-> _].
  destruct (apply_present p (find_vpn (name p) s) r s)
    as [[out2 s2] l2] eqn:Happly.
  inversion Hexec; subst. clear Hexec.
  apply apply_present_returns in Happly; auto.
  destruct Happly as [v [Hv [_ [Hfind Hin]]]].
  assert (Hmade : In (CreateIpsecTunnel (rv_definition v))
                     (FetchElement (name p) :: l1 ++ l2)).
  { right. apply in_or_app. right. now apply Hin. }
  exists v. repeat split; try assumption.
  now apply Hcalls.
Qed.

Lemma created_vpn_binds_gateway_key_witness :
  (exists v,
      find_vpn "myrbvpn"
        (snd (fst (run (Scenario.invocation present None
                          (Scenario.extgw3 (Some "extkey"))
                          (Some "modkey") false)
                       (Scenario.server []))))
      = Some v
      /\ vpn_preshared_key (rv_definition v) = Some "extkey")
  /\ (exists v,
         find_vpn "myrbvpn"
           (snd (fst (run (Scenario.invocation present None
                             (Scenario.managed "myfw" "1000" "0")
                             (Some "modkey") false)
                          (Scenario.server []))))
         = Some v
         /\ vpn_preshared_key (rv_definition v) = Some "modkey").
Proof.
  split.
  - destruct (created_vpn_binds_gateway_key
                (Scenario.invocation present None (Scenario.extgw3 (Some "extkey"))
                   (Some "modkey") false)
                (Scenario.extgw3 (Some "extkey"))
                (Scenario.server []) _ _ _ eq_refl eq_refl) as [_ H].
    destruct (H _ eq_refl eq_refl eq_refl eq_refl) as [v [_ [Hfind [_ Hkey]]]].
    exists v. split; [exact Hfind | exact Hkey].
  - destruct (created_vpn_binds_gateway_key
                (Scenario.invocation present None
                   (Scenario.managed "myfw" "1000" "0") (Some "modkey") false)
                (Scenario.managed "myfw" "1000" "0")
                (Scenario.server []) _ _ _ eq_refl eq_refl) as [_ H].
    destruct (H _ eq_refl eq_refl eq_refl eq_refl) as [v [_ [Hfind [_ Hkey]]]].
    exists v. split; [exact Hfind | exact Hkey].
Defined.

End PresharedKeyBound.

(** *** Validation of an external gateway *)

Section ExternalGatewayValidation.

Import RouteVPN.

Lemma fails_softly_ret {A : Type} (a : A) : fails_softly (ret a).
Proof. intros s. exact Logic.I. Qed.

Lemma fails_softly_fail {A : Type} (m : msg) : fails_softly (@fail A m).
Proof. intros s. exact Logic.I. Qed.

Lemma fails_softly_read {A : Type} (c : call) (answer : smc -> A) :
  fails_softly (read c answer).
Proof. intros s. exact Logic.I. Qed.

Lemma fails_softly_bind {A B : Type} (m : M A) (f : A -> M B) :
  fails_softly m -> (forall a, fails_softly (f a)) -> fails_softly (bind m f).
Proof.
  intros Hm Hf s. unfold bind. specialize (Hm s).
  destruct (m s) as [[[[x|x|x]|a] s1] l1]; try contradiction; [exact Logic.I|].
  specialize (Hf a s1). destruct (f a s1) as [[[[x|x|x]|b] s2] l2];
    try contradiction; exact Logic.I.
Qed.

Lemma fails_softly_endpoints_of_addresses (e : Engine) (addrs : list string) :
  forall acc, fails_softly (endpoints_of_addresses e addrs acc).
Proof.
  induction addrs as [|a rest IH]; intros acc; simpl.
  - apply fails_softly_ret.
  - apply fails_softly_bind; [apply fails_softly_read|].
    intros [ep|]; [|apply IH].
    apply fails_softly_bind; [apply fails_softly_read | intros; apply IH].
Qed.

Lemma fails_softly_get_ipsec_endpoint (e : Engine) (id address : option string) :
  fails_softly (get_ipsec_endpoint e id address).
Proof.
  unfold get_ipsec_endpoint. apply fails_softly_bind.
  - intros s. unfold try_except, interface_get, bind, read.
    destruct id as [i|]; [destruct (find _ (interface e))|]; exact Logic.I.
  - intros iface. apply fails_softly_bind.
    + destruct (Py.nonempty address).
      * apply fails_softly_bind;
          [apply fails_softly_read | intros; apply fails_softly_ret].
      * apply fails_softly_endpoints_of_addresses.
    + intros [|ep eps]; [apply fails_softly_fail | apply fails_softly_ret].
Qed.

Lemma fails_softly_resolve_managed (g : gateway) :
  fails_softly (resolve_managed (Some g)).
Proof.
  unfold resolve_managed, get_managed_gateway.
  apply fails_softly_bind.
  - destruct (gw_name g), (gw_tunnel_interface g), (gw_interface_id g);
      try apply fails_softly_fail.
    apply fails_softly_bind; [apply fails_softly_read|].
    intros [engine|]; [apply fails_softly_ret | apply fails_softly_fail].
  - intros engine. apply fails_softly_bind.
    + unfold get_tunnel_interface.
      apply fails_softly_bind; [apply fails_softly_read|].
      intros tis. destruct (find _ tis);
        [apply fails_softly_ret | apply fails_softly_fail].
    + intros tunnel. apply fails_softly_bind;
        [apply fails_softly_get_ipsec_endpoint | intros; apply fails_softly_ret].
Qed.

Lemma dict_get_has {V : Type} (d : dict V) (key : string) :
  dict_get d key = None <-> dict_has d key = false.
Proof.
  unfold dict_get, dict_has. induction d as [|kv rest IH]; simpl.
  - tauto.
  - destruct (fst kv =? key); simpl; [split; discriminate | exact IH].
Qed.

(** An entry that lacks [name], [address] or [connection_type] makes the
    first loop over the external endpoints fail, before any call. *)
Lemma connection_types_fails (eps : list endpoint) (ep : endpoint) (s : smc) :
  In ep eps ->
  dict_has ep "name" = false \/ dict_has ep "address" = false
  \/ dict_has ep "connection_type" = false ->
  exists m,
    connection_types eps s = (inl (ModuleFail m), s, [])
    /\ Spec.external_gateway_message m.
Proof.
  intros Hin Hbad. induction eps as [|x rest IH]; [contradiction|]. simpl.
  destruct (negb (dict_has x "name") || negb (dict_has x "address")) eqn:Hna;
    [eexists; split; [reflexivity | right; left; reflexivity]|].
  destruct (dict_get x "connection_type") as [ctype|] eqn:Hct;
    [|eexists; split; [reflexivity | right; right; reflexivity]].
  apply orb_false_elim in Hna. destruct Hna as [Hn Ha].
  apply negb_false_iff in Hn, Ha.
  destruct Hin as [->|Hin].
  - destruct Hbad as [H|[H|H]]; try congruence.
    apply dict_get_has in H. congruence.
  - destruct (IH Hin) as [m [Hm Hmsg]]. exists m. split; [|exact Hmsg].
    unfold bind. now rewrite Hm.
Qed.

Lemma resolve_external_gateway_fails (rg : gateway) (s : smc) :
  Spec.incomplete_external_gateway rg ->
  exists m,
    resolve_external_gateway rg s = (inl (ModuleFail m), s, [])
    /\ Spec.external_gateway_message m.
Proof.
  intros Hinc. unfold Spec.incomplete_external_gateway in Hinc.
  unfold resolve_external_gateway.
  destruct (gw_name rg) as [n|];
    [|eexists; split; [reflexivity | left; exists "name"; simpl; auto]].
  destruct (gw_preshared_key rg) as [k|];
    [|eexists; split; [reflexivity | left; exists "preshared_key"; simpl; auto]].
  destruct (gw_external_endpoint rg) as [eps|];
    [|eexists; split;
      [reflexivity | left; exists "external_endpoint"; simpl; auto]].
  destruct Hinc as [H|[H|[H|[eps' [ep [Heps [Hin Hbad]]]]]]]; try discriminate.
  inversion Heps; subst eps'.
  destruct (connection_types_fails eps ep s Hin Hbad) as [m [Hm Hmsg]].
  exists m. split; [|exact Hmsg]. unfold bind. now rewrite Hm.
Qed.

(** With a local gateway given and an incomplete external gateway as the
    remote one, resolution fails; past the local gateway, it fails with a
    message of the validation. *)
Lemma resolve_incomplete_fails (p : params) (lg rg : gateway) (s : smc) :
  local_gw p = Some lg -> remote_gw p = Some rg ->
  gw_type rg = Some "external_gateway" ->
  Spec.incomplete_external_gateway rg ->
  exists m calls,
    resolve p s = (inl (ModuleFail m), s, calls)
    /\ (forall loc s1 l1,
           resolve_managed (local_gw p) s = (inr loc, s1, l1) ->
           Spec.external_gateway_message m).
Proof.
  intros Hlg Hrg Htype Hinc.
  destruct (resolve p s) as [[r s1] calls] eqn:Hres.
  pose proof (resolve_reads_only _ _ _ _ _ Hres) as [-> _].
  assert (Hext : is_external rg = true).
  { unfold is_external. rewrite Htype. apply String.eqb_refl. }
  unfold resolve in Hres. rewrite Hlg, Hrg, Hext in Hres.
  unfold bind at 1 in Hres. rewrite Hlg.
  pose proof (fails_softly_resolve_managed lg s) as Hsoft.
  destruct (resolve_managed (Some lg) s) as [[[[m|m|m]|loc] s1] l1];
    try contradiction.
  - inversion Hres; subst. exists m, calls. split; [reflexivity|].
    intros loc s2 l2 H. discriminate H.
  - destruct (resolve_external_gateway_fails rg s1 Hinc) as [m [Hm Hmsg]].
    unfold bind in Hres. rewrite Hm in Hres. inversion Hres; subst.
    exists m. eexists. split; [reflexivity|]. intros; exact Hmsg.
Qed.

(** C6, as the code has it: on a present run that is not the disable short
    circuit, with a local gateway given, a remote gateway of type
    [external_gateway] that lacks [name], [preshared_key] or
    [external_endpoint], or has an external endpoint without [name],
    [address] or [connection_type], makes the module fail with a message,
    the server left as it was and no write made; the message is the one of
    the local gateway when that one does not resolve, and otherwise names
    the missing field or states what an external endpoint must have. *)
Theorem incomplete_external_gateway_fails (p : params) (lg rg : gateway)
    (s : smc) :
  state p = present ->
  local_gw p = Some lg -> remote_gw p = Some rg ->
  gw_type rg = Some "external_gateway" ->
  Spec.incomplete_external_gateway rg ->
  disable_requested p (find_vpn (name p) s) = false ->
  exists m calls,
    run p s = (Failed m, s, calls)
    /\ Forall reads_only calls
    /\ (forall loc s1 l1,
           resolve_managed (local_gw p) s = (inr loc, s1, l1) ->
           Spec.external_gateway_message m).
Proof.
  intros Hstate Hlg Hrg Htype Hinc Hdis.
  destruct (resolve_incomplete_fails p lg rg s Hlg Hrg Htype Hinc)
    as [m [calls [Hres Hmsg]]].
  exists m, (FetchElement (name p) :: calls). unfold run.
  rewrite exec_module_present by assumption. rewrite Hres.
  split; [reflexivity|]. split; [|exact Hmsg].
  apply resolve_reads_only in Hres. destruct Hres as [_ Hcalls].
  constructor; [reflexivity | assumption].
Qed.

Lemma incomplete_external_gateway_fails_witness :
  exists calls,
    run (Scenario.invocation present None (Scenario.extgw3 None) (Some "modkey") false)
        (Scenario.server [])
    = (Failed
         [Lit "Missing required field for the external endpoint configuration: ";
          Arg "preshared_key"],
       Scenario.server [], calls)
    /\ Forall reads_only calls.
Proof.
  destruct (incomplete_external_gateway_fails
              (Scenario.invocation present None (Scenario.extgw3 None)
                 (Some "modkey") false)
              (Scenario.managed "newcluster" "1001" "1")
              (Scenario.extgw3 None) (Scenario.server []))
    as [m [calls [Hrun [Hreads _]]]]; try reflexivity.
  - right. left. reflexivity.
  - exists calls. split; [|exact Hreads].
    rewrite Hrun. f_equal. f_equal.
    assert (H : fst (fst (run (Scenario.invocation present None (Scenario.extgw3 None)
                                 (Some "modkey") false)
                              (Scenario.server [])))
                = Failed m) by now rewrite Hrun.
    vm_compute in H. inversion H. reflexivity.
Defined.

(** C6, as the specification states it, fails on the disable short circuit: the
    remote gateway is an external gateway without [preshared_key], and the
    run returns. *)
Lemma disable_skips_external_gateway_validation :
  ~ (forall p rg s,
        state p = present ->
        remote_gw p = Some rg ->
        gw_type rg = Some "external_gateway" ->
        Spec.incomplete_external_gateway rg ->
        exists m, fst (fst (run p s)) = Failed m).
Proof.
  intros H.
  destruct (H (Scenario.invocation present (Some false) (Scenario.extgw3 None)
                 (Some "modkey") false)
              (Scenario.extgw3 None)
              (Scenario.server [Scenario.myrbvpn true])
              eq_refl eq_refl eq_refl) as [m Hm].
  - right. left. reflexivity.
  - discriminate Hm.
Qed.

End ExternalGatewayValidation.

(** * More properties *)

(** ** The NAT rule query *)

Lemma split_length (sep : ascii) (s : string) :
  List.length (Py.split sep s) = S (Chars.count sep s).
Proof.
  induction s as [|c rest IH]; simpl; [reflexivity|].
  destruct (Ascii.eqb c sep); simpl; [now rewrite IH|].
  destruct (Py.split sep rest) as [|tok toks]; [discriminate IH | exact IH].
Qed.

Lemma slice_length {A : Type} (l : list A) (i j : Z) :
  List.length (Py.slice l i j)
  = Z.to_nat (Py.adjust_index (Z.of_nat (List.length l)) j
              - Py.adjust_index (Z.of_nat (List.length l)) i).
Proof.
  unfold Py.slice. rewrite length_firstn, length_skipn.
  unfold Py.adjust_index.
  destruct (Z.ltb_spec i 0), (Z.ltb_spec j 0); lia.
Qed.

Section NatRuleFactsMore.

Import NatRuleFacts.

Variable int : string -> option Z.
Variable Yaml : Type.
Variable to_yaml : Rule -> list string -> Yaml.
Variable search_by_type : params -> list Policy.

Local Abbreviation exec_module :=
  (NatRuleFacts.exec_module int Yaml to_yaml search_by_type).

Lemma exec_module_returns (p : params) (res : results Yaml)
    (calls : list call) :
  exec_module p = (Returned res, calls) ->
  exists pol result,
    invalid_expand p = None /\ search_by_type p = [pol]
    /\ fst (select_rules int p pol) = inr result
    /\ res = [{| policy := policy_name pol;
                 rules := render Yaml to_yaml p result |}].
Proof.
  unfold NatRuleFacts.exec_module.
  destruct (invalid_expand p); [discriminate|].
  destruct (search_by_type p) as [|pol [|pol' rest]]; try discriminate.
  destruct (select_rules int p pol) as [[err|result] l] eqn:Hsel;
    [discriminate|].
  intros H. inversion H; subst. exists pol, result. repeat split.
  now rewrite Hsel.
Qed.

Lemma render_filtered_types (p : params) (result : list Rule) :
  Py.truthy (search p) || Py.truthy (rule_range p) = true ->
  as_yaml p <> Some true ->
  render Yaml to_yaml p result = map compact (List.filter is_nat_rule result)
  /\ Forall (fun o => More.record_type o = Some "fw_ipv4_nat_rule")
            (render Yaml to_yaml p result).
Proof.
  intros Hgiven Hyaml.
  assert (Heq : render Yaml to_yaml p result
                = map compact (List.filter is_nat_rule result)).
  { unfold render. rewrite Hgiven.
    destruct (as_yaml p) as [[|]|]; [now elim Hyaml| |]; reflexivity. }
  split; [exact Heq|]. rewrite Heq. apply Forall_forall. intros o Ho.
  apply in_map_iff in Ho. destruct Ho as [r [<- Hr]].
  apply filter_In in Hr. destruct Hr as [_ Hr].
  unfold is_nat_rule in Hr. apply String.eqb_eq in Hr.
  simpl. now rewrite Hr.
Qed.

(** X1: when a search string or a range is given, every compact record
    that the query returns has the type [fw_ipv4_nat_rule]: the rules of
    another type are dropped; the query without search and range drops
    nothing: it returns one record per element of [fw_ipv4_nat_rules],
    whatever its type, numbered 1, 2, ... in order. *)
Theorem typeof_filter_on_search_and_range_only (p : params)
    (res : results Yaml) (calls : list call) :
  exec_module p = (Returned res, calls) ->
  as_yaml p <> Some true ->
  exists pol records,
    search_by_type p = [pol]
    /\ res = [{| policy := policy_name pol; rules := records |}]
    /\ (Py.truthy (search p) || Py.truthy (rule_range p) = true ->
        Forall (fun o => More.record_type o = Some "fw_ipv4_nat_rule") records)
    /\ (Py.truthy (search p) || Py.truthy (rule_range p) = false ->
        records
        = map compact_at
              (combine (seq 1 (List.length (fw_ipv4_nat_rules pol)))
                       (fw_ipv4_nat_rules pol))
        /\ List.length records = List.length (fw_ipv4_nat_rules pol)
        /\ map position records
           = map Some (seq 1 (List.length (fw_ipv4_nat_rules pol)))).
Proof.
  intros Hrun Hyaml. apply exec_module_returns in Hrun.
  destruct Hrun as [pol [result [_ [Hpol [Hsel ->]]]]].
  exists pol, (render Yaml to_yaml p result).
  split; [assumption|]. split; [reflexivity|]. split.
  { intros Hgiven. now apply render_filtered_types. }
  intros H. repeat split.
  - assert (Hfull : result = fw_ipv4_nat_rules pol).
    { rewrite !truthy_nonempty in H. unfold select_rules in Hsel.
      destruct (Py.nonempty (search p)); [discriminate|].
      destruct (Py.nonempty (rule_range p)); [discriminate|].
      simpl in Hsel. now inversion Hsel. }
    subst result. unfold render. rewrite H.
    destruct (as_yaml p) as [[|]|]; [now elim Hyaml| |];
      now rewrite enumerate_combine.
  - unfold render. rewrite H.
    assert (Hfull : result = fw_ipv4_nat_rules pol).
    { rewrite !truthy_nonempty in H. unfold select_rules in Hsel.
      destruct (Py.nonempty (search p)); [discriminate|].
      destruct (Py.nonempty (rule_range p)); [discriminate|].
      simpl in Hsel. now inversion Hsel. }
    subst result.
    destruct (as_yaml p) as [[|]|]; [now elim Hyaml| |];
      rewrite length_map, enumerate_combine, length_combine, length_seq;
      apply Nat.min_id.
  - unfold render. rewrite H.
    assert (Hfull : result = fw_ipv4_nat_rules pol).
    { rewrite !truthy_nonempty in H. unfold select_rules in Hsel.
      destruct (Py.nonempty (search p)); [discriminate|].
      destruct (Py.nonempty (rule_range p)); [discriminate|].
      simpl in Hsel. now inversion Hsel. }
    subst result.
    assert (Hpos : forall (l : list Rule) k,
               map position (map (@compact_at Yaml) (Py.enumerate k l))
               = map Some (seq k (List.length l))).
    { induction l as [|x rest IH]; intros k; simpl; [reflexivity|].
      now rewrite IH. }
    destruct (as_yaml p) as [[|]|]; [now elim Hyaml| |]; apply Hpos.
Qed.

(** X2: the query returns only when the filter finds exactly one policy.
    With none it fails with the filter in the message, with several it
    fails with the list of their names; in both cases after the one policy
    lookup, without reading a rule, whatever [search] and [rule_range]
    are. *)
Theorem query_needs_exactly_one_policy (p : params) :
  invalid_expand p = None ->
  (search_by_type p = [] ->
   exec_module p
   = (Failed [Lit "Policy specified could not be found: "; Arg (filter p)],
      [SearchByType (filter p)]))
  /\ (forall a b rest,
         search_by_type p = a :: b :: rest ->
         exec_module p
         = (Failed [Lit "Multiple policies found with the given search filter: ";
                    ArgList (policy_name a :: policy_name b
                             :: map policy_name rest);
                    Lit " Use exact_match or case_sensitive to narrow the search"],
            [SearchByType (filter p)]))
  /\ (forall res calls,
         exec_module p = (Returned res, calls) ->
         exists pol,
           search_by_type p = [pol]
           /\ map (policy Yaml) res = [policy_name pol]).
Proof.
  intros Hexp. repeat split.
  - intros Hnone. unfold NatRuleFacts.exec_module. now rewrite Hexp, Hnone.
  - intros a b rest Hmany. unfold NatRuleFacts.exec_module.
    now rewrite Hexp, Hmany.
  - intros res calls Hrun. apply exec_module_returns in Hrun.
    destruct Hrun as [pol [result [_ [Hpol [_ ->]]]]]. eauto.
Qed.

(** X3: a range is accepted only if it has exactly one hyphen, whatever
    [int] accepts: a given range with none or with several makes the query
    fail with the value-format message, even when every token is a
    number. *)
Theorem range_needs_exactly_one_hyphen (p : params) (pol : Policy)
    (r : string) :
  invalid_expand p = None ->
  search_by_type p = [pol] ->
  Py.nonempty (search p) = None ->
  Py.nonempty (rule_range p) = Some r ->
  (forall s e, parse_range int r = Some (s, e) -> Chars.count "-"%char r = 1%nat)
  /\ (Chars.count "-"%char r <> 1%nat ->
      exec_module p = (Failed (range_error r), [SearchByType (filter p)])).
Proof.
  intros Hexp Hpol Hsearch Hrange.
  assert (Hcount : forall s e,
             parse_range int r = Some (s, e) -> Chars.count "-"%char r = 1%nat).
  { intros s e. unfold parse_range.
    pose proof (split_length "-"%char r) as Hlen.
    destruct (Py.split "-"%char r) as [|a [|b [|c rest]]]; try discriminate.
    simpl in Hlen. intros _. lia. }
  split; [exact Hcount|]. intros Hbad.
  unfold NatRuleFacts.exec_module, select_rules.
  rewrite Hexp, Hpol, Hsearch, Hrange.
  destruct (parse_range int r) as [[s e]|]; [|reflexivity].
  specialize (Hcount s e eq_refl). contradiction.
Qed.

(** X4: over a policy whose NAT rule list has [n] NAT rules, a range "s-e"
    with [1 <= s] and [0 <= e] returns [min e n - (s - 1)] records, none
    when that is negative: exactly [e - s + 1] when [s <= e <= n]. *)
Theorem range_returns_that_many_rules (p : params) (pol : Policy)
    (r a b : string) (s e : Z) :
  invalid_expand p = None ->
  search_by_type p = [pol] ->
  Forall (fun x => typeof x = "fw_ipv4_nat_rule") (fw_ipv4_nat_rules pol) ->
  Py.nonempty (search p) = None ->
  Py.nonempty (rule_range p) = Some r ->
  Py.split "-"%char r = [a; b] -> int a = Some s -> int b = Some e ->
  (1 <= s)%Z -> (0 <= e)%Z ->
  exists records,
    fst (exec_module p)
    = Returned [{| policy := policy_name pol; rules := records |}]
    /\ Z.of_nat (List.length records)
       = Z.max 0 (Z.min e (Z.of_nat (List.length (fw_ipv4_nat_rules pol)))
                  - (s - 1))
    /\ ((s <= e <= Z.of_nat (List.length (fw_ipv4_nat_rules pol)))%Z ->
        Z.of_nat (List.length records) = (e - s + 1)%Z).
Proof.
  intros Hexp Hpol Hnat Hsearch Hrange Hsplit Ha Hb Hs He.
  rewrite (exec_module_range int Yaml to_yaml search_by_type p pol r a b s e)
    by assumption.
  cbn [fst]. eexists. split; [reflexivity|].
  assert (Hlen : List.length
                   (render Yaml to_yaml p
                      (Py.slice (fw_ipv4_nat_rules pol) (s - 1) e))
                 = List.length (Py.slice (fw_ipv4_nat_rules pol) (s - 1) e)).
  { unfold render. rewrite !truthy_nonempty, Hsearch, Hrange.
    rewrite slice_positions by assumption.
    rewrite filter_nat_rules by (apply Forall_positions; assumption).
    destruct (as_yaml p) as [[|]|]; cbn [orb]; apply length_map. }
  rewrite Hlen, slice_length. unfold Py.adjust_index.
  destruct (Z.ltb_spec (s - 1) 0), (Z.ltb_spec e 0); try lia.
Qed.

(** X5: a range that starts at 0 does not start at the first rule: its
    slice is [[-1:e]], which is empty when [e] is less than the number of
    rules, and the last rule alone otherwise. *)
Theorem range_from_zero_counts_from_the_end (p : params) (pol : Policy)
    (r a b : string) (e : Z) :
  invalid_expand p = None ->
  search_by_type p = [pol] ->
  Py.nonempty (search p) = None ->
  Py.nonempty (rule_range p) = Some r ->
  Py.split "-"%char r = [a; b] -> int a = Some 0%Z -> int b = Some e ->
  (0 <= e)%Z ->
  fst (exec_module p)
  = Returned
      [{| policy := policy_name pol;
          rules :=
            render Yaml to_yaml p
              (if (Z.of_nat (List.length (fw_ipv4_nat_rules pol)) <=? e)%Z
               then skipn (List.length (fw_ipv4_nat_rules pol) - 1)
                          (fw_ipv4_nat_rules pol)
               else []) |}].
Proof.
  intros Hexp Hpol Hsearch Hrange Hsplit Ha Hb He.
  rewrite (exec_module_range int Yaml to_yaml search_by_type p pol r a b 0 e)
    by assumption.
  cbn [fst]. do 4 f_equal.
  unfold Py.slice, Py.adjust_index.
  change (0 - 1)%Z with (-1)%Z. change (-1 <? 0)%Z with true. cbv iota.
  set (l := fw_ipv4_nat_rules pol). set (n := Z.of_nat (List.length l)).
  assert (Hn : (0 <= n)%Z) by (subst n; lia).
  destruct (Z.ltb_spec e 0) as [?|_]; [lia|].
  destruct (Z.leb_spec n e) as [Hle|Hgt].
  - replace (Z.to_nat (Z.max (-1 + n) 0)) with (List.length l - 1)%nat
      by (subst n; lia).
    apply firstn_all2. rewrite length_skipn. subst n. lia.
  - replace (Z.to_nat (Z.min e n - Z.max (-1 + n) 0)) with 0%nat by lia.
    reflexivity.
Qed.

End NatRuleFactsMore.

Lemma typeof_filter_on_search_and_range_only_witness :
  (exists pol records,
      fst (More.mixed_rule_facts (More.searching (Some "R")))
      = Returned [{| NatRuleFacts.policy := NatRuleFacts.policy_name pol;
                     NatRuleFacts.rules := records |}]
      /\ Forall (fun o => More.record_type o = Some "fw_ipv4_nat_rule") records)
  /\ (exists pol records,
         fst (More.mixed_rule_facts (More.searching None))
         = Returned [{| NatRuleFacts.policy := NatRuleFacts.policy_name pol;
                        NatRuleFacts.rules := records |}]
         /\ List.length records = 3%nat).
Proof.
  split.
  - destruct (typeof_filter_on_search_and_range_only Py.int_ascii string
                Scenario.to_yaml_name (fun _ => [More.MixedPolicy])
                (More.searching (Some "R")) _ _ eq_refl)
      as [pol [records [_ [Hres [Hfiltered _]]]]]; [discriminate|].
    exists pol, records. split; [now rewrite <- Hres | now apply Hfiltered].
  - destruct (typeof_filter_on_search_and_range_only Py.int_ascii string
                Scenario.to_yaml_name (fun _ => [More.MixedPolicy])
                (More.searching None) _ _ eq_refl)
      as [pol [records [Hpol [Hres [_ Hfull]]]]]; [discriminate|].
    exists pol, records. split; [now rewrite <- Hres|].
    destruct (Hfull eq_refl) as [_ [Hlen _]]. rewrite Hlen.
    inversion Hpol. reflexivity.
Defined.

Lemma query_needs_exactly_one_policy_witness :
  NatRuleFacts.exec_module Py.int_ascii string Scenario.to_yaml_name
    (More.found_policies 0) (Scenario.query (Some "1-2") [])
  = (Failed [Lit "Policy specified could not be found: "; Arg "TestPolicy"],
     [NatRuleFacts.SearchByType "TestPolicy"])
  /\ NatRuleFacts.exec_module Py.int_ascii string Scenario.to_yaml_name
       (More.found_policies 2) (Scenario.query (Some "a-b") [])
     = (Failed [Lit "Multiple policies found with the given search filter: ";
                ArgList ["TestPolicy"; "TestPolicy"];
                Lit " Use exact_match or case_sensitive to narrow the search"],
        [NatRuleFacts.SearchByType "TestPolicy"]).
Proof.
  split.
  - apply (query_needs_exactly_one_policy Py.int_ascii string
             Scenario.to_yaml_name (More.found_policies 0)
             (Scenario.query (Some "1-2") []) eq_refl). reflexivity.
  - destruct (query_needs_exactly_one_policy Py.int_ascii string
                Scenario.to_yaml_name (More.found_policies 2)
                (Scenario.query (Some "a-b") []) eq_refl) as [_ [Hmany _]].
    exact (Hmany Scenario.TestPolicy Scenario.TestPolicy [] eq_refl).
Defined.

Lemma range_needs_exactly_one_hyphen_witness :
  Scenario.nat_rule_facts (Scenario.query (Some "1-2-3") [])
  = (Failed (NatRuleFacts.range_error "1-2-3"),
     [NatRuleFacts.SearchByType "TestPolicy"])
  /\ Scenario.nat_rule_facts (Scenario.query (Some "2") [])
     = (Failed (NatRuleFacts.range_error "2"),
        [NatRuleFacts.SearchByType "TestPolicy"]).
Proof.
  split.
  - apply (range_needs_exactly_one_hyphen Py.int_ascii string
             Scenario.to_yaml_name Scenario.one_policy
             (Scenario.query (Some "1-2-3") []) Scenario.TestPolicy "1-2-3"
             eq_refl eq_refl eq_refl eq_refl). discriminate.
  - apply (range_needs_exactly_one_hyphen Py.int_ascii string
             Scenario.to_yaml_name Scenario.one_policy
             (Scenario.query (Some "2") []) Scenario.TestPolicy "2"
             eq_refl eq_refl eq_refl eq_refl). discriminate.
Defined.

Lemma range_returns_that_many_rules_witness :
  exists records,
    fst (Scenario.nat_rule_facts (Scenario.query (Some "2-3") []))
    = Returned [{| NatRuleFacts.policy := "TestPolicy";
                   NatRuleFacts.rules := records |}]
    /\ Z.of_nat (List.length records) = 2%Z.
Proof.
  destruct (range_returns_that_many_rules Py.int_ascii string
              Scenario.to_yaml_name Scenario.one_policy
              (Scenario.query (Some "2-3") []) Scenario.TestPolicy
              "2-3" "2" "3" 2%Z 3%Z eq_refl eq_refl)
    as [records [Hrun [_ Hexact]]]; try reflexivity; try lia.
  - repeat constructor.
  - exists records. split; [exact Hrun|]. apply Hexact. simpl. lia.
Defined.

Lemma range_from_zero_counts_from_the_end_witness :
  fst (Scenario.nat_rule_facts (Scenario.query (Some "0-2") []))
  = Returned [{| NatRuleFacts.policy := "TestPolicy";
                 NatRuleFacts.rules := [] |}]
  /\ fst (Scenario.nat_rule_facts (Scenario.query (Some "0-3") []))
     = Returned [{| NatRuleFacts.policy := "TestPolicy";
                    NatRuleFacts.rules :=
                      [NatRuleFacts.compact (Scenario.R "R3")] |}].
Proof.
  split.
  - exact (range_from_zero_counts_from_the_end Py.int_ascii string
             Scenario.to_yaml_name Scenario.one_policy
             (Scenario.query (Some "0-2") []) Scenario.TestPolicy
             "0-2" "0" "2" 2%Z eq_refl eq_refl eq_refl eq_refl eq_refl eq_refl
             eq_refl ltac:(lia)).
  - exact (range_from_zero_counts_from_the_end Py.int_ascii string
             Scenario.to_yaml_name Scenario.one_policy
             (Scenario.query (Some "0-3") []) Scenario.TestPolicy
             "0-3" "0" "3" 3%Z eq_refl eq_refl eq_refl eq_refl eq_refl eq_refl
             eq_refl ltac:(lia)).
Defined.

(** ** Ranges read with [int_ascii] *)

Lemma split_tokens_without_separator (sep : ascii) (s : string) :
  Forall (fun tok => Chars.count sep tok = 0%nat) (Py.split sep s).
Proof.
  induction s as [|c rest IH]; simpl.
  - repeat constructor.
  - destruct (Ascii.eqb c sep) eqn:Hc.
    + constructor; [reflexivity | exact IH].
    + destruct (Py.split sep rest) as [|tok toks].
      * constructor; [|constructor]. simpl. now rewrite Hc.
      * inversion IH as [|? ? Htok Htoks]; subst. constructor; [|exact Htoks].
        simpl. rewrite Hc. exact Htok.
Qed.

Lemma digit_of_nonneg (c : ascii) (d : Z) : Py.digit_of c = Some d -> (0 <= d)%Z.
Proof.
  unfold Py.digit_of. destruct (_ && _)%bool; intros H; inversion H. lia.
Qed.

Lemma digits_nonneg (s : string) :
  forall acc prev z,
    (0 <= acc)%Z -> Py.digits acc prev s = Some z -> (0 <= z)%Z.
Proof.
  induction s as [|c rest IH]; intros acc prev z Hacc; cbn [Py.digits].
  - destruct prev; intros H; inversion H. lia.
  - destruct (Py.digit_of c) as [d|] eqn:Hd.
    + intros H. apply digit_of_nonneg in Hd. eapply IH; [|exact H]. lia.
    + destruct (Ascii.eqb c "_" && prev)%bool; [|discriminate].
      destruct rest as [|c' rest']; [discriminate|].
      destruct (Py.digit_of c'); [|discriminate].
      intros H. eapply IH; [|exact H]. assumption.
Qed.

Lemma count_lstrip (c : ascii) (s : string) :
  (Chars.count c (Py.lstrip s) <= Chars.count c s)%nat.
Proof.
  induction s as [|x rest IH]; simpl; [lia|].
  destruct (Py.is_space x); simpl; lia.
Qed.

Lemma count_rstrip (c : ascii) (s : string) :
  (Chars.count c (Py.rstrip s) <= Chars.count c s)%nat.
Proof.
  induction s as [|x rest IH]; simpl; [lia|].
  destruct (Py.rstrip rest) as [|y kept].
  - destruct (Py.is_space x); simpl in *; lia.
  - simpl in *. lia.
Qed.

(** A string that [int_ascii] reads as a negative number has a minus
    sign. *)
Lemma int_ascii_negative (s : string) (z : Z) :
  Py.int_ascii s = Some z -> (z < 0)%Z -> (1 <= Chars.count "-"%char s)%nat.
Proof.
  unfold Py.int_ascii. cbv zeta.
  destruct (Py.int_max_str_digits <? Py.digit_count (Py.rstrip (Py.lstrip s)))%Z;
    [discriminate|].
  intros Hint Hneg.
  pose proof (count_lstrip "-"%char s) as Hl.
  pose proof (count_rstrip "-"%char (Py.lstrip s)) as Hr.
  destruct (Py.rstrip (Py.lstrip s)) as [|c body] eqn:Hstripped.
  - apply digits_nonneg in Hint; lia.
  - destruct (Ascii.eqb c "-"%char) eqn:Hc.
    + simpl in Hr. rewrite Hc in Hr. lia.
    + exfalso.
      destruct c as [b0 b1 b2 b3 b4 b5 b6 b7];
        destruct b0, b1, b2, b3, b4, b5, b6, b7;
        try discriminate Hc;
        apply digits_nonneg in Hint; lia.
Qed.

(** X6: read with [int_ascii], the two numbers of a range are never
    negative: a hyphen separates, it is never a sign. *)
Theorem parsed_range_bounds_are_not_negative (r : string) (s e : Z) :
  NatRuleFacts.parse_range Py.int_ascii r = Some (s, e) ->
  (0 <= s)%Z /\ (0 <= e)%Z.
Proof.
  unfold NatRuleFacts.parse_range.
  pose proof (split_tokens_without_separator "-"%char r) as Htoks.
  destruct (Py.split "-"%char r) as [|a [|b [|c rest]]]; try discriminate.
  inversion Htoks as [|? ? Ha Hrest]; subst.
  inversion Hrest as [|? ? Hb _]; subst.
  destruct (Py.int_ascii a) as [x|] eqn:Hx; [|discriminate].
  destruct (Py.int_ascii b) as [y|] eqn:Hy; [|discriminate].
  intros H. inversion H; subst. split.
  - destruct (Z.lt_ge_cases s 0) as [Hneg|]; [|assumption].
    pose proof (int_ascii_negative a s Hx Hneg). lia.
  - destruct (Z.lt_ge_cases e 0) as [Hneg|]; [|assumption].
    pose proof (int_ascii_negative b e Hy Hneg). lia.
Qed.

Lemma parsed_range_bounds_are_not_negative_witness :
  NatRuleFacts.parse_range Py.int_ascii "1-2" = Some (1%Z, 2%Z)
  /\ (0 <= 1)%Z /\ (0 <= 2)%Z.
Proof.
  split; [reflexivity|].
  exact (parsed_range_bounds_are_not_negative "1-2" 1 2 eq_refl).
Defined.

(** ** The expanded view of a rule field *)

Section RuleFieldViews.

Import RuleFields.

Lemma dict_has_find {V : Type} (d : RouteVPN.dict V) (key : string) :
  RouteVPN.dict_has d key = false ->
  find (fun kv => fst kv =? key) d = None.
Proof.
  unfold RouteVPN.dict_has. induction d as [|kv rest IH]; simpl;
    [reflexivity|].
  destruct (fst kv =? key); [discriminate | exact IH].
Qed.

Lemma dict_get_update_same {V : Type} (d : RouteVPN.dict V) (key : string)
    (v : V) :
  RouteVPN.dict_get (RouteVPN.dict_update d key v) key = Some v.
Proof.
  unfold RouteVPN.dict_update, RouteVPN.dict_get.
  destruct (RouteVPN.dict_has d key) eqn:Hhas.
  - unfold RouteVPN.dict_has in Hhas.
    induction d as [|kv rest IH]; simpl in *; [discriminate|].
    destruct (fst kv =? key) eqn:Hk; simpl.
    + now rewrite String.eqb_refl.
    + rewrite Hk. apply IH. exact Hhas.
  - rewrite find_app_none by now apply dict_has_find.
    simpl. now rewrite String.eqb_refl.
Qed.

Lemma dict_get_update_other {V : Type} (d : RouteVPN.dict V)
    (key other : string) (v : V) :
  (key =? other) = false ->
  RouteVPN.dict_get (RouteVPN.dict_update d key v) other
  = RouteVPN.dict_get d other.
Proof.
  intros Hneq. unfold RouteVPN.dict_update, RouteVPN.dict_get.
  destruct (RouteVPN.dict_has d key).
  - f_equal. induction d as [|kv rest IH]; simpl; [reflexivity|].
    destruct (fst kv =? key) eqn:Hk; simpl.
    + rewrite Hneq. apply String.eqb_eq in Hk. rewrite Hk, Hneq. exact IH.
    + destruct (fst kv =? other); [reflexivity | exact IH].
  - f_equal. induction d as [|kv rest IH]; simpl.
    + now rewrite Hneq.
    + destruct (fst kv =? other); [reflexivity | exact IH].
Qed.

Lemma dict_update_keys {V : Type} (d : RouteVPN.dict V) (key : string) (v : V) :
  NoDup (map fst d) -> NoDup (map fst (RouteVPN.dict_update d key v)).
Proof.
  intros Hnodup. unfold RouteVPN.dict_update.
  destruct (RouteVPN.dict_has d key) eqn:Hhas.
  - replace (map fst (map (fun kv => if fst kv =? key then (key, v) else kv) d))
      with (map fst d); [assumption|].
    clear. induction d as [|kv rest IH]; simpl; [reflexivity|].
    rewrite <- IH. f_equal.
    destruct (fst kv =? key) eqn:Hk; [|reflexivity].
    apply String.eqb_eq in Hk. now rewrite Hk.
  - rewrite map_app. simpl. apply NoDup_app; [assumption | repeat constructor; auto |].
    intros k Hin [Heq|[]]. subst k.
    unfold RouteVPN.dict_has in Hhas.
    apply in_map_iff in Hin. destruct Hin as [kv [Hk Hkv]].
    assert (Hex : existsb (fun kv0 => fst kv0 =? key) d = true).
    { apply existsb_exists. exists kv. split; [assumption|].
      rewrite Hk. apply String.eqb_refl. }
    congruence.
Qed.

Lemma group_entries_get (entries : list Entry) :
  forall tmp key,
    RouteVPN.dict_get (group_entries entries tmp) key
    = match names_of key entries with
      | [] => RouteVPN.dict_get tmp key
      | names =>
          Some (match RouteVPN.dict_get tmp key with
                | Some old => old
                | None => []
                end ++ names)
      end.
Proof.
  unfold group_entries, names_of.
  induction entries as [|e rest IH]; intros tmp key; simpl; [reflexivity|].
  rewrite IH. unfold setdefault_append.
  destruct (element_type e =? key) eqn:Hk; simpl.
  - apply String.eqb_eq in Hk. subst key. rewrite dict_get_update_same.
    destruct (map name (List.filter _ rest)) as [|n names];
      [reflexivity | now rewrite <- app_assoc].
  - now rewrite dict_get_update_other.
Qed.

Lemma group_entries_keys (entries : list Entry) :
  forall tmp, NoDup (map fst tmp) ->
              NoDup (map fst (group_entries entries tmp)).
Proof.
  unfold group_entries.
  induction entries as [|e rest IH]; intros tmp Htmp; simpl; [assumption|].
  apply IH. now apply dict_update_keys.
Qed.

(** X7: the view of a rule field.  [is_any] wins over [is_none], and both
    over [expand].  A field that is expanded becomes a dict with no key
    twice, in which each element type holds exactly the names of the
    field's elements of that type, in the order of the field, where every
    engine type counts as [engine] and every type with [alias] in its name
    as [alias]; a type without element is no key.  A field that is not
    expanded is the list of its hrefs. *)
Theorem field_view_groups_names_by_type (expand : list string)
    (field : string) (f : Field) :
  (is_any f = true -> field_view expand field f = Any)
  /\ (is_any f = false -> is_none f = true ->
      field_view expand field f = NoneSet)
  /\ (is_any f = false -> is_none f = false ->
      (In field expand ->
       exists tmp,
         field_view expand field f = Expanded tmp
         /\ NoDup (map fst tmp)
         /\ forall key,
              RouteVPN.dict_get tmp key
              = match names_of key (all f) with
                | [] => None
                | names => Some names
                end)
      /\ (~ In field expand ->
          field_view expand field f = Hrefs (all_as_href f))).
Proof.
  unfold field_view. repeat split.
  - now intros ->.
  - now intros -> ->.
  - intros Hin. rewrite H, H0.
    assert (Hexp : expanded expand field = true).
    { unfold expanded. destruct expand as [|x rest]; [contradiction|].
      now apply contains_In. }
    rewrite Hexp. eexists. split; [reflexivity|]. split.
    + apply group_entries_keys. constructor.
    + intros key. rewrite group_entries_get. simpl.
      now destruct (names_of key (all f)).
  - intros Hout. rewrite H, H0.
    assert (Hexp : expanded expand field = false).
    { unfold expanded. destruct expand as [|x rest]; [reflexivity|].
      destruct (Py.contains (x :: rest) field) eqn:Hc; [|reflexivity].
      apply contains_In in Hc. contradiction. }
    now rewrite Hexp.
Qed.

End RuleFieldViews.

(** ** The network element query *)

Section NetworkElementFactsMore.

Import NetworkElementFacts.

Variable ELEMENT_TYPES : string -> option string.
Variable search_by_type : string -> params -> list Element.
Variable search_by_context : params -> list Element.
Variable Expanded : Type.
Variable element_dict_from_obj : Element -> list string -> Expanded.

Local Abbreviation exec_module :=
  (NetworkElementFacts.exec_module ELEMENT_TYPES search_by_type
     search_by_context Expanded element_dict_from_obj).

(** X8: the network element query fails exactly when its expand list has
    an entry other than [group]; and when it returns it has made one
    search, by type when an element type is given and across all types
    otherwise, and returns one record per element found, which without a
    filter is the name and type of that element. *)
Theorem element_query_fails_only_on_expand (p : params) :
  ((exists m, fst (exec_module p) = Failed m)
   <-> (exists attr, In attr (expand p) /\ attr <> "group"))
  /\ (forall res calls,
         exec_module p = (Returned res, calls) ->
         exists found,
           (calls = [SearchByContext] /\ Py.nonempty (element p) = None
            /\ found = search_by_context p
            \/ exists key entry,
                 Py.nonempty (element p) = Some key
                 /\ ELEMENT_TYPES key = Some entry
                 /\ calls = [SearchByType entry]
                 /\ found = search_by_type entry p)
           /\ List.length res = List.length found
           /\ (Py.nonempty (filter p) = None ->
               res = map (fun e => Terse Expanded (name e) (typeof e)) found)).
Proof.
  split; [split|].
  - intros [m Hm]. unfold NetworkElementFacts.exec_module in Hm.
    destruct (invalid_expand p) as [attr|] eqn:Hbad.
    + unfold invalid_expand in Hbad. apply find_some in Hbad.
      destruct Hbad as [Hin Hneg]. exists attr. split; [assumption|].
      intros ->. discriminate Hneg.
    + destruct (Py.nonempty (element p));
        [destruct (ELEMENT_TYPES s)|]; discriminate Hm.
  - intros [attr [Hin Hneq]].
    destruct (find_invalid ["group"] (expand p) attr Hin) as [bad [Hfind _]].
    { intros [H|[]]. now subst. }
    unfold NetworkElementFacts.exec_module, invalid_expand. rewrite Hfind.
    eexists. reflexivity.
  - intros res calls. unfold NetworkElementFacts.exec_module.
    destruct (invalid_expand p); [discriminate|].
    assert (Hrender : forall found,
               List.length (render Expanded element_dict_from_obj p found)
               = List.length found
               /\ (Py.nonempty (filter p) = None ->
                   render Expanded element_dict_from_obj p found
                   = map (fun e => Terse Expanded (name e) (typeof e)) found)).
    { intros found. unfold render. rewrite truthy_nonempty.
      destruct (Py.nonempty (filter p)); split;
        try apply length_map; [discriminate | reflexivity]. }
    destruct (Py.nonempty (element p)) as [key|] eqn:Hkey.
    + destruct (ELEMENT_TYPES key) as [entry|] eqn:Hentry; [|discriminate].
      intros H. inversion H; subst. exists (search_by_type entry p).
      split; [right; exists key, entry; auto | apply Hrender].
    + intros H. inversion H; subst. exists (search_by_context p).
      split; [left; auto | apply Hrender].
Qed.

End NetworkElementFactsMore.

Lemma field_view_groups_names_by_type_witness :
  exists tmp,
    RuleFields.field_view ["sources"] "sources" More.sources_field
    = RuleFields.Expanded tmp
    /\ RouteVPN.dict_get tmp "engine" = Some ["fw1"; "c1"]
    /\ RouteVPN.dict_get tmp "alias" = Some ["$$ Interface ID 0.ip"]
    /\ RouteVPN.dict_get tmp "single_fw" = None.
Proof.
  destruct (field_view_groups_names_by_type ["sources"] "sources"
              More.sources_field) as [_ [_ H]].
  destruct (H eq_refl eq_refl) as [Hexpanded _].
  destruct (Hexpanded (or_introl eq_refl)) as [tmp [Hview [_ Hget]]].
  exists tmp. split; [exact Hview|]. repeat split; rewrite Hget; reflexivity.
Defined.

Lemma element_query_fails_only_on_expand_witness :
  (exists m,
      fst (Scenario.network_element_facts (Scenario.hosts ["group"; "members"]))
      = Failed m)
  /\ exists res,
       NetworkElementFacts.exec_module Scenario.element_types
         (fun _ _ =>
            [{| NetworkElementFacts.name := "host-a";
                NetworkElementFacts.typeof := "host" |};
             {| NetworkElementFacts.name := "host-b";
                NetworkElementFacts.typeof := "host" |}])
         (fun _ => []) string (fun e _ => NetworkElementFacts.name e)
         (Scenario.hosts ["group"])
       = (Returned res, [NetworkElementFacts.SearchByType "host"])
       /\ res = [NetworkElementFacts.Terse string "host-a" "host";
                 NetworkElementFacts.Terse string "host-b" "host"].
Proof.
  split.
  - destruct (element_query_fails_only_on_expand Scenario.element_types
                (fun _ _ => []) (fun _ => []) string
                (fun e _ => NetworkElementFacts.name e)
                (Scenario.hosts ["group"; "members"])) as [[_ Hfails] _].
    apply Hfails. exists "members". split; [right; left; reflexivity|].
    discriminate.
  - eexists. split; [reflexivity|].
    destruct (element_query_fails_only_on_expand Scenario.element_types
                (fun _ _ =>
                   [{| NetworkElementFacts.name := "host-a";
                       NetworkElementFacts.typeof := "host" |};
                    {| NetworkElementFacts.name := "host-b";
                       NetworkElementFacts.typeof := "host" |}])
                (fun _ => []) string
                (fun e _ => NetworkElementFacts.name e)
                (Scenario.hosts ["group"])) as [_ Hreturns].
    destruct (Hreturns _ _ eq_refl) as [found [Hsearch [_ Hterse]]].
    destruct Hsearch as [[_ [Hnone _]]|[key [entry [_ [_ [_ Hfound]]]]]];
      [discriminate Hnone|].
    rewrite (Hterse eq_refl), Hfound. reflexivity.
Defined.

(** ** The Route VPN reconciler: check mode, absent runs, refused writes *)

Section ReconcilerMore.

Import RouteVPN.

(** X9: in check mode, a present run that is not the disable short circuit
    validates and writes nothing: it leaves the server as it is and makes
    only reads; it fails exactly when resolution fails, with that message;
    that failure is, call for call, the one of the same run outside check
    mode; and when resolution succeeds it returns [changed = False]. *)
Theorem check_mode_validates_without_writing (p : params) (s : smc) :
  state p = present ->
  disable_requested p (find_vpn (name p) s) = false ->
  (forall out s' calls,
      run (More.in_check_mode true p) s = (out, s', calls) ->
      s' = s /\ Forall reads_only calls)
  /\ (forall m,
         fst (fst (run (More.in_check_mode true p) s)) = Failed m
         <-> exists calls, resolve p s = (inl (ModuleFail m), s, calls))
  /\ (forall m,
         fst (fst (run (More.in_check_mode true p) s)) = Failed m ->
         run (More.in_check_mode false p) s
         = run (More.in_check_mode true p) s)
  /\ (forall r calls,
         resolve p s = (inr r, s, calls) ->
         run (More.in_check_mode true p) s
         = (Returned initial_results, s, FetchElement (name p) :: calls)).
Proof.
  intros Hstate Hdis.
  assert (Hrun : forall b,
             run (More.in_check_mode b p) s
             = match resolve p s with
               | (inl (ModuleFail m), s1, l1) =>
                   (Failed m, s1, FetchElement (name p) :: l1)
               | (inl (SMCException m), s1, l1)
               | (inl (PyError m), s1, l1) =>
                   (Crashed m, s1, FetchElement (name p) :: l1)
               | (inr r, s1, l1) =>
                   match apply_present (More.in_check_mode b p)
                           (find_vpn (name p) s) r s1 with
                   | (inr res, s2, l2) =>
                       (Returned res, s2, FetchElement (name p) :: l1 ++ l2)
                   | (inl (ModuleFail m), s2, l2) =>
                       (Failed m, s2, FetchElement (name p) :: l1 ++ l2)
                   | (inl (SMCException m), s2, l2)
                   | (inl (PyError m), s2, l2) =>
                       (Crashed m, s2, FetchElement (name p) :: l1 ++ l2)
                   end
               end).
  { intros b. unfold run.
    rewrite (exec_module_present (More.in_check_mode b p) s Hstate Hdis).
    change (resolve (More.in_check_mode b p) s) with (resolve p s).
    change (name (More.in_check_mode b p)) with (name p).
    destruct (resolve p s) as [[[[m|m|m]|r] s1] l1]; try reflexivity.
    destruct (apply_present (More.in_check_mode b p) (find_vpn (name p) s) r s1)
      as [[[[m|m|m]|res] s2] l2]; reflexivity. }
  assert (Hchecked : forall r s1,
             apply_present (More.in_check_mode true p) (find_vpn (name p) s) r s1
             = (inr initial_results, s1, [])).
  { intros r s1. reflexivity. }
  repeat split.
  - rewrite Hrun in H.
    destruct (resolve p s) as [[[[m|m|m]|r] s1] l1] eqn:Hres;
      apply resolve_reads_only in Hres; destruct Hres as [-> _];
      try rewrite Hchecked in H; now inversion H.
  - rewrite Hrun in H.
    destruct (resolve p s) as [[[[m|m|m]|r] s1] l1] eqn:Hres;
      apply resolve_reads_only in Hres; destruct Hres as [-> Hl];
      try rewrite Hchecked in H; inversion H; subst;
      constructor; try reflexivity; try assumption.
    now rewrite app_nil_r.
  - rewrite Hrun.
    destruct (resolve p s) as [[[[m'|m'|m']|r] s1] l1] eqn:Hres;
      try rewrite Hchecked; cbn [fst]; intros H; inversion H; subst.
    apply resolve_reads_only in Hres. destruct Hres as [-> _]. eauto.
  - intros [calls Hres]. rewrite Hrun, Hres. reflexivity.
  - intros m. rewrite !Hrun.
    destruct (resolve p s) as [[[[m'|m'|m']|r] s1] l1];
      try rewrite Hchecked; cbn [fst]; intros H; try discriminate H;
      reflexivity.
  - intros r calls Hres. rewrite Hrun, Hres, Hchecked.
    now rewrite app_nil_r.
Qed.

(** X10: an absent run depends on the name and on the server alone: the
    gateways, [enabled], the keys and check mode play no part in it.  In
    particular, in check mode an absent run deletes the Route VPN. *)
Theorem absent_run_reads_only_the_name (p q : params) (s : smc) :
  state p = absent -> state q = absent -> name p = name q ->
  run p s = run q s
  /\ (check_mode p = true ->
      forall v,
        find_vpn (name p) s = Some v ->
        rejects s (Delete (name p)) = false ->
        run p s
        = (Returned {| changed := true; vpn_state := StateInit |},
           delete_vpn (name p) s,
           [FetchElement (name p); Delete (name p)])).
Proof.
  intros Hp Hq Hname. split.
  - unfold run, exec_module, apply_absent. now rewrite Hp, Hq, Hname.
  - intros _ v Hfind Hrej.
    unfold run, exec_module, bind, fetch_element, read.
    rewrite Hp, Hfind.
    unfold apply_absent, try_except, bind, write, write_with.
    now rewrite Hrej.
Qed.

(** X11: a write that the server refuses ends the run without a change on
    the server, but not in the same way everywhere: the delete of an
    absent run is inside the [try] block and the module fails with the
    library's message, while the disable of the short circuit is before it
    and the exception ends the run uncaught. *)
Theorem refused_write_fails_or_escapes (p : params) (s : smc)
    (v : RouteVPNElement) :
  find_vpn (name p) s = Some v ->
  (state p = absent ->
   rejects s (Delete (name p)) = true ->
   run p s
   = (Failed [LibText "RouteVPN.delete" (name p)], s,
      [FetchElement (name p); Delete (name p)]))
  /\ (state p = present ->
      disable_requested p (Some v) = true ->
      rejects s (Disable (name p)) = true ->
      run p s
      = (Crashed [LibText "RouteVPN.disable" (name p)], s,
         [FetchElement (name p); Disable (name p)])).
Proof.
  intros Hfind. split.
  - intros Hstate Hrej. unfold run, exec_module, bind, fetch_element, read.
    rewrite Hstate, Hfind.
    unfold apply_absent, try_except, bind, write, write_with.
    now rewrite Hrej.
  - intros Hstate Hdis Hrej. unfold run, exec_module, bind, fetch_element, read.
    rewrite Hstate, Hfind, Hdis. unfold write, write_with.
    now rewrite Hrej.
Qed.

(** X12: the errors of the local gateway, on a present run that is not the
    disable short circuit, in or out of check mode.  A gateway without
    [name], [tunnel_interface] or [interface_id] fails before any lookup
    of an engine; a name that is no engine fails after that one lookup;
    an engine without a tunnel interface of the given id fails after the
    lookup of its tunnel interfaces.  None of them writes. *)
Theorem local_gateway_errors (p : params) (lg : gateway) (s : smc) :
  state p = present ->
  disable_requested p (find_vpn (name p) s) = false ->
  local_gw p = Some lg ->
  (gw_name lg = None \/ gw_tunnel_interface lg = None
   \/ gw_interface_id lg = None ->
   run p s
   = (Failed [Lit "Managed gateway requires name, interface_id and tunnel_interface fields"],
      s, [FetchElement (name p)]))
  /\ (forall n t i,
         gw_name lg = Some n -> gw_tunnel_interface lg = Some t ->
         gw_interface_id lg = Some i ->
         (find_engine n s = None ->
          run p s
          = (Failed [Lit "The specified managed gateway specified does not exist: ";
                     Arg n],
             s, [FetchElement (name p); EngineGet n]))
         /\ (forall engine,
                find_engine n s = Some engine ->
                ~ In t (tunnel_interface engine) ->
                run p s
                = (Failed [Lit "Cannot find specified tunnel interface: ";
                           Arg t; Lit " for specified gateway ";
                           Arg (engine_name engine)],
                   s,
                   [FetchElement (name p); EngineGet n;
                    TunnelInterfaces (engine_name engine)]))).
Proof.
  intros Hstate Hdis Hlg.
  assert (Hstart : forall m calls,
             resolve_managed (Some lg) s = (inl (ModuleFail m), s, calls) ->
             run p s = (Failed m, s, FetchElement (name p) :: calls)).
  { intros m calls H. unfold run. rewrite exec_module_present by assumption.
    unfold resolve, bind. now rewrite Hlg, H. }
  split.
  - intros Hmissing. apply Hstart.
    unfold resolve_managed, bind, get_managed_gateway.
    destruct (gw_name lg), (gw_tunnel_interface lg), (gw_interface_id lg);
      try reflexivity.
    destruct Hmissing as [H|[H|H]]; discriminate H.
  - intros n t i Hn Ht Hi. split.
    + intros Hengine. apply Hstart.
      unfold resolve_managed, bind, get_managed_gateway, bind, read.
      now rewrite Hn, Ht, Hi, Hengine.
    + intros engine Hengine Hnone. apply Hstart.
      unfold resolve_managed, bind, get_managed_gateway, bind, read.
      rewrite Hn, Ht, Hi, Hengine.
      unfold ret, get_tunnel_interface, bind, read. cbn [str_opt].
      destruct (find (fun i0 => i0 =? t) (tunnel_interface engine)) as [x|] eqn:Hx;
        [|reflexivity].
      apply find_some in Hx. destruct Hx as [Hin Heq].
      apply String.eqb_eq in Heq. subst x. contradiction.
Qed.

End ReconcilerMore.

Lemma check_mode_validates_without_writing_witness :
  RouteVPN.run
    (More.in_check_mode false
       (Scenario.invocation RouteVPN.present None (Scenario.extgw3 None)
          (Some "modkey") false))
    (Scenario.server [])
  = RouteVPN.run
      (More.in_check_mode true
         (Scenario.invocation RouteVPN.present None (Scenario.extgw3 None)
            (Some "modkey") false))
      (Scenario.server [])
  /\ fst (fst (RouteVPN.run
                 (More.in_check_mode true
                    (Scenario.invocation RouteVPN.present None
                       (Scenario.managed "myfw" "1000" "0") None false))
                 (Scenario.server [])))
     = Returned RouteVPN.initial_results.
Proof.
  split.
  - destruct (check_mode_validates_without_writing
                (Scenario.invocation RouteVPN.present None (Scenario.extgw3 None)
                   (Some "modkey") false)
                (Scenario.server []) eq_refl eq_refl) as [_ [_ [Hsame _]]].
    exact (Hsame _ eq_refl).
  - destruct (check_mode_validates_without_writing
                (Scenario.invocation RouteVPN.present None
                   (Scenario.managed "myfw" "1000" "0") None false)
                (Scenario.server []) eq_refl eq_refl) as [_ [_ [_ Hok]]].
    rewrite (Hok _ _ eq_refl). reflexivity.
Defined.

Lemma absent_run_reads_only_the_name_witness :
  RouteVPN.run
    (Scenario.invocation RouteVPN.absent None
       (Scenario.managed "myfw" "1000" "0") None true)
    (Scenario.server [Scenario.myrbvpn true])
  = (Returned {| RouteVPN.changed := true;
                 RouteVPN.vpn_state := RouteVPN.StateInit |},
     RouteVPN.delete_vpn "myrbvpn" (Scenario.server [Scenario.myrbvpn true]),
     [RouteVPN.FetchElement "myrbvpn"; RouteVPN.Delete "myrbvpn"]).
Proof.
  destruct (absent_run_reads_only_the_name
              (Scenario.invocation RouteVPN.absent None
                 (Scenario.managed "myfw" "1000" "0") None true)
              (Scenario.invocation RouteVPN.absent (Some true)
                 (Scenario.extgw3 None) (Some "k") false)
              (Scenario.server [Scenario.myrbvpn true])
              eq_refl eq_refl eq_refl) as [_ Hdeletes].
  exact (Hdeletes eq_refl (Scenario.myrbvpn true) eq_refl eq_refl).
Defined.

Lemma refused_write_fails_or_escapes_witness :
  RouteVPN.run
    (Scenario.invocation RouteVPN.absent None
       (Scenario.managed "myfw" "1000" "0") None false)
    (More.strict_server (fun _ => true) [Scenario.myrbvpn true])
  = (Failed [LibText "RouteVPN.delete" "myrbvpn"],
     More.strict_server (fun _ => true) [Scenario.myrbvpn true],
     [RouteVPN.FetchElement "myrbvpn"; RouteVPN.Delete "myrbvpn"])
  /\ RouteVPN.run
       (Scenario.invocation RouteVPN.present (Some false)
          (Scenario.managed "myfw" "1000" "0") None false)
       (More.strict_server (fun _ => true) [Scenario.myrbvpn true])
     = (Crashed [LibText "RouteVPN.disable" "myrbvpn"],
        More.strict_server (fun _ => true) [Scenario.myrbvpn true],
        [RouteVPN.FetchElement "myrbvpn"; RouteVPN.Disable "myrbvpn"]).
Proof.
  split.
  - apply (refused_write_fails_or_escapes
             (Scenario.invocation RouteVPN.absent None
                (Scenario.managed "myfw" "1000" "0") None false)
             (More.strict_server (fun _ => true) [Scenario.myrbvpn true])
             (Scenario.myrbvpn true) eq_refl); reflexivity.
  - apply (refused_write_fails_or_escapes
             (Scenario.invocation RouteVPN.present (Some false)
                (Scenario.managed "myfw" "1000" "0") None false)
             (More.strict_server (fun _ => true) [Scenario.myrbvpn true])
             (Scenario.myrbvpn true) eq_refl); reflexivity.
Defined.

Lemma local_gateway_errors_witness :
  RouteVPN.run (More.from_gateway (Scenario.managed "nowhere" "1001" "1"))
               (Scenario.server [])
  = (Failed [Lit "The specified managed gateway specified does not exist: ";
             Arg "nowhere"],
     Scenario.server [],
     [RouteVPN.FetchElement "myrbvpn"; RouteVPN.EngineGet "nowhere"])
  /\ RouteVPN.run (More.from_gateway (Scenario.managed "newcluster" "9" "1"))
                  (Scenario.server [])
     = (Failed [Lit "Cannot find specified tunnel interface: "; Arg "9";
                Lit " for specified gateway "; Arg "newcluster"],
        Scenario.server [],
        [RouteVPN.FetchElement "myrbvpn"; RouteVPN.EngineGet "newcluster";
         RouteVPN.TunnelInterfaces "newcluster"]).
Proof.
  split.
  - destruct (local_gateway_errors
                (More.from_gateway (Scenario.managed "nowhere" "1001" "1"))
                (Scenario.managed "nowhere" "1001" "1") (Scenario.server [])
                eq_refl eq_refl eq_refl) as [_ H].
    destruct (H "nowhere" "1001" "1" eq_refl eq_refl eq_refl) as [Hnone _].
    exact (Hnone eq_refl).
  - destruct (local_gateway_errors
                (More.from_gateway (Scenario.managed "newcluster" "9" "1"))
                (Scenario.managed "newcluster" "9" "1") (Scenario.server [])
                eq_refl eq_refl eq_refl) as [_ H].
    destruct (H "newcluster" "9" "1" eq_refl eq_refl eq_refl) as [_ Htunnel].
    apply (Htunnel (Scenario.engine "newcluster" "1001" "1" "50.50.50.1")
                   eq_refl).
    intros [Heq|[]]. discriminate Heq.
Defined.

(** ** The Route VPN reconciler: endpoints and listeners *)

Section Listeners.

Import RouteVPN.

Lemma rejects_enable_all (eps : list InternalEndpoint) :
  forall s, rejects (More.enable_all eps s) = rejects s.
Proof.
  unfold More.enable_all.
  induction (More.pending eps) as [|ep rest IH]; intros s; simpl;
    [reflexivity|].
  now rewrite IH.
Qed.

(** On a server that accepts them, the writes of [update_ipsec_listener]
    are the updates of the pending endpoints, in order. *)
Lemma update_ipsec_listener_pending (eps : list InternalEndpoint) :
  forall s,
    (forall e a, rejects s (EndpointUpdate e a) = false) ->
    update_ipsec_listener eps s
    = (inr (existsb (fun ep => negb (ie_enabled ep)) eps),
       More.enable_all eps s, More.listener_calls eps).
Proof.
  induction eps as [|ep rest IH]; intros s Hacc; [reflexivity|].
  cbn [update_ipsec_listener existsb].
  unfold More.enable_all, More.listener_calls, More.pending.
  cbn [List.filter].
  destruct (ie_enabled ep); cbn [negb orb].
  - now apply IH.
  - unfold bind, write, write_with. rewrite Hacc.
    rewrite (IH (enable_endpoint (ie_engine ep) (ie_address ep) s))
      by (intros e a; apply Hacc).
    cbn [fold_left map ret]. now rewrite app_nil_r.
Qed.

(** X13: [update_ipsec_listener] writes to the endpoints whose listener is
    not enabled, to each of them once and in the order of the list, and to
    no other; it returns whether there was one.  Over endpoints that are
    all enabled it makes no call and returns [False]. *)
Theorem update_ipsec_listener_writes_the_pending (eps : list InternalEndpoint) :
  (forall s,
      (forall e a, rejects s (EndpointUpdate e a) = false) ->
      update_ipsec_listener eps s
      = (inr (existsb (fun ep => negb (ie_enabled ep)) eps),
         More.enable_all eps s, More.listener_calls eps))
  /\ (forallb ie_enabled eps = true ->
      forall s, update_ipsec_listener eps s = (inr false, s, [])).
Proof.
  split; [apply update_ipsec_listener_pending|].
  induction eps as [|ep rest IH]; intros Hall s; [reflexivity|].
  cbn [forallb] in Hall. apply andb_true_iff in Hall.
  destruct Hall as [Hep Hrest].
  cbn [update_ipsec_listener]. rewrite Hep. now apply IH.
Qed.

Lemma update_ipsec_listener_writes_the_pending_witness :
  update_ipsec_listener
    [{| ie_engine := "newcluster"; ie_address := "50.50.50.1";
        ie_enabled := false |};
     {| ie_engine := "myfw"; ie_address := "60.60.60.1"; ie_enabled := true |}]
    (Scenario.server [])
  = (inr true,
     More.enable_all
       [{| ie_engine := "newcluster"; ie_address := "50.50.50.1";
           ie_enabled := false |};
        {| ie_engine := "myfw"; ie_address := "60.60.60.1";
           ie_enabled := true |}]
       (Scenario.server []),
     [EndpointUpdate "newcluster" "50.50.50.1"]).
Proof.
  destruct (update_ipsec_listener_writes_the_pending
              [{| ie_engine := "newcluster"; ie_address := "50.50.50.1";
                  ie_enabled := false |};
               {| ie_engine := "myfw"; ie_address := "60.60.60.1";
                  ie_enabled := true |}]) as [Hwrites _].
  apply (Hwrites (Scenario.server [])). reflexivity.
Defined.

Lemma endpoints_of_addresses_found (engine : Engine) (addrs : list string) :
  forall acc s,
    exists calls,
      endpoints_of_addresses engine addrs acc s
      = (inr (acc ++ flat_map (More.endpoint_at (engine_name engine) s) addrs),
         s, calls).
Proof.
  induction addrs as [|a rest IH]; intros acc s; simpl.
  - exists []. unfold ret. now rewrite app_nil_r.
  - unfold bind at 1, get_exact at 1, read. unfold More.endpoint_at at 1.
    destruct (find_endpoint (engine_name engine) a s) as [ep|] eqn:Hep.
    + unfold bind, get_exact, read. rewrite Hep.
      destruct (IH (acc ++ [ep]) s) as [calls Hcalls]. rewrite Hcalls.
      eexists. now rewrite <- app_assoc.
    + destruct (IH acc s) as [calls Hcalls]. rewrite Hcalls.
      eexists. reflexivity.
Qed.

Lemma find_endpoint_address (engine address : string) (s : smc)
    (ep : InternalEndpoint) :
  find_endpoint engine address s = Some ep -> ie_address ep = address.
Proof.
  unfold find_endpoint. destruct (find_engine engine s); [|discriminate].
  intros H. apply find_some in H. destruct H as [_ H].
  now apply String.eqb_eq.
Qed.

(** X14: what [get_ipsec_endpoint] returns is never empty, is read from the
    interface of the given id, which the engine has, and holds endpoints
    that the server has for the engine: the one of the address when an
    address is given, and otherwise, in order, the one of each address of
    the interface that has one.  An interface id that the engine does not
    have makes the module fail with the library's message after one
    call. *)
Theorem get_ipsec_endpoint_returns_server_endpoints (engine : Engine)
    (id address : option string) (s : smc) :
  (forall eps s' calls,
      get_ipsec_endpoint engine id address s = (inr eps, s', calls) ->
      s' = s /\ eps <> []
      /\ (exists iface,
             In iface (interface engine) /\ id = Some (if_interface_id iface)
             /\ (Py.nonempty address = None ->
                 eps = flat_map (More.endpoint_at (engine_name engine) s)
                                (addresses iface)))
      /\ (forall a,
             Py.nonempty address = Some a ->
             exists ep,
               eps = [ep] /\ ie_address ep = a
               /\ find_endpoint (engine_name engine) a s = Some ep)
      /\ Forall (fun ep =>
                   find_endpoint (engine_name engine) (ie_address ep) s
                   = Some ep) eps)
  /\ ((forall iface,
          In iface (interface engine) -> id <> Some (if_interface_id iface)) ->
      get_ipsec_endpoint engine id address s
      = (inl (ModuleFail
                [Lit "Fetch IPSEC interface for endpoint failed: ";
                 LibText "engine.interface.get" (str_opt id)]),
         s, [InterfaceGet (engine_name engine) id])).
Proof.
  assert (Hfound : forall addrs,
             Forall (fun ep =>
                       find_endpoint (engine_name engine) (ie_address ep) s
                       = Some ep)
                    (flat_map (More.endpoint_at (engine_name engine) s) addrs)).
  { intros addrs. apply Forall_forall. intros ep Hin.
    apply in_flat_map in Hin. destruct Hin as [a [_ Hep]].
    unfold More.endpoint_at in Hep.
    destruct (find_endpoint (engine_name engine) a s) as [x|] eqn:Hx;
      [|contradiction].
    destruct Hep as [<-|[]].
    now rewrite (find_endpoint_address _ _ _ _ Hx). }
  split.
  - intros eps s' calls.
    unfold get_ipsec_endpoint, bind at 1, try_except, interface_get, bind at 1,
      read.
    destruct (match id with
              | Some i => find (fun x => if_interface_id x =? i) (interface engine)
              | None => None
              end) as [iface|] eqn:Hiface; [|discriminate].
    assert (Hid : In iface (interface engine)
                  /\ id = Some (if_interface_id iface)).
    { destruct id as [i|]; [|discriminate].
      apply find_some in Hiface. destruct Hiface as [Hin Heq].
      apply String.eqb_eq in Heq. now subst i. }
    cbn [ret app]. unfold bind at 1.
    destruct (Py.nonempty address) as [a|] eqn:Haddr.
    + unfold bind at 1, get_exact, read, ret.
      destruct (find_endpoint (engine_name engine) a s) as [ep|] eqn:Hep;
        cbn; intros H; inversion H; subst.
      repeat split; try discriminate.
      * exists iface. repeat split; try apply Hid. discriminate.
      * intros a' Ha'. inversion Ha'; subst a'. exists ep.
        repeat split; [|assumption]. now apply find_endpoint_address in Hep.
      * constructor; [|constructor].
        now rewrite (find_endpoint_address _ _ _ _ Hep).
    + destruct (endpoints_of_addresses_found engine (addresses iface) [] s)
        as [l Hl].
      rewrite Hl. cbn [app].
      destruct (flat_map (More.endpoint_at (engine_name engine) s)
                         (addresses iface)) as [|ep rest] eqn:Hflat;
        cbn; intros H; inversion H; subst.
      repeat split; try discriminate.
      * exists iface. repeat split; try apply Hid. now rewrite Hflat.
      * rewrite <- Hflat. apply Hfound.
  - intros Hnone.
    unfold get_ipsec_endpoint, bind at 1, try_except, interface_get, bind at 1,
      read.
    destruct (match id with
              | Some i => find (fun x => if_interface_id x =? i) (interface engine)
              | None => None
              end) as [iface|] eqn:Hiface; [|reflexivity].
    exfalso. destruct id as [i|]; [|discriminate].
    apply find_some in Hiface. destruct Hiface as [Hin Heq].
    apply String.eqb_eq in Heq. apply (Hnone iface Hin). now subst i.
Qed.

End Listeners.

Lemma get_ipsec_endpoint_returns_server_endpoints_witness :
  RouteVPN.get_ipsec_endpoint
    (Scenario.engine "newcluster" "1001" "1" "50.50.50.1") (Some "7") None
    (Scenario.server [])
  = (inl (RouteVPN.ModuleFail
            [Lit "Fetch IPSEC interface for endpoint failed: ";
             LibText "engine.interface.get" "7"]),
     Scenario.server [], [RouteVPN.InterfaceGet "newcluster" (Some "7")])
  /\ exists ep,
       fst (fst (RouteVPN.get_ipsec_endpoint
                   (Scenario.engine "newcluster" "1001" "1" "50.50.50.1")
                   (Some "1") (Some "50.50.50.1") (Scenario.server [])))
       = inr [ep]
       /\ RouteVPN.ie_address ep = "50.50.50.1".
Proof.
  split.
  - apply (get_ipsec_endpoint_returns_server_endpoints
             (Scenario.engine "newcluster" "1001" "1" "50.50.50.1") (Some "7")
             None (Scenario.server [])).
    intros iface [<-|[]]. discriminate.
  - destruct (get_ipsec_endpoint_returns_server_endpoints
                (Scenario.engine "newcluster" "1001" "1" "50.50.50.1")
                (Some "1") (Some "50.50.50.1") (Scenario.server []))
      as [Hreturns _].
    destruct (Hreturns _ _ _ eq_refl) as [_ [_ [_ [Hone _]]]].
    destruct (Hone "50.50.50.1" eq_refl) as [ep [Heps [Haddr _]]].
    exists ep. split; [|exact Haddr]. cbn [fst]. now rewrite <- Heps.
Defined.

(** ** The Route VPN reconciler: what is applied *)

Section Applied.

Import RouteVPN.

(** X15: over an existing Route VPN, a present run with a managed remote
    gateway that is applied writes nothing but the enable it may be asked
    for: no listener is enabled and nothing of the existing VPN is
    compared with the parameters.  It returns [changed] exactly when it
    enabled the VPN, with the element as [state]. *)
Theorem existing_vpn_is_only_enabled (p : params) (rg : gateway) (s : smc)
    (v : RouteVPNElement) (r : resolution) (calls : list call) :
  state p = present -> check_mode p = false ->
  remote_gw p = Some rg -> is_external rg = false ->
  find_vpn (name p) s = Some v ->
  disable_requested p (Some v) = false ->
  resolve p s = (inr r, s, calls) ->
  (enable_requested p (Some v) = true -> rejects s (Enable (name p)) = false) ->
  run p s
  = if enable_requested p (Some v)
    then (Returned {| changed := true;
                      vpn_state := StateData (with_enabled true v) |},
          set_enabled (name p) true s,
          FetchElement (name p) :: calls ++ [Enable (name p)])
    else (Returned {| changed := false; vpn_state := StateData v |},
          s, FetchElement (name p) :: calls).
Proof.
  intros Hstate Hcheck Hrg Hext Hfind Hdis Hres Hacc.
  pose proof (returns_resolve_branch p rg Hrg s r s calls Hres) as Hbranch.
  unfold branch_taken in Hbranch.
  unfold run. rewrite exec_module_present; [|assumption | now rewrite Hfind].
  rewrite Hres, Hfind.
  unfold apply_present, try_except, bind at 1, update_vpn, bind.
  rewrite Hcheck.
  destruct (remote r) as [re rt reps|d]; [|congruence].
  destruct (enable_requested p (Some v)).
  - unfold write, write_with. rewrite (Hacc eq_refl). reflexivity.
  - cbn. now rewrite app_nil_r.
Qed.

Lemma existing_vpn_is_only_enabled_witness :
  exists calls,
    run (Scenario.invocation present None
           (Scenario.managed "myfw" "1000" "0") (Some "other key") false)
        (Scenario.server [Scenario.myrbvpn true])
    = (Returned {| changed := false;
                   vpn_state := StateData (Scenario.myrbvpn true) |},
       Scenario.server [Scenario.myrbvpn true],
       FetchElement "myrbvpn" :: calls).
Proof.
  eexists.
  eapply (existing_vpn_is_only_enabled
           (Scenario.invocation present None
              (Scenario.managed "myfw" "1000" "0") (Some "other key") false)
           (Scenario.managed "myfw" "1000" "0")
           (Scenario.server [Scenario.myrbvpn true])
           (Scenario.myrbvpn true));
    reflexivity.
Defined.

(** X16: creation is not undone.  When the server accepts the listener
    updates and refuses [create_ipsec_tunnel], a present run over two
    managed gateways fails with the library's message, and the listeners
    it has enabled on the way stay enabled: the server it leaves is the
    one after those writes. *)
Theorem refused_creation_keeps_the_listeners (p : params) (s : smc)
    (r : resolution) (calls : list call) (re : Engine) (rt : string)
    (reps : list InternalEndpoint) :
  state p = present -> check_mode p = false ->
  find_vpn (name p) s = None ->
  resolve p s = (inr r, s, calls) ->
  remote r = Managed re rt reps ->
  (forall e a, rejects s (EndpointUpdate e a) = false) ->
  (forall args, rejects s (CreateIpsecTunnel args) = true) ->
  exists args,
    run p s
    = (Failed [LibText "RouteVPN.create_ipsec_tunnel" (name p)],
       More.enable_all reps (More.enable_all (local_internal_endpoint r) s),
       FetchElement (name p)
       :: calls
          ++ InternalGateway (engine_name (local_engine r))
          :: More.listener_calls (local_internal_endpoint r)
          ++ InternalGateway (engine_name re)
          :: More.listener_calls reps
          ++ [CreateIpsecTunnel args])
    /\ vpn_name args = name p.
Proof.
  intros Hstate Hcheck Hnone Hres Hremote Hacc Hrefuse.
  pose proof (update_ipsec_listener_pending (local_internal_endpoint r))
    as Hlocal.
  pose proof (update_ipsec_listener_pending reps) as Hreps.
  assert (Hacc1 : forall e a,
             rejects (More.enable_all (local_internal_endpoint r) s)
                     (EndpointUpdate e a) = false).
  { intros e a. now rewrite rejects_enable_all. }
  eexists. unfold run.
  rewrite exec_module_present; [|assumption | now rewrite Hnone].
  rewrite Hres, Hnone.
  unfold apply_present, try_except, bind at 1, create_vpn, bind at 1,
    tunnel_endpoints, bind at 1, read.
  rewrite Hcheck. cbv zeta. unfold bind at 1. rewrite (Hlocal s Hacc).
  rewrite Hremote. unfold bind at 1, read. unfold bind at 1.
  rewrite (Hreps _ Hacc1). cbn [ret].
  unfold bind at 1, write_with.
  rewrite !rejects_enable_all, Hrefuse.
  unfold on_smc_exception, fail, raise. cbn [operation fst snd vpn_name].
  split.
  - rewrite !app_nil_r. cbn [app].
    repeat (rewrite <- app_assoc; cbn [app]). reflexivity.
  - reflexivity.
Qed.

End Applied.

Lemma refused_creation_keeps_the_listeners_witness :
  fst (fst (RouteVPN.run
              (Scenario.invocation RouteVPN.present None
                 (Scenario.managed "myfw" "1000" "0") None false)
              (More.strict_server More.is_create [])))
  = Failed [LibText "RouteVPN.create_ipsec_tunnel" "myrbvpn"]
  /\ RouteVPN.find_endpoint "newcluster" "50.50.50.1"
       (snd (fst (RouteVPN.run
                    (Scenario.invocation RouteVPN.present None
                       (Scenario.managed "myfw" "1000" "0") None false)
                    (More.strict_server More.is_create []))))
     = Some {| RouteVPN.ie_engine := "newcluster";
               RouteVPN.ie_address := "50.50.50.1";
               RouteVPN.ie_enabled := true |}.
Proof.
  destruct (refused_creation_keeps_the_listeners
              (Scenario.invocation RouteVPN.present None
                 (Scenario.managed "myfw" "1000" "0") None false)
              (More.strict_server More.is_create [])
              _ _ _ _ _ eq_refl eq_refl eq_refl eq_refl eq_refl
              (fun _ _ => eq_refl) (fun _ => eq_refl)) as [args [Hrun _]].
  rewrite Hrun. split; reflexivity.
Defined.

(** ** The Route VPN reconciler: no uncaught exception *)

Section Cache.

Import RouteVPN.

Lemma app_eq_self {A : Type} (l x : list A) : l ++ x = l -> x = [].
Proof. intros H. apply (app_inv_head l). now rewrite app_nil_r. Qed.

Lemma find_app_some {A : Type} (f : A -> bool) (l1 l2 : list A) :
  find f l1 <> None -> find f (l1 ++ l2) <> None.
Proof.
  induction l1 as [|x rest IH]; simpl; [congruence|].
  destruct (f x); [discriminate | exact IH].
Qed.

(** What one lookup of the cache does: it only reads; it adds to
    [missing] or leaves it; when it leaves it, the name is in the cache;
    and what was in the cache stays in it. *)
Lemma cache_add_entry_spec (c : Cache) (typeof : string) (n : scalar) (s : smc) :
  exists c' calls,
    cache_add_entry c typeof n s = (inr c', s, calls)
    /\ (exists extra, missing c' = missing c ++ extra)
    /\ (missing c' = missing c -> cache_get c' typeof n <> None)
    /\ (forall t' n', cache_get c t' n' <> None -> cache_get c' t' n' <> None).
Proof.
  unfold cache_add_entry.
  destruct (cache_get c typeof n) as [hit|] eqn:Hhit.
  - exists c, []. repeat split; auto.
    + exists []. now rewrite app_nil_r.
    + intros _. congruence.
  - unfold bind, read.
    destruct (match n with
              | SStr x => find_element typeof x s
              | SBool _ => None
              end) as [el|] eqn:Hfound.
    + eexists. eexists. split; [reflexivity|]. cbn [missing cache].
      assert (Hget : forall t',
                 cache_get_type
                   {| cache := dict_update (cache c) typeof
                                 (cache_get_type c typeof ++ [el]);
                      missing := missing c |} t'
                 = if typeof =? t' then cache_get_type c typeof ++ [el]
                   else cache_get_type c t').
      { intros t'. unfold cache_get_type at 1. cbn [cache].
        destruct (typeof =? t') eqn:Ht.
        - apply String.eqb_eq in Ht. subst t'.
          now rewrite dict_get_update_same.
        - now rewrite dict_get_update_other. }
      repeat split.
      * exists []. now rewrite app_nil_r.
      * intros _. destruct n as [x|b]; [|discriminate].
        unfold cache_get. rewrite Hget, String.eqb_refl.
        unfold find_element in Hfound. apply find_some in Hfound.
        destruct Hfound as [_ Hel]. apply andb_true_iff in Hel.
        destruct Hel as [_ Hname].
        destruct (find (fun e => el_name e =? x) (cache_get_type c typeof))
          eqn:Hold.
        -- apply find_app_some. congruence.
        -- rewrite find_app_none by assumption. simpl. now rewrite Hname.
      * intros t' n' Hin. destruct n' as [y|b]; [|exact Hin].
        unfold cache_get in *. rewrite Hget.
        destruct (typeof =? t') eqn:Ht; [|exact Hin].
        apply String.eqb_eq in Ht. subst t'. now apply find_app_some.
    + eexists. eexists. split; [reflexivity|]. cbn [missing cache].
      repeat split.
      * eexists. reflexivity.
      * intros H. apply app_eq_self in H. discriminate.
      * auto.
Qed.

Lemma cache_add_names_spec (typeof : string) (names : list scalar) (s : smc) :
  forall c,
    exists c' calls,
      cache_add_names c typeof names s = (inr c', s, calls)
      /\ (exists extra, missing c' = missing c ++ extra)
      /\ (missing c' = missing c -> More.resolved c' typeof names)
      /\ (forall t' n', cache_get c t' n' <> None -> cache_get c' t' n' <> None).
Proof.
  induction names as [|n rest IH]; intros c; simpl.
  - exists c, []. repeat split; auto.
    + exists []. now rewrite app_nil_r.
    + intros _. constructor.
  - destruct (cache_add_entry_spec c typeof n s)
      as [c1 [l1 [Hrun1 [[e1 He1] [Hres1 Hmono1]]]]].
    destruct (IH c1) as [c2 [l2 [Hrun2 [[e2 He2] [Hres2 Hmono2]]]]].
    exists c2, (l1 ++ l2). unfold bind. rewrite Hrun1, Hrun2.
    split; [reflexivity|]. repeat split.
    + exists (e1 ++ e2). now rewrite He2, He1, app_assoc.
    + intros Hsame. rewrite He2, He1, <- app_assoc in Hsame.
      apply app_eq_self, app_eq_nil in Hsame. destruct Hsame as [-> ->].
      rewrite app_nil_r in He1, He2. constructor.
      * apply Hmono2, Hres1. exact He1.
      * apply Hres2. exact He2.
    + intros t' n' Hin. now apply Hmono2, Hmono1.
Qed.

Lemma cache_add_spec (entries : dict (list scalar)) (s : smc) :
  forall c,
    exists c' calls,
      cache_add c entries s = (inr c', s, calls)
      /\ (exists extra, missing c' = missing c ++ extra)
      /\ (missing c' = missing c ->
          Forall (fun e => More.resolved c' (fst e) (snd e)) entries)
      /\ (forall t' n', cache_get c t' n' <> None -> cache_get c' t' n' <> None).
Proof.
  induction entries as [|[typeof names] rest IH]; intros c; simpl.
  - exists c, []. repeat split; auto.
    exists []. now rewrite app_nil_r.
  - destruct (cache_add_names_spec typeof names s c)
      as [c1 [l1 [Hrun1 [[e1 He1] [Hres1 Hmono1]]]]].
    destruct (IH c1) as [c2 [l2 [Hrun2 [[e2 He2] [Hres2 Hmono2]]]]].
    exists c2, (l1 ++ l2). unfold bind. rewrite Hrun1, Hrun2.
    split; [reflexivity|]. repeat split.
    + exists (e1 ++ e2). now rewrite He2, He1, app_assoc.
    + intros Hsame. rewrite He2, He1, <- app_assoc in Hsame.
      apply app_eq_self, app_eq_nil in Hsame. destruct Hsame as [-> ->].
      rewrite app_nil_r in He1, He2. constructor.
      * cbn [fst snd]. specialize (Hres1 He1). unfold More.resolved in *.
        rewrite Forall_forall in *. intros n Hn. apply Hmono2. now apply Hres1.
      * apply Hres2. exact He2.
    + intros t' n' Hin. now apply Hmono2, Hmono1.
Qed.

End Cache.

Section NoUncaughtException.

Import RouteVPN.

(** The first loop returns the connection type of every endpoint, or
    fails: it makes no call and raises nothing else. *)
Lemma connection_types_spec (eps : list endpoint) (s : smc) :
  (exists m, connection_types eps s = (inl (ModuleFail m), s, []))
  \/ (exists ctypes,
         connection_types eps s = (inr ctypes, s, [])
         /\ Forall (fun ep => exists ct,
                        dict_get ep "connection_type" = Some ct
                        /\ In ct ctypes) eps).
Proof.
  induction eps as [|ep rest IH]; simpl.
  - right. exists []. split; [reflexivity | constructor].
  - destruct (negb (dict_has ep "name") || negb (dict_has ep "address"));
      [left; eexists; reflexivity|].
    destruct (dict_get ep "connection_type") as [ct|] eqn:Hct;
      [|left; eexists; reflexivity].
    unfold bind. destruct IH as [[m Hm]|[ctypes [Hrun Hall]]].
    + rewrite Hm. left. eexists. reflexivity.
    + rewrite Hrun. right. exists (ct :: ctypes). split; [reflexivity|].
      constructor.
      * exists ct. split; [exact Hct | now left].
      * eapply Forall_impl; [|exact Hall].
        intros x [c [Hc Hin]]. exists c. split; [assumption | now right].
Qed.

(** Over a cache that holds the connection type of every endpoint, the
    second loop returns. *)
Lemma with_connection_type_ref_returns (c : Cache) (eps : list endpoint)
    (s : smc) :
  Forall (fun ep => exists ct,
              dict_get ep "connection_type" = Some ct
              /\ cache_get c "connection_type" ct <> None) eps ->
  exists done, with_connection_type_ref c eps s = (inr done, s, []).
Proof.
  induction 1 as [|ep rest [ct [Hct Hhit]] _ [done Hdone]]; simpl.
  - eexists. reflexivity.
  - rewrite Hct. destruct (cache_get c "connection_type" ct) as [el|];
      [|contradiction].
    unfold bind. rewrite Hdone. eexists. reflexivity.
Qed.

(** The validation of an external gateway returns or fails with a
    message: the [KeyError] and [AttributeError] of its second loop cannot
    happen, since the first loop and the cache have checked every
    connection type.  When it returns, the gateway has a preshared key. *)
Lemma resolve_external_gateway_softly (rg : gateway) (s : smc) :
  match resolve_external_gateway rg s with
  | (inr _, _, _) => gw_preshared_key rg <> None
  | (inl (ModuleFail _), _, _) => True
  | _ => False
  end.
Proof.
  unfold resolve_external_gateway.
  destruct (gw_name rg) as [gname|]; [|exact Logic.I].
  destruct (gw_preshared_key rg) as [key|]; [|exact Logic.I].
  destruct (gw_external_endpoint rg) as [eps|]; [|exact Logic.I].
  unfold bind at 1.
  destruct (connection_types_spec eps s) as [[m Hm]|[ctypes [Hrun Hall]]].
  { now rewrite Hm. }
  rewrite Hrun. unfold bind at 1.
  destruct (cache_add_spec [("connection_type", ctypes)] s empty_cache)
    as [c [l1 [Hadd [_ [Hres _]]]]].
  rewrite Hadd. destruct (missing c) as [|x xs] eqn:Hmissing; [|exact Logic.I].
  specialize (Hres eq_refl). inversion Hres as [|? ? Hctypes _]; subst.
  cbn [fst snd] in Hctypes. unfold More.resolved in Hctypes.
  rewrite Forall_forall in Hctypes.
  assert (Hfinal : forall c',
             (forall t n, cache_get c t n <> None -> cache_get c' t n <> None) ->
             exists done, with_connection_type_ref c' eps s = (inr done, s, [])).
  { intros c' Hmono. apply with_connection_type_ref_returns.
    eapply Forall_impl; [|exact Hall].
    intros ep [ct [Hct Hin]]. exists ct. split; [assumption|].
    apply Hmono, Hctypes, Hin. }
  unfold bind at 1.
  destruct (gw_vpn_site rg) as [site|].
  - destruct (Py.nonempty (site_name site)) as [sname|]; [|exact Logic.I].
    unfold bind at 1.
    destruct (cache_add_spec
                (map (fun e => (fst e, map SStr (snd e))) (site_types site)) s c)
      as [c1 [l2 [Hadd1 [_ [_ Hmono]]]]].
    rewrite Hadd1. destruct (missing c1); [|exact Logic.I].
    cbn [ret fst snd]. unfold bind.
    destruct (Hfinal c1 Hmono) as [done Hdone]. rewrite Hdone. discriminate.
  - cbn [ret fst snd]. unfold bind.
    destruct (Hfinal c (fun _ _ H => H)) as [done Hdone]. rewrite Hdone.
    discriminate.
Qed.

Lemma get_managed_gateway_softly (g : gateway) (s : smc) :
  match resolve_managed (Some g) s with
  | (inr _, _, _) | (inl (ModuleFail _), _, _) => True
  | _ => False
  end.
Proof. apply fails_softly_resolve_managed. Qed.

(** Resolution with both gateways given returns or fails with a message;
    a resolution to an external gateway has found a preshared key. *)
Lemma resolve_softly (p : params) (lg rg : gateway) (s : smc) :
  local_gw p = Some lg -> remote_gw p = Some rg ->
  match resolve p s with
  | (inr r, _, _) =>
      match remote r with
      | External _ => gw_preshared_key rg <> None
      | Managed _ _ _ => True
      end
  | (inl (ModuleFail _), _, _) => True
  | _ => False
  end.
Proof.
  intros Hlg Hrg. unfold resolve. rewrite Hlg, Hrg. unfold bind at 1.
  pose proof (get_managed_gateway_softly lg s) as Hloc.
  destruct (resolve_managed (Some lg) s) as [[[[m|m|m]|loc] s1] l1];
    try contradiction; [exact Logic.I|].
  unfold bind at 1. destruct (is_external rg).
  - unfold bind at 1.
    pose proof (resolve_external_gateway_softly rg s1) as Hext.
    destruct (resolve_external_gateway rg s1) as [[[[m|m|m]|eg] s2] l2];
      try contradiction; [exact Logic.I|].
    exact Hext.
  - unfold bind at 1.
    pose proof (get_managed_gateway_softly rg s1) as Hrem.
    destruct (resolve_managed (Some rg) s1) as [[[[m|m|m]|x] s2] l2];
      try contradiction; exact Logic.I.
Qed.

Lemma no_python_error_ret {A : Type} (a : A) : More.no_python_error (ret a).
Proof. intros s. exact Logic.I. Qed.

Lemma no_python_error_read {A : Type} (c : call) (answer : smc -> A) :
  More.no_python_error (read c answer).
Proof. intros s. exact Logic.I. Qed.

Lemma no_python_error_write_with {A : Type} (c : call) (answer : smc -> A)
    (effect : smc -> smc) :
  More.no_python_error (write_with c answer effect).
Proof. intros s. unfold write_with. now destruct (rejects s c). Qed.

Lemma no_python_error_bind {A B : Type} (m : M A) (f : A -> M B) :
  More.no_python_error m -> (forall a, More.no_python_error (f a)) ->
  More.no_python_error (bind m f).
Proof.
  intros Hm Hf s. unfold bind. specialize (Hm s).
  destruct (m s) as [[[[x|x|x]|a] s1] l1]; try contradiction;
    try exact Logic.I.
  specialize (Hf a s1). destruct (f a s1) as [[[[x|x|x]|b] s2] l2];
    try contradiction; exact Logic.I.
Qed.

Lemma no_python_error_update_ipsec_listener (eps : list InternalEndpoint) :
  More.no_python_error (update_ipsec_listener eps).
Proof.
  induction eps as [|ep rest IH]; simpl; [apply no_python_error_ret|].
  destruct (ie_enabled ep); [exact IH|].
  apply no_python_error_bind; [apply no_python_error_write_with|].
  intros _. apply no_python_error_bind;
    [exact IH | intros; apply no_python_error_ret].
Qed.

Lemma no_python_error_tunnel_endpoints (p : params) (rg : gateway)
    (r : resolution) :
  remote_gw p = Some rg ->
  match remote r with
  | External _ => gw_preshared_key rg <> None
  | Managed _ _ _ => True
  end ->
  More.no_python_error (tunnel_endpoints p r).
Proof.
  intros Hrg Hkey. unfold tunnel_endpoints.
  apply no_python_error_bind; [apply no_python_error_read|]. intros gl.
  cbv zeta. apply no_python_error_bind;
    [apply no_python_error_update_ipsec_listener|].
  intros c1. destruct (remote r) as [re rt reps|d].
  - apply no_python_error_bind; [apply no_python_error_read|]. intros gr.
    apply no_python_error_bind;
      [apply no_python_error_update_ipsec_listener
      | intros; apply no_python_error_ret].
  - apply no_python_error_bind; [apply no_python_error_write_with|].
    intros st. rewrite Hrg. destruct (gw_preshared_key rg);
      [apply no_python_error_ret | contradiction].
Qed.

Lemma try_except_softly {A : Type} (body : M A) :
  More.no_python_error body ->
  fails_softly (try_except body on_smc_exception).
Proof.
  intros Hbody s. unfold try_except. specialize (Hbody s).
  destruct (body s) as [[[[x|x|x]|a] s1] l1]; try contradiction;
    exact Logic.I.
Qed.

Lemma apply_present_softly (p : params) (rg : gateway)
    (rbvpn : option RouteVPNElement) (r : resolution) :
  remote_gw p = Some rg ->
  match remote r with
  | External _ => gw_preshared_key rg <> None
  | Managed _ _ _ => True
  end ->
  fails_softly (apply_present p rbvpn r).
Proof.
  intros Hrg Hkey. unfold apply_present. apply try_except_softly.
  destruct (check_mode p); [apply no_python_error_ret|].
  apply no_python_error_bind; [|intros; apply no_python_error_ret].
  destruct rbvpn as [v|].
  - unfold update_vpn. apply no_python_error_bind.
    + destruct (enable_requested p (Some v)); [|apply no_python_error_ret].
      apply no_python_error_bind;
        [apply no_python_error_write_with | intros; apply no_python_error_ret].
    + intros en. destruct (remote r); [apply no_python_error_ret|].
      apply no_python_error_bind;
        [apply no_python_error_write_with | intros; apply no_python_error_ret].
  - unfold create_vpn. apply no_python_error_bind.
    + now apply no_python_error_tunnel_endpoints with (rg := rg).
    + intros te. cbv zeta. apply no_python_error_bind;
        [apply no_python_error_write_with | intros; apply no_python_error_ret].
Qed.

(** X17: with the gateways that a present run requires, over parameters
    of the documented types and a server that answers every read and may
    refuse any write, the only exception that a run does not turn into a
    module failure is the one of a disable that the server refuses in the
    short circuit: every other run returns or fails with a message.  In
    particular the [KeyError] of [remote_gw['name']] and of
    [endpoint.pop('connection_type')], and the [AttributeError] of
    [cache.get(...).href], never happen: the checks before them rule them
    out. *)
Theorem only_a_refused_disable_escapes (p : params) (s : smc)
    (m : msg) :
  (state p = present -> local_gw p <> None /\ remote_gw p <> None) ->
  fst (fst (run p s)) = Crashed m ->
  state p = present
  /\ disable_requested p (find_vpn (name p) s) = true
  /\ rejects s (Disable (name p)) = true
  /\ m = [LibText "RouteVPN.disable" (name p)].
Proof.
  intros Hgiven Hcrash. destruct (state p) eqn:Hstate.
  - destruct (Hgiven eq_refl) as [Hlg Hrg].
    destruct (local_gw p) as [lg|] eqn:Hlocal; [|contradiction].
    destruct (remote_gw p) as [rg|] eqn:Hremote; [|contradiction].
    destruct (disable_requested p (find_vpn (name p) s)) eqn:Hdis.
    + destruct (rejects s (Disable (name p))) eqn:Hrej.
      * repeat split.
        unfold run, exec_module, bind, fetch_element, read in Hcrash.
        rewrite Hstate, Hdis in Hcrash. unfold write, write_with in Hcrash.
        rewrite Hrej in Hcrash. cbn in Hcrash. now inversion Hcrash.
      * unfold run in Hcrash. rewrite exec_module_disable in Hcrash
          by assumption. discriminate Hcrash.
    + exfalso. unfold run in Hcrash.
      rewrite exec_module_present in Hcrash by assumption.
      pose proof (resolve_softly p lg rg s Hlocal Hremote) as Hsoft.
      destruct (resolve p s) as [[[[x|x|x]|r] s1] l1]; try contradiction;
        [discriminate Hcrash|].
      pose proof (apply_present_softly p rg (find_vpn (name p) s) r
                    Hremote Hsoft s1) as Happly.
      destruct (apply_present p (find_vpn (name p) s) r s1)
        as [[[[x|x|x]|res] s2] l2]; try contradiction; discriminate Hcrash.
  - exfalso. unfold run, exec_module, bind at 1, fetch_element, read in Hcrash.
    rewrite Hstate in Hcrash.
    assert (Hsoft : fails_softly (apply_absent p (find_vpn (name p) s))).
    { unfold apply_absent. apply try_except_softly.
      destruct (find_vpn (name p) s); [|apply no_python_error_ret].
      apply no_python_error_bind;
        [apply no_python_error_write_with | intros; apply no_python_error_ret]. }
    specialize (Hsoft s).
    destruct (apply_absent p (find_vpn (name p) s) s)
      as [[[[x|x|x]|res] s2] l2]; try contradiction; discriminate Hcrash.
Qed.

Lemma only_a_refused_disable_escapes_witness :
  state (Scenario.invocation present (Some false)
           (Scenario.managed "myfw" "1000" "0") None false) = present
  /\ disable_requested
       (Scenario.invocation present (Some false)
          (Scenario.managed "myfw" "1000" "0") None false)
       (find_vpn "myrbvpn"
          (More.strict_server (fun _ => true) [Scenario.myrbvpn true]))
     = true
  /\ rejects (More.strict_server (fun _ => true) [Scenario.myrbvpn true])
             (Disable "myrbvpn") = true
  /\ [LibText "RouteVPN.disable" "myrbvpn"]
     = [LibText "RouteVPN.disable" "myrbvpn"].
Proof.
  apply (only_a_refused_disable_escapes
           (Scenario.invocation present (Some false)
              (Scenario.managed "myfw" "1000" "0") None false)
           (More.strict_server (fun _ => true) [Scenario.myrbvpn true])
           [LibText "RouteVPN.disable" "myrbvpn"]).
  - intros _. split; discriminate.
  - reflexivity.
Defined.

End NoUncaughtException.

(** ** The Route VPN reconciler: unresolved names, creation, and the
    writes of each state *)

Section Unresolved.

Import RouteVPN.

Lemma cache_get_type_added (c : Cache) (typeof t' : string) (el : Element) :
  cache_get_type
    {| cache := dict_update (cache c) typeof (cache_get_type c typeof ++ [el]);
       missing := missing c |} t'
  = if typeof =? t' then cache_get_type c typeof ++ [el]
    else cache_get_type c t'.
Proof.
  unfold cache_get_type at 1. cbn [cache].
  destruct (typeof =? t') eqn:Ht.
  - apply String.eqb_eq in Ht. subst t'. now rewrite dict_get_update_same.
  - now rewrite dict_get_update_other.
Qed.

Lemma find_app_cases {A : Type} (f : A -> bool) (l1 l2 : list A) :
  find f (l1 ++ l2) <> None -> find f l1 <> None \/ find f l2 <> None.
Proof.
  induction l1 as [|x rest IH]; simpl; [auto|].
  destruct (f x); [left; discriminate | exact IH].
Qed.

(** A lookup keeps the cache within the server, keeps what is missing, and
    records a name that the server does not know. *)
Lemma cache_add_entry_missing (c : Cache) (typeof : string) (n : scalar)
    (s : smc) :
  More.sound s c ->
  exists c' calls,
    cache_add_entry c typeof n s = (inr c', s, calls)
    /\ More.sound s c'
    /\ (More.unknown s typeof n -> In (typeof, n) (missing c'))
    /\ (forall e, In e (missing c) -> In e (missing c')).
Proof.
  intros Hsound. unfold cache_add_entry.
  destruct (cache_get c typeof n) as [hit|] eqn:Hhit.
  - exists c, []. repeat split; auto.
    intros Hunknown. exfalso. destruct n as [x|b]; [|discriminate Hhit].
    apply (Hsound typeof x); [congruence | exact Hunknown].
  - unfold bind, read.
    destruct (match n with
              | SStr x => find_element typeof x s
              | SBool _ => None
              end) as [el|] eqn:Hfound.
    + eexists. eexists. split; [reflexivity|]. cbn [missing]. repeat split.
      * intros t' y Hin. unfold cache_get in Hin.
        rewrite cache_get_type_added in Hin.
        destruct (typeof =? t') eqn:Ht.
        -- apply String.eqb_eq in Ht. subst t'.
           apply find_app_cases in Hin. destruct Hin as [Hin|Hin].
           ++ now apply Hsound.
           ++ simpl in Hin. destruct (el_name el =? y) eqn:Hy; [|congruence].
              apply String.eqb_eq in Hy. subst y.
              destruct n as [x|b]; [|discriminate Hfound].
              pose proof Hfound as Hel. unfold find_element in Hel.
              apply find_some in Hel. destruct Hel as [_ Hel].
              apply andb_true_iff in Hel. destruct Hel as [_ Hname].
              apply String.eqb_eq in Hname. rewrite Hname. congruence.
        -- now apply Hsound.
      * intros Hunknown. exfalso. destruct n as [x|b]; [|discriminate Hfound].
        simpl in Hunknown. congruence.
      * auto.
    + eexists. eexists. split; [reflexivity|]. cbn [missing cache].
      repeat split; auto.
      * intros _. apply in_or_app. right. now left.
      * intros e He. apply in_or_app. now left.
Qed.

Lemma cache_add_names_missing (typeof : string) (names : list scalar) (s : smc) :
  forall c,
    More.sound s c ->
    exists c' calls,
      cache_add_names c typeof names s = (inr c', s, calls)
      /\ More.sound s c'
      /\ (forall n, In n names -> More.unknown s typeof n ->
                    In (typeof, n) (missing c'))
      /\ (forall e, In e (missing c) -> In e (missing c')).
Proof.
  induction names as [|n rest IH]; intros c Hsound; simpl.
  - exists c, []. repeat split; auto. intros n [].
  - destruct (cache_add_entry_missing c typeof n s Hsound)
      as [c1 [l1 [Hrun1 [Hsound1 [Hmiss1 Hkeep1]]]]].
    destruct (IH c1 Hsound1) as [c2 [l2 [Hrun2 [Hsound2 [Hmiss2 Hkeep2]]]]].
    exists c2, (l1 ++ l2). unfold bind. rewrite Hrun1, Hrun2.
    split; [reflexivity|]. repeat split; auto.
    intros x [<-|Hin] Hunknown; [apply Hkeep2 |]; auto.
Qed.

Lemma connection_types_returns (eps : list endpoint) (s : smc) :
  Forall (fun ep => dict_has ep "name" = true /\ dict_has ep "address" = true
                    /\ dict_has ep "connection_type" = true) eps ->
  exists ctypes,
    connection_types eps s = (inr ctypes, s, [])
    /\ forall ep ct, In ep eps -> dict_get ep "connection_type" = Some ct ->
                     In ct ctypes.
Proof.
  induction 1 as [|ep rest [Hn [Ha Hc]] _ [ctypes [Hrun Hall]]]; simpl.
  - exists []. split; [reflexivity|]. intros ep ct [].
  - rewrite Hn, Ha. cbn [negb orb].
    destruct (dict_get ep "connection_type") as [ct|] eqn:Hct.
    + unfold bind. rewrite Hrun. exists (ct :: ctypes).
      split; [reflexivity|]. intros x c [<-|Hin] Hx.
      * left. congruence.
      * right. eauto.
    + apply dict_get_has in Hct. congruence.
Qed.

(** X18: an external gateway definition that is complete, with an endpoint
    whose connection type the server does not know, makes a present run
    fail, once the local gateway is resolved, with the list of what is
    missing as its message; the unknown connection type is in that list,
    and nothing is written. *)
Theorem unknown_connection_type_fails (p : params) (rg : gateway) (s : smc)
    (gname key : string) (eps : list endpoint) (ep : endpoint) (ct : scalar)
    (loc : Engine * string * list InternalEndpoint) (l1 : list call) :
  state p = present ->
  disable_requested p (find_vpn (name p) s) = false ->
  remote_gw p = Some rg -> is_external rg = true ->
  resolve_managed (local_gw p) s = (inr loc, s, l1) ->
  gw_name rg = Some gname -> gw_preshared_key rg = Some key ->
  gw_external_endpoint rg = Some eps ->
  Forall (fun e => dict_has e "name" = true /\ dict_has e "address" = true
                   /\ dict_has e "connection_type" = true) eps ->
  In ep eps -> dict_get ep "connection_type" = Some ct ->
  More.unknown s "connection_type" ct ->
  exists entries calls,
    run p s = (Failed [ArgMissing entries], s, calls)
    /\ In ("connection_type", str ct) entries
    /\ Forall reads_only calls.
Proof.
  intros Hstate Hdis Hrg Hext Hloc Hname Hkey Heps Hcomplete Hin Hct Hunknown.
  destruct (connection_types_returns eps s Hcomplete) as [ctypes [Hrun Hall]].
  assert (Hempty : More.sound s empty_cache).
  { intros t x H. exfalso. apply H. reflexivity. }
  destruct (cache_add_names_missing "connection_type" ctypes s empty_cache
              Hempty) as [c [l2 [Hadd [_ [Hmiss _]]]]].
  specialize (Hmiss ct (Hall ep ct Hin Hct) Hunknown).
  assert (Hresolve : exists calls,
             resolve p s = (inl (ModuleFail [missing_chunk c]), s, calls)).
  { unfold resolve, bind at 1. rewrite Hloc, Hrg, Hext.
    unfold bind at 1, bind at 1, resolve_external_gateway.
    rewrite Hname, Hkey, Heps. unfold bind at 1. rewrite Hrun.
    unfold bind at 1. cbn [cache_add]. unfold bind at 1. rewrite Hadd.
    cbn [ret]. destruct (missing c) as [|x xs]; [contradiction|].
    eexists. reflexivity. }
  destruct Hresolve as [calls Hresolve].
  eexists. eexists. unfold run.
  rewrite exec_module_present by assumption. rewrite Hresolve.
  split; [reflexivity|]. split.
  - unfold missing_chunk.
    apply (in_map (fun e => (fst e, str (snd e))) _ _ Hmiss).
  - apply resolve_reads_only in Hresolve. destruct Hresolve as [_ Hcalls].
    constructor; [reflexivity | exact Hcalls].
Qed.

End Unresolved.

Lemma unknown_connection_type_fails_witness :
  exists entries calls,
    RouteVPN.run
      (Scenario.invocation RouteVPN.present None
         (More.extgw_with_connection_type "Nope") None false)
      (Scenario.server [])
    = (Failed [ArgMissing entries], Scenario.server [], calls)
    /\ In ("connection_type", "Nope") entries
    /\ Forall RouteVPN.reads_only calls.
Proof.
  eapply (unknown_connection_type_fails
            (Scenario.invocation RouteVPN.present None
               (More.extgw_with_connection_type "Nope") None false)
            (More.extgw_with_connection_type "Nope") (Scenario.server [])
            "extgw3" "key" _
            [("name", RouteVPN.SStr "ep1");
             ("address", RouteVPN.SStr "33.33.33.41");
             ("connection_type", RouteVPN.SStr "Nope")]
            (RouteVPN.SStr "Nope")); try reflexivity.
  - repeat constructor.
  - left. reflexivity.
Defined.

Section Creation.

Import RouteVPN.

(** X19: a present run over two managed gateways, with no Route VPN of the
    name and a server that accepts the writes, enables the listener of
    every resolved endpoint that is not enabled, the local ones first,
    then creates the Route VPN with the module's name, preshared key and
    profile, and returns [changed = True] with the new element as
    [state]. *)
Theorem creation_enables_listeners_then_creates (p : params) (s : smc)
    (r : resolution) (calls : list call) (re : Engine) (rt : string)
    (reps : list InternalEndpoint) :
  state p = present -> check_mode p = false ->
  find_vpn (name p) s = None ->
  resolve p s = (inr r, s, calls) ->
  remote r = Managed re rt reps ->
  (forall c, rejects s c = false) ->
  exists args,
    run p s
    = (Returned {| changed := true; vpn_state := StateData (new_vpn args) |},
       add_vpn args
         (More.enable_all reps (More.enable_all (local_internal_endpoint r) s)),
       FetchElement (name p)
       :: calls
          ++ InternalGateway (engine_name (local_engine r))
          :: More.listener_calls (local_internal_endpoint r)
          ++ InternalGateway (engine_name re)
          :: More.listener_calls reps
          ++ [CreateIpsecTunnel args])
    /\ vpn_name args = name p
    /\ vpn_preshared_key args = preshared_key p
    /\ vpn_profile args = Py.nonempty (vpn_profile_name p)
    /\ tunnel_interface_ref (local_endpoint args)
       = Some (local_tunnel_interface r)
    /\ tunnel_interface_ref (remote_endpoint args) = Some rt.
Proof.
  intros Hstate Hcheck Hnone Hres Hremote Hacc.
  pose proof (update_ipsec_listener_pending (local_internal_endpoint r))
    as Hlocal.
  pose proof (update_ipsec_listener_pending reps) as Hreps.
  assert (Hacc1 : forall e a,
             rejects (More.enable_all (local_internal_endpoint r) s)
                     (EndpointUpdate e a) = false).
  { intros e a. now rewrite rejects_enable_all. }
  eexists. unfold run.
  rewrite exec_module_present; [|assumption | now rewrite Hnone].
  rewrite Hres, Hnone.
  unfold apply_present, try_except, bind at 1, create_vpn, bind at 1,
    tunnel_endpoints, bind at 1, read.
  rewrite Hcheck. cbv zeta. unfold bind at 1.
  rewrite (Hlocal s (fun e a => Hacc _)).
  rewrite Hremote. unfold bind at 1, read. unfold bind at 1.
  rewrite (Hreps _ Hacc1). cbn [ret].
  unfold bind at 1, write_with.
  rewrite !rejects_enable_all, Hacc. cbn [ret fst snd].
  split.
  - rewrite !app_nil_r. cbn [app].
    repeat (rewrite <- app_assoc; cbn [app]). reflexivity.
  - repeat split.
Qed.

Lemma creation_enables_listeners_then_creates_witness :
  exists args,
    fst (fst (run (Scenario.invocation present None
                     (Scenario.managed "myfw" "1000" "0") (Some "modkey") false)
                  (Scenario.server [])))
    = Returned {| changed := true; vpn_state := StateData (new_vpn args) |}
    /\ vpn_preshared_key args = Some "modkey".
Proof.
  destruct (creation_enables_listeners_then_creates
              (Scenario.invocation present None
                 (Scenario.managed "myfw" "1000" "0") (Some "modkey") false)
              (Scenario.server [])
              _ _ _ _ _ eq_refl eq_refl eq_refl eq_refl eq_refl
              (fun _ => eq_refl)) as [args [Hrun [_ [Hkey _]]]].
  exists args. rewrite Hrun. split; [reflexivity | exact Hkey].
Defined.

Lemma not_delete_reads (c : call) : reads_only c -> More.is_delete c = false.
Proof. destruct c; simpl; auto; discriminate. Qed.

(** X20: the writes that each state can make.  An absent run calls
    nothing but the fetch and the delete of the module's name: it never
    creates, enables or disables.  A present run never deletes. *)
Theorem each_state_has_its_writes (p : params) (s s' : smc)
    (out : outcome results) (calls : list call) :
  run p s = (out, s', calls) ->
  (state p = absent -> Forall (More.fetch_or_delete (name p)) calls)
  /\ (state p = present -> Forall (fun c => More.is_delete c = false) calls).
Proof.
  intros Hrun. apply run_inv in Hrun. destruct Hrun as [r [Hexec _]]. split.
  - intros Hstate. unfold exec_module, bind at 1, fetch_element, read in Hexec.
    rewrite Hstate in Hexec.
    unfold apply_absent, try_except, bind, write, write_with in Hexec.
    destruct (find_vpn (name p) s);
      [destruct (rejects s (Delete (name p)))|];
      inversion Hexec; subst;
      repeat (apply Forall_cons; [unfold More.fetch_or_delete; auto|]);
      apply Forall_nil.
  - intros Hstate.
    assert (Hall : respects (fun _ _ => True)
                     (fun c => More.is_delete c = false) (exec_module p)).
    { unfold exec_module. apply respects_bind; auto.
      { apply respects_read; auto using not_delete_reads. reflexivity. }
      intros rbvpn. rewrite Hstate.
      destruct (disable_requested p rbvpn).
      - apply respects_bind; auto; [|intros; apply respects_ret; auto].
        apply respects_write; auto.
      - apply respects_bind; auto.
        + apply respects_resolve; auto using not_delete_reads.
        + intros res. unfold apply_present. apply respects_try_except; auto.
          * destruct (check_mode p); [apply respects_ret; auto|].
            apply respects_bind; auto; [|intros; apply respects_ret; auto].
            destruct rbvpn as [v|].
            -- apply respects_update_vpn; auto using not_delete_reads.
            -- unfold create_vpn. apply respects_bind; auto.
               ++ apply respects_tunnel_endpoints;
                    auto using not_delete_reads.
               ++ intros te. cbv zeta. apply respects_bind; auto.
                  ** apply respects_write_with; auto.
                  ** intros v. apply respects_ret; auto.
          * intros err. apply respects_fail; auto. }
    now destruct (respects_run _ _ _ _ _ _ _ Hall Hexec).
Qed.

Lemma each_state_has_its_writes_witness :
  Forall (fun c => More.is_delete c = false)
         (snd (run (Scenario.invocation present None
                      (Scenario.managed "myfw" "1000" "0") None false)
                   (Scenario.server [])))
  /\ Forall (More.fetch_or_delete "myrbvpn")
            (snd (run (Scenario.invocation absent None
                         (Scenario.managed "myfw" "1000" "0") None false)
                      (Scenario.server [Scenario.myrbvpn true]))).
Proof.
  split.
  - eapply (each_state_has_its_writes
              (Scenario.invocation present None
                 (Scenario.managed "myfw" "1000" "0") None false)
              (Scenario.server [])); reflexivity.
  - eapply (each_state_has_its_writes
              (Scenario.invocation absent None
                 (Scenario.managed "myfw" "1000" "0") None false)
              (Scenario.server [Scenario.myrbvpn true])); reflexivity.
Defined.

End Creation.
